(** * openshift/origin: disruption harness, service upgrade probe and
      monitor locators

    A shallow embedding of
      - [pkg/monitor/monitorapi/identification.go]
      - [test/extended/util/disruption/disruption.go]
      - [test/e2e/upgrade/service/service.go]
      - [checkConditionStatus] of the bare metal tests (package baremetal)
    with the properties their specification states about them, and further
    properties that the code shows.

    Go strings are byte sequences: they are [string]s here, one [ascii] per
    byte.  [time.Duration] and [int] values are [Z]; [float64] is the IEEE 754
    binary64 format of [SpecFloat] (precision 53, maximal exponent 1024).
    Pointers into the JUnit report are modelled by position in the suite's
    slice.  The file system, the clock and the formatting verbs of [fmt] that
    render numbers are inputs of the functions that use them. *)

From Stdlib Require Import ZArith List String Ascii Bool Lia Arith.
From Stdlib Require Import Floats.SpecFloat.
From Stdlib Require Import Numbers.DecimalString.
Import ListNotations.

Local Open Scope string_scope.
Local Open Scope Z_scope.

(** ** Bytes *)

(** The value of a byte, [0 <= byteZ c < 256]. *)
Definition byteZ (c : ascii) : Z := Z.of_N (N_of_ascii c).

(** Go's conversion [byte(x)] of an integer: its low eight bits. *)
Definition Zbyte (z : Z) : ascii := ascii_of_N (Z.to_N (z mod 256)).

(** [s[n:]] for [n <= len(s)]. *)
Fixpoint drop (n : nat) (s : string) : string :=
  match n, s with
  | O, _ => s
  | S n', String _ s' => drop n' s'
  | S _, EmptyString => EmptyString
  end.

(** [contains(s, c)] of strconv, [strings.IndexByte(s, c) != -1]. *)
Fixpoint contains (s : string) (c : ascii) : bool :=
  match s with
  | EmptyString => false
  | String a s' => Ascii.eqb a c || contains s' c
  end.

(** ** Package unicode/utf8 (Go standard library)

    The decoder and encoder are written with division and remainder where
    the Go source masks and shifts: [b & 0x3F] is [b mod 64], [x << 6 | y] is
    [x * 64 + y] for [y < 64]. *)
Module utf8.

Definition RuneError : Z := 0xFFFD.
Definition RuneSelf : Z := 0x80.
Definition MaxRune : Z := 0x10FFFF.
Definition surrogateMin : Z := 0xD800.
Definition surrogateMax : Z := 0xDFFF.

(** What the table [first] says of a leading byte. *)
Inductive lead : Type :=
| LeadASCII
| LeadInvalid
| LeadSeq (size : nat) (lo hi : Z).

Definition first (b : Z) : lead :=
  if b <? 0x80 then LeadASCII
  else if b <? 0xC2 then LeadInvalid
  else if b <? 0xE0 then LeadSeq 2 0x80 0xBF
  else if b =? 0xE0 then LeadSeq 3 0xA0 0xBF
  else if b <? 0xED then LeadSeq 3 0x80 0xBF
  else if b =? 0xED then LeadSeq 3 0x80 0x9F
  else if b <? 0xF0 then LeadSeq 3 0x80 0xBF
  else if b =? 0xF0 then LeadSeq 4 0x90 0xBF
  else if b <? 0xF4 then LeadSeq 4 0x80 0xBF
  else if b =? 0xF4 then LeadSeq 4 0x80 0x8F
  else LeadInvalid.

Definition continuation (b : Z) : bool := (0x80 <=? b) && (b <=? 0xBF).

(** [utf8.DecodeRuneInString]: the first rune of [s] and its width in bytes;
    [(RuneError, 0)] on the empty string, [(RuneError, 1)] on a byte that
    starts no well-formed sequence. *)
Definition DecodeRuneInString (s : string) : Z * nat :=
  match s with
  | EmptyString => (RuneError, 0%nat)
  | String c0 t0 =>
    let s0 := byteZ c0 in
    match first s0 with
    | LeadASCII => (s0, 1%nat)
    | LeadInvalid => (RuneError, 1%nat)
    | LeadSeq sz lo hi =>
      if (String.length s <? sz)%nat then (RuneError, 1%nat) else
      match t0 with
      | EmptyString => (RuneError, 1%nat)
      | String c1 t1 =>
        let s1 := byteZ c1 in
        if (s1 <? lo) || (hi <? s1) then (RuneError, 1%nat) else
        if (sz <=? 2)%nat then ((s0 mod 32) * 64 + s1 mod 64, 2%nat) else
        match t1 with
        | EmptyString => (RuneError, 1%nat)
        | String c2 t2 =>
          let s2 := byteZ c2 in
          if negb (continuation s2) then (RuneError, 1%nat) else
          if (sz <=? 3)%nat
          then ((s0 mod 16) * 4096 + (s1 mod 64) * 64 + s2 mod 64, 3%nat) else
          match t2 with
          | EmptyString => (RuneError, 1%nat)
          | String c3 _ =>
            let s3 := byteZ c3 in
            if negb (continuation s3) then (RuneError, 1%nat) else
            ((s0 mod 8) * 262144 + (s1 mod 64) * 4096
               + (s2 mod 64) * 64 + s3 mod 64, 4%nat)
          end
        end
      end
    end
  end.

Definition encode3 (r : Z) : string :=
  String (Zbyte (0xE0 + r / 4096))
    (String (Zbyte (0x80 + (r / 64) mod 64))
       (String (Zbyte (0x80 + r mod 64)) EmptyString)).

(** [utf8.EncodeRune]: the bytes written for [r]. *)
Definition EncodeRune (r : Z) : string :=
  if (0 <=? r) && (r <=? 0x7F) then String (Zbyte r) EmptyString
  else if (0 <=? r) && (r <=? 0x7FF) then
    String (Zbyte (0xC0 + r / 64)) (String (Zbyte (0x80 + r mod 64)) EmptyString)
  else if (r <? 0) || (MaxRune <? r)
          || ((surrogateMin <=? r) && (r <=? surrogateMax))
  then encode3 RuneError
  else if r <=? 0xFFFF then encode3 r
  else
    String (Zbyte (0xF0 + r / 262144))
      (String (Zbyte (0x80 + (r / 4096) mod 64))
         (String (Zbyte (0x80 + (r / 64) mod 64))
            (String (Zbyte (0x80 + r mod 64)) EmptyString))).

(** [utf8.ValidRune]. *)
Definition ValidRune (r : Z) : bool :=
  ((0 <=? r) && (r <? surrogateMin)) || ((surrogateMax <? r) && (r <=? MaxRune)).

Fixpoint validFrom (fuel : nat) (s : string) : bool :=
  match s with
  | EmptyString => true
  | _ =>
    match fuel with
    | O => false
    | S fuel' =>
      let '(r, w) := DecodeRuneInString s in
      if (r =? RuneError) && (w =? 1)%nat then false
      else validFrom fuel' (drop w s)
    end
  end.

(** [utf8.ValidString]. *)
Definition ValidString (s : string) : bool := validFrom (String.length s) s.

End utf8.

(** The byte of the double quote. *)
Definition dquote : ascii := "034"%char.

(** [s[:n]] for [n <= len(s)]. *)
Fixpoint take (n : nat) (s : string) : string :=
  match n, s with
  | O, _ => EmptyString
  | S n', String c s' => String c (take n' s')
  | S _, EmptyString => EmptyString
  end.

(** [index(s, c)] of strconv ([strings.IndexByte]): the position of the first
    [c] in [s], [None] for Go's [-1]. *)
Fixpoint indexByte (s : string) (c : ascii) : option nat :=
  match s with
  | EmptyString => None
  | String a s' =>
    if Ascii.eqb a c then Some O
    else match indexByte s' c with Some i => Some (S i) | None => None end
  end.

(** ** Package strconv (Go standard library, as of Go 1.17, the toolchain the
    repository is built with): [Quote], which is what the verb [%q] of [fmt]
    prints for a string, and [Unquote]. *)
Module strconv.

Definition lowerhex (n : Z) : ascii :=
  match String.get (Z.to_nat n) "0123456789abcdef" with
  | Some c => c
  | None => "0"%char
  end.

(** The digits [lowerhex[r>>s & 0xF]] for [s] from [4*(n-1)] down to [0]. *)
Fixpoint hexDigits (n : nat) (r : Z) : string :=
  match n with
  | O => EmptyString
  | S n' => String (lowerhex ((r / 16 ^ Z.of_nat n') mod 16)) (hexDigits n' r)
  end.

Section IsPrint.

(** The tables [isPrint16], [isNotPrint16], [isPrint32] and [isNotPrint32]
    of strconv decide printability above Latin-1; they are taken as a
    parameter. *)
Variable isPrintTable : Z -> bool.

(** [strconv.IsPrint]. *)
Definition IsPrint (r : Z) : bool :=
  if r <=? 0xFF then
    if (0x20 <=? r) && (r <=? 0x7E) then true
    else if (0xA1 <=? r) && (r <=? 0xFF) then negb (r =? 0xAD)
    else false
  else isPrintTable r.

(** [appendEscapedRune(buf, r, quote, false, false)]: the bytes appended. *)
Definition appendEscapedRune (r : Z) (quote : ascii) : string :=
  if (r =? byteZ quote) || (r =? byteZ "\"%char) then
    String "\"%char (String (Zbyte r) EmptyString)
  else if IsPrint r then utf8.EncodeRune r
  else if r =? 7 then "\a"
  else if r =? 8 then "\b"
  else if r =? 12 then "\f"
  else if r =? 10 then "\n"
  else if r =? 13 then "\r"
  else if r =? 9 then "\t"
  else if r =? 11 then "\v"
  else if r <? 32 then
    String "\"%char (String "x"%char
      (String (lowerhex (byteZ (Zbyte r) / 16))
         (String (lowerhex (byteZ (Zbyte r) mod 16)) EmptyString)))
  else if utf8.MaxRune <? r then "\u" ++ hexDigits 4 0xFFFD
  else if r <? 0x10000 then "\u" ++ hexDigits 4 r
  else "\U" ++ hexDigits 8 r.

(** The loop of [appendQuotedWith] over the runes of [s]. *)
Fixpoint quoteLoop (fuel : nat) (s : string) (quote : ascii) : string :=
  match s with
  | EmptyString => EmptyString
  | String c _ =>
    match fuel with
    | O => EmptyString
    | S fuel' =>
      let '(r, width) :=
        if utf8.RuneSelf <=? byteZ c then utf8.DecodeRuneInString s
        else (byteZ c, 1%nat) in
      if (width =? 1)%nat && (r =? utf8.RuneError) then
        String "\"%char (String "x"%char
          (String (lowerhex (byteZ c / 16))
             (String (lowerhex (byteZ c mod 16))
                (quoteLoop fuel' (drop width s) quote))))
      else appendEscapedRune r quote ++ quoteLoop fuel' (drop width s) quote
    end
  end.

(** [strconv.Quote]. *)
Definition Quote (s : string) : string :=
  String dquote
    (quoteLoop (String.length s) s dquote ++ String dquote EmptyString).

End IsPrint.

(** [unhex]. *)
Definition unhex (b : ascii) : option Z :=
  let c := byteZ b in
  if (48 <=? c) && (c <=? 57) then Some (c - 48)
  else if (97 <=? c) && (c <=? 102) then Some (c - 97 + 10)
  else if (65 <=? c) && (c <=? 70) then Some (c - 65 + 10)
  else None.

(** A [rune] is an [int32]: arithmetic on it wraps around. *)
Definition wrap32 (z : Z) : Z := (z + 2 ^ 31) mod 2 ^ 32 - 2 ^ 31.

(** The loop [for j := 0; j < n; j++ { v = v<<4 | unhex(s[j]) }]. *)
Fixpoint unhexLoop (n : nat) (s : string) (v : Z) : option Z :=
  match n with
  | O => Some v
  | S n' =>
    match s with
    | EmptyString => None
    | String b s' =>
      match unhex b with
      | None => None
      | Some x => unhexLoop n' s' (wrap32 (v * 16 + x))
      end
    end
  end.

(** The loop [for j := 0; j < 2; j++ { v = v<<3 | (s[j] - '0') }]. *)
Fixpoint unoctLoop (n : nat) (s : string) (v : Z) : option Z :=
  match n with
  | O => Some v
  | S n' =>
    match s with
    | EmptyString => None
    | String b s' =>
      let x := byteZ b - 48 in
      if (x <? 0) || (7 <? x) then None
      else unoctLoop n' s' (v * 8 + x)
    end
  end.

(** [strconv.UnquoteChar]: [(value, multibyte, tail)], or [None] for
    [ErrSyntax]. *)
Definition UnquoteChar (s : string) (quote : ascii)
  : option (Z * bool * string) :=
  match s with
  | EmptyString => None
  | String c t =>
    if Ascii.eqb c quote
       && (Ascii.eqb quote "'"%char || Ascii.eqb quote dquote)
    then None
    else if utf8.RuneSelf <=? byteZ c then
      let '(r, size) := utf8.DecodeRuneInString s in
      Some (r, true, drop size s)
    else if negb (Ascii.eqb c "\"%char) then Some (byteZ c, false, t)
    else
      match t with
      | EmptyString => None
      | String e s2 =>
        let simple (v : Z) := Some (v, false, s2) in
        let hex (n : nat) (multibyte : bool) :=
          if (String.length s2 <? n)%nat then None else
          match unhexLoop n s2 0 with
          | None => None
          | Some v =>
            if multibyte then
              if utf8.ValidRune v then Some (v, true, drop n s2) else None
            else Some (v, false, drop n s2)
          end in
        if Ascii.eqb e "a"%char then simple 7
        else if Ascii.eqb e "b"%char then simple 8
        else if Ascii.eqb e "f"%char then simple 12
        else if Ascii.eqb e "n"%char then simple 10
        else if Ascii.eqb e "r"%char then simple 13
        else if Ascii.eqb e "t"%char then simple 9
        else if Ascii.eqb e "v"%char then simple 11
        else if Ascii.eqb e "x"%char then hex 2%nat false
        else if Ascii.eqb e "u"%char then hex 4%nat true
        else if Ascii.eqb e "U"%char then hex 8%nat true
        else if (48 <=? byteZ e) && (byteZ e <=? 55) then
          if (String.length s2 <? 2)%nat then None else
          match unoctLoop 2 s2 (byteZ e - 48) with
          | None => None
          | Some v => if 255 <? v then None else Some (v, false, drop 2 s2)
          end
        else if Ascii.eqb e "\"%char then simple 92
        else if Ascii.eqb e "'"%char || Ascii.eqb e dquote then
          if negb (Ascii.eqb e quote) then None else simple (byteZ e)
        else None
      end
  end.

(** The bytes the unquoting loop appends for one character. *)
Definition appendChar (r : Z) (multibyte : bool) : string :=
  if (r <? utf8.RuneSelf) || negb multibyte
  then String (Zbyte r) EmptyString
  else utf8.EncodeRune r.

(** The loop of [unquote] over a quoted string with escape sequences:
    [(buf, in)] when it ends, [None] for [ErrSyntax]. *)
Fixpoint unquoteLoop (fuel : nat) (s : string) (quote : ascii) (buf : string)
  : option (string * string) :=
  match s with
  | EmptyString => Some (buf, s)
  | String c _ =>
    if Ascii.eqb c quote then Some (buf, s) else
    match fuel with
    | O => None
    | S fuel' =>
      match UnquoteChar s quote with
      | None => None
      | Some (r, multibyte, rem) =>
        if Ascii.eqb c "010"%char then None
        else
          let buf' := buf ++ appendChar r multibyte in
          if Ascii.eqb quote "'"%char then Some (buf', rem)
          else unquoteLoop fuel' rem quote buf'
      end
    end
  end.

(** Raw strings drop their carriage returns. *)
Fixpoint dropCR (s : string) : string :=
  match s with
  | EmptyString => EmptyString
  | String c s' =>
    if Ascii.eqb c "013"%char then dropCR s' else String c (dropCR s')
  end.

(** [unquote(in, true)]: [(out, rem)], or [None] for [ErrSyntax]. *)
Definition unquote (s : string) : option (string * string) :=
  match s with
  | EmptyString => None
  | String quote t =>
    if (String.length s <? 2)%nat then None else
    match indexByte t quote with
    | None => None
    | Some i =>
      let e := (i + 2)%nat in
      let inner := drop 1 (take (e - 1) s) in
      if Ascii.eqb quote "`"%char then
        if negb (contains (take e s) "013"%char)
        then Some (inner, drop e s)
        else Some (dropCR inner, drop e s)
      else if Ascii.eqb quote dquote || Ascii.eqb quote "'"%char then
        let valid :=
          if Ascii.eqb quote dquote then utf8.ValidString inner
          else
            let '(r, n) := utf8.DecodeRuneInString inner in
            ((1 + n + 1 =? e)%nat
             && (negb (r =? utf8.RuneError) || negb (n =? 1)%nat)) in
        if negb (contains (take e s) "\"%char)
           && negb (contains (take e s) "010"%char) && valid
        then Some (inner, drop e s)
        else
          match unquoteLoop (String.length t) t quote EmptyString with
          | None => None
          | Some (buf, rest) =>
            match rest with
            | String c rest' =>
              if Ascii.eqb c quote then Some (buf, rest') else None
            | EmptyString => None
            end
          end
      else None
    end
  end.

(** [strconv.Unquote]: the string a quoted literal denotes, [None] for
    [ErrSyntax]. *)
Definition Unquote (s : string) : option string :=
  match unquote s with
  | None => None
  | Some (out, rem) =>
    if (0 <? String.length rem)%nat then None else Some out
  end.

End strconv.

(** ** Results of Go code that may panic *)

(** What a call does: it returns, or it panics at run time. *)
Inductive result (A : Type) : Type :=
| Ok (a : A)
| Panic (msg : string).
Arguments Ok {A} a.
Arguments Panic {A} msg.

(** ** Package strings (Go standard library) *)
Module strings.

(** [strings.HasPrefix]. *)
Fixpoint HasPrefix (s prefix : string) {struct prefix} : bool :=
  match prefix, s with
  | EmptyString, _ => true
  | String a p', String b s' => Ascii.eqb a b && HasPrefix s' p'
  | String _ _, EmptyString => false
  end.

(** [strings.Index]: where [sep] first occurs in [s], [None] for [-1]. *)
Fixpoint Index (s sep : string) : option nat :=
  if HasPrefix s sep then Some O
  else
    match s with
    | EmptyString => None
    | String _ s' =>
      match Index s' sep with Some m => Some (S m) | None => None end
    end.

(** The loop of [genSplit]: at most [n] cuts at [sep], then the rest. *)
Fixpoint genSplit (s sep : string) (n : nat) : list string :=
  match n with
  | O => [s]
  | S n' =>
    match Index s sep with
    | None => [s]
    | Some m => take m s :: genSplit (drop (m + String.length sep) s) sep n'
    end
  end.

(** [strings.SplitN(s, sep, n)] for a separator that is not empty and
    [n >= 0]. *)
Definition SplitN (s sep : string) (n : nat) : list string :=
  match n with
  | O => []
  | S n' => genSplit s sep n'
  end.

(** [strings.Join]. *)
Fixpoint Join (elems : list string) (sep : string) : string :=
  match elems with
  | [] => EmptyString
  | [e] => e
  | e :: rest => e ++ sep ++ Join rest sep
  end.

(** [strings.TrimPrefix]. *)
Definition TrimPrefix (s prefix : string) : string :=
  if HasPrefix s prefix then drop (String.length prefix) s else s.

(** The loop of [strings.Count] for a separator that is not empty: the
    instances of [sep] in [s] that do not overlap. *)
Fixpoint countLoop (fuel : nat) (s sep : string) : nat :=
  match fuel with
  | O => O
  | S fuel' =>
    match Index s sep with
    | None => O
    | Some i => S (countLoop fuel' (drop (i + String.length sep) s) sep)
    end
  end.

Definition Count (s sep : string) : nat := countLoop (String.length s) s sep.

(** [strings.Split(s, sep)] for a separator that is not empty:
    [genSplit(s, sep, 0, -1)], which cuts at every instance counted. *)
Definition Split (s sep : string) : list string := genSplit s sep (Count s sep).

(** [trimRightByte] and [trimLeftByte]. *)
Fixpoint trimRightByte (s : string) (c : ascii) : string :=
  match s with
  | EmptyString => EmptyString
  | String a s' =>
    match trimRightByte s' c with
    | EmptyString => if Ascii.eqb a c then EmptyString else String a EmptyString
    | t => String a t
    end
  end.

Fixpoint trimLeftByte (s : string) (c : ascii) : string :=
  match s with
  | EmptyString => EmptyString
  | String a s' => if Ascii.eqb a c then trimLeftByte s' c else s
  end.

(** [strings.Trim(s, cutset)] for a cutset of one ASCII byte [c]. *)
Definition TrimByte (s : string) (c : ascii) : string :=
  trimLeftByte (trimRightByte s c) c.

End strings.

(** ** Go maps with string keys

    A [map[string]V] is a list of bindings with one binding per key; the
    code never observes the order of the bindings. *)
Module gomap.

Section Map.

Variable V : Type.

Definition t : Type := list (string * V).

Definition empty : t := [].

(** [v, ok := m[k]]. *)
Fixpoint get (m : t) (k : string) : option V :=
  match m with
  | [] => None
  | (k', v) :: rest => if String.eqb k' k then Some v else get rest k
  end.

(** [m[k] = v]. *)
Fixpoint set (m : t) (k : string) (v : V) : t :=
  match m with
  | [] => [(k, v)]
  | (k', v') :: rest =>
    if String.eqb k' k then (k, v) :: rest else (k', v') :: set rest k v
  end.

End Map.

Arguments empty {V}.
Arguments get {V} m k.
Arguments set {V} m k v.

(** [m[k]] as an expression of a map of strings: the empty string for a
    missing key. *)
Definition index (m : t string) (k : string) : string :=
  match get m k with Some v => v | None => EmptyString end.

End gomap.

(** [strconv.Itoa] and the verb [%d]: an integer in decimal. *)
Definition itoa (z : Z) : string := NilEmpty.string_of_int (Z.to_int z).

(** ** float64 and package time *)

Definition float64 : Type := spec_float.
Definition prec : Z := 53.
Definition emax : Z := 1024.

(** The conversion [float64(x)] of an integer, rounded to nearest even. *)
Definition float64_of_int (z : Z) : float64 := binary_normalize prec emax z 0 false.
Definition fdiv (x y : float64) : float64 := SFdiv prec emax x y.
Definition fmul (x y : float64) : float64 := SFmul prec emax x y.
Definition fadd (x y : float64) : float64 := SFadd prec emax x y.
(** [x > y]. *)
Definition fgt (x y : float64) : bool := SFltb y x.
(** [x >= y]. *)
Definition fge (x y : float64) : bool := SFleb y x.

Module time.

(** A [time.Duration]: a count of nanoseconds in an [int64]. *)
Definition Duration : Type := Z.
Definition minDuration : Z := - 2 ^ 63.
Definition maxDuration : Z := 2 ^ 63 - 1.
Definition Second : Z := 1000000000.

(** Arithmetic on an [int64] wraps around. *)
Definition wrap64 (z : Z) : Z := (z + 2 ^ 63) mod 2 ^ 64 - 2 ^ 63.

(** A [time.Time]: an instant, in nanoseconds since an epoch. *)
Definition Time : Type := Z.

(** [t.Sub(u)]: the duration [t-u], or the largest (smallest) duration when
    it does not fit. *)
Definition Sub (t u : Time) : Duration :=
  if t - u <? minDuration then minDuration
  else if maxDuration <? t - u then maxDuration
  else t - u.

(** [d.Truncate(m)]: [d] rounded toward zero to a multiple of [m]. *)
Definition Truncate (d m : Duration) : Duration :=
  if m <=? 0 then d else d - Z.rem d m.

(** [d.Seconds()]. *)
Definition Seconds (d : Duration) : float64 :=
  let sec := Z.quot d Second in
  let nsec := Z.rem d Second in
  fadd (float64_of_int sec) (fdiv (float64_of_int nsec) (float64_of_int Second)).

End time.

(** ** Package monitorapi *)
Module monitorapi.

Inductive EventLevel : Type := Info | Warning | Error.

Record Condition : Type := mkCondition {
  Level : EventLevel;
  Locator : string;
  Message : string
}.

Record EventInterval : Type := mkEventInterval {
  Cond : Condition;
  From : time.Time;
  To : time.Time
}.

Definition Intervals : Type := list EventInterval.

(** Modelled from the spec: [Intervals.Duration] is declared in
    [pkg/monitor/monitorapi/types.go], which is not among the sources.  The
    specification has it sum the lengths of the intervals, a length below the
    floor being treated as zero; [ExpectNoDisruption] calls it as
    [events.Duration(0, 1*time.Second)], so the first argument is the value a
    length below the floor is replaced with and the second is the floor. *)
Fixpoint Duration (below floor : time.Duration) (intervals : Intervals)
  : time.Duration :=
  match intervals with
  | [] => 0
  | i :: rest =>
    let d := time.Sub (To i) (From i) in
    time.wrap64 ((if d <? floor then below else d) + Duration below floor rest)
  end.

Section Locators.

Variable isPrintTable : Z -> bool.

(** identification.go, lines 9-11. *)
Definition E2ETestLocator (testName : string) : string :=
  "e2e-test/" ++ strconv.Quote isPrintTable testName.

End Locators.

(** identification.go, lines 18-29.  [parts[1]] panics when [parts] has
    fewer than two elements. *)
Definition E2ETestFromLocator (locator : string) : result (string * bool) :=
  if negb (strings.HasPrefix locator "e2e-test/") then Ok (EmptyString, false)
  else
    let parts := strings.SplitN locator "/" 2 in
    match nth_error parts 1 with
    | None => Panic "index out of range"
    | Some quotedTestName =>
      match strconv.Unquote quotedTestName with
      | None => Ok (EmptyString, false)
      | Some testName => Ok (testName, true)
      end
    end.

(** identification.go, lines 13-16. *)
Definition IsE2ETest (locator : string) : result bool :=
  match E2ETestFromLocator locator with
  | Ok (_, ret) => Ok ret
  | Panic msg => Panic msg
  end.

(** identification.go, lines 31-33; [%v] prints a string as it is. *)
Definition NodeLocator (testName : string) : string := "node/" ++ testName.

(** identification.go, lines 40-46. *)
Definition NodeFromLocator (locator : string) : result (string * bool) :=
  if negb (strings.HasPrefix locator "node/") then Ok (EmptyString, false)
  else
    let parts := strings.SplitN (strings.TrimPrefix locator "node/") " " 2 in
    match nth_error parts 0 with
    | None => Panic "index out of range"
    | Some name => Ok (name, true)
    end.

(** identification.go, lines 35-38. *)
Definition IsNode (locator : string) : result bool :=
  match NodeFromLocator locator with
  | Ok (_, ret) => Ok ret
  | Panic msg => Panic msg
  end.

(** identification.go, lines 48-50. *)
Definition OperatorLocator (testName : string) : string :=
  "clusteroperator/" ++ testName.

(** identification.go, lines 57-63. *)
Definition OperatorFromLocator (locator : string) : result (string * bool) :=
  if negb (strings.HasPrefix locator "clusteroperator/")
  then Ok (EmptyString, false)
  else
    let parts :=
      strings.SplitN (strings.TrimPrefix locator "clusteroperator/") " " 2 in
    match nth_error parts 0 with
    | None => Panic "index out of range"
    | Some name => Ok (name, true)
    end.

(** identification.go, lines 52-55. *)
Definition IsOperator (locator : string) : result bool :=
  match OperatorFromLocator locator with
  | Ok (_, ret) => Ok ret
  | Panic msg => Panic msg
  end.

(** One turn of the loop of identification.go, lines 69-76. *)
Definition addTag (parts : result (gomap.t string)) (tag : string)
  : result (gomap.t string) :=
  match parts with
  | Panic msg => Panic msg
  | Ok parts =>
    match strings.SplitN tag "/" 2 with
    | [] => Panic "index out of range"
    | [key] => Ok (gomap.set parts key EmptyString)
    | key :: value :: _ => Ok (gomap.set parts key value)
    end
  end.

(** identification.go, lines 65-79. *)
Definition LocatorParts (locator : string) : result (gomap.t string) :=
  fold_left addTag (strings.Split locator " ") (Ok gomap.empty).

(** identification.go, lines 81-89. *)
Definition NamespaceFrom (locatorParts : gomap.t string) : string :=
  match gomap.get locatorParts "ns" with
  | Some ns => ns
  | None =>
    match gomap.get locatorParts "namespace" with
    | Some ns => ns
    | None => EmptyString
    end
  end.

(** identification.go, lines 91-93. *)
Definition AlertFrom (locatorParts : gomap.t string) : string :=
  gomap.index locatorParts "alert".

End monitorapi.

(** ** Package junit (k8s.io/kubernetes/test/utils/junit): the report *)
Module junit.

Record Failure : Type := mkFailure {
  Failure_Message : string;
  Failure_Type : string;
  Failure_Value : string
}.

Record Error : Type := mkError {
  Error_Message : string;
  Error_Type : string;
  Error_Value : string
}.

Record TestCase : Type := mkTestCase {
  Name : string;
  Time : float64;
  Classname : string;
  Failures : list Failure;
  Errors : list Error;
  Skipped : string
}.

(** The fields of a [junit.TestSuite] that disruption.go reads or writes.
    [Update()] recomputes the suite's counters of tests, failures and
    errors, which are no fields here. *)
Record TestSuite : Type := mkTestSuite {
  Suite_Name : string;
  Package : string;
  Suite_Time : float64;
  TestCases : list TestCase
}.

End junit.

(** [a[i] = x] for [i < len(a)]. *)
Fixpoint update {A : Type} (l : list A) (i : nat) (x : A) : list A :=
  match l, i with
  | [], _ => []
  | _ :: t, O => x :: t
  | h :: t, S i' => h :: update t i' x
  end.

(** ** Package upgrades (k8s.io/kubernetes/test/e2e/upgrades)

    What disruption.go asks of an [upgrades.Test]: its [Name()], its
    [DisplayName()] when it implements [testWithDisplayName], and what
    [reflect.ValueOf(t).Elem().Type().PkgPath()] gives: the package path of
    the type that the test points to, or the panic of package reflect when
    the test is no pointer to a value. *)
Module upgrades.

Record Test : Type := mkTest {
  Name : string;
  DisplayName : option string;
  PkgPath : result string
}.

End upgrades.

(** ** Package disruption (test/extended/util/disruption/disruption.go) *)
Module disruption.

(** The values of [framework.TestSummary] held in [f.TestSummaries]: the
    three summary types of this package (lines 38-67), and any other
    implementation, by what its [SummaryKind] and [PrintJSON] return. *)
Inductive TestSummary : Type :=
| additionalTest (Name Failure : string) (Duration : time.Duration)
| flakeSummary (s : string)
| additionalEvents (Events : monitorapi.Intervals)
| otherSummary (kind json : string).

(** The field of [framework.Framework] that this package uses. *)
Record Framework : Type := mkFramework {
  TestSummaries : list TestSummary
}.

(** What a run leaves outside the report: the lines written to standard
    error, the lines logged with [framework.Logf], the files written, and
    whether ginkgo has recorded a failure of the current test. *)
Record World : Type := mkWorld {
  stderr : list string;
  logged : list string;
  files : list (string * string);
  ginkgoFailed : bool
}.

Definition Logf (msg : string) (w : World) : World :=
  mkWorld (stderr w) (logged w ++ [msg]) (files w) (ginkgoFailed w).

Definition Fprintf_stderr (msg : string) (w : World) : World :=
  mkWorld (stderr w ++ [msg]) (logged w) (files w) (ginkgoFailed w).

Definition writeFile (path data : string) (w : World) : World :=
  mkWorld (stderr w) (logged w) (files w ++ [(path, data)]) (ginkgoFailed w).

Definition markFailed (w : World) : World :=
  mkWorld (stderr w) (logged w) (files w) true.

(** A value recovered from a panic: ginkgowrapper's [FailurePanic],
    e2eskipper's [SkipPanic] (both with the fields [Message], [Filename],
    [Line] and [FullStackTrace]) or any other value [v]. *)
Inductive PanicValue : Type :=
| FailurePanic (Message Filename : string) (Line : Z) (FullStackTrace : string)
| SkipPanic (Message Filename : string) (Line : Z) (FullStackTrace : string)
| OtherPanic (v : string).

(** *** filesystemSafeName (lines 265-273) *)

(** The class [[a-zA-Z1-9_]] of [reFilesystemSafe]. *)
Definition inSafeClass (r : Z) : bool :=
  ((97 <=? r) && (r <=? 122)) || ((65 <=? r) && (r <=? 90))
  || ((49 <=? r) && (r <=? 57)) || (r =? 95).

Definition underscore : ascii := "_"%char.

(** [reFilesystemSafe.ReplaceAllString(s, "_")]: the regexp steps through
    [s] rune by rune (an ill-formed byte is read as [RuneError], one byte
    wide); each rune outside the class is a match and becomes one
    underscore, the other runes are copied. *)
Fixpoint replaceUnsafe (fuel : nat) (s : string) : string :=
  match s with
  | EmptyString => EmptyString
  | String c _ =>
    match fuel with
    | O => EmptyString
    | S fuel' =>
      let '(r, width) :=
        if byteZ c <? utf8.RuneSelf then (byteZ c, 1%nat)
        else utf8.DecodeRuneInString s in
      if inSafeClass r then take width s ++ replaceUnsafe fuel' (drop width s)
      else String underscore (replaceUnsafe fuel' (drop width s))
    end
  end.

(** [reFilesystemDuplicate.ReplaceAllString(s, "_")]: each maximal run of
    underscores is a match of [_+] and becomes one underscore. *)
Fixpoint skipUnderscores (s : string) : string :=
  match s with
  | EmptyString => EmptyString
  | String c s' => if Ascii.eqb c underscore then skipUnderscores s' else s
  end.

Fixpoint replaceDuplicate (fuel : nat) (s : string) : string :=
  match s with
  | EmptyString => EmptyString
  | String c s' =>
    match fuel with
    | O => EmptyString
    | S fuel' =>
      if Ascii.eqb c underscore
      then String underscore (replaceDuplicate fuel' (skipUnderscores s'))
      else String c (replaceDuplicate fuel' s')
    end
  end.

Definition filesystemSafeName (s : string) : string :=
  let s1 := replaceUnsafe (String.length s) s in
  replaceDuplicate (String.length s1) s1.

(** *** Summaries (lines 44-67, 328-350) *)

Section Harness.

(** [%q] needs the printability tables of strconv. *)
Variable isPrintTable : Z -> bool.
(** [framework.TestContext.ReportDir]. *)
Variable ReportDir : string.
(** The file system: the error, if any, that creating or writing the file
    at a path meets. *)
Variable fsError : string -> option string.
(** [filepath.Join] of two elements. *)
Variable filepath_Join : string -> string -> string.
(** [t.Format(time.RFC3339)]. *)
Variable formatRFC3339 : time.Time -> string.
(** [t.Unix()]. *)
Variable Unix : time.Time -> Z.
(** What the verb [%v] prints for a recovered value. *)
Variable fmt_v : PanicValue -> string.
(** [monitorserialization.EventsIntervalsToJSON]. *)
Variable EventsIntervalsToJSON : monitorapi.Intervals -> string.
(** What [xml.NewEncoder(f).Encode] writes for a suite. *)
Variable xmlEncode : junit.TestSuite -> string.
(** [d.String()] of a [time.Duration] and the verb [%0.0f]. *)
Variable fmt_Duration : time.Duration -> string.
Variable fmt_f0 : float64 -> string.
(** [Intervals.Strings()] of monitorapi prints one line per interval;
    [EventInterval.String()] is not among the sources. *)
Variable EventInterval_String : monitorapi.EventInterval -> string.
(** [Intervals.Duration]: see [monitorapi.Duration]. *)
Variable Intervals_Duration :
  time.Duration -> time.Duration -> monitorapi.Intervals -> time.Duration.

Definition SummaryKind (s : TestSummary) : string :=
  match s with
  | additionalTest _ _ _ => "AdditionalTest"
  | flakeSummary _ => "Flake"
  | additionalEvents _ => "AdditionalEvents"
  | otherSummary kind _ => kind
  end.

(** [PrintJSON] of the summaries that [finalizeTest] writes to disk; an
    [additionalTest] never reaches the call. *)
Definition PrintJSON (s : TestSummary) : string :=
  let q := String dquote EmptyString in
  match s with
  | additionalTest _ _ _ => EmptyString
  | flakeSummary _ => "{" ++ q ++ "type" ++ q ++ ":" ++ q ++ "Flake" ++ q ++ "}"
  | additionalEvents events => EventsIntervalsToJSON events
  | otherSummary _ json => json
  end.

(** Lines 341-350. *)
Fixpoint hasFrameworkFlake (summaries : list TestSummary) : string * bool :=
  match summaries with
  | [] => (EmptyString, false)
  | flakeSummary s :: _ => (s, true)
  | _ :: rest => hasFrameworkFlake rest
  end.

(** Lines 335-337. *)
Definition FrameworkEventIntervals (f : Framework) (events : monitorapi.Intervals)
  : Framework :=
  mkFramework (TestSummaries f ++ [additionalEvents events]).

(** Lines 329-332; [msg] is the formatted message. *)
Definition FrameworkFlakef (f : Framework) (msg : string) (w : World)
  : Framework * World :=
  (mkFramework (TestSummaries f ++ [flakeSummary msg]), Logf msg w).

(** *** ExpectNoDisruption (lines 314-326) *)

Definition Strings (events : monitorapi.Intervals) : list string :=
  map EventInterval_String events.

Definition hundred : float64 := float64_of_int 100.

(** The message of line 319. *)
Definition failMessage (reason : string) (duration total : time.Duration)
  (percent tolerate : float64) (describe : list string) : string :=
  reason ++ " for at least " ++ fmt_Duration (time.Truncate duration time.Second)
  ++ " of " ++ fmt_Duration (time.Truncate total time.Second)
  ++ " (" ++ fmt_f0 (fmul percent hundred) ++ "%, but only "
  ++ fmt_f0 (fmul tolerate hundred) ++ "% is tolerated):" ++ String "010" (String "010"
  (strings.Join describe (String "010" EmptyString))).

(** The message of lines 321-324. *)
Definition flakeMessage (reason : string) (duration total : time.Duration)
  (percent tolerate : float64) (describe : list string) : string :=
  reason ++ " for at least " ++ fmt_Duration (time.Truncate duration time.Second)
  ++ " of " ++ fmt_Duration (time.Truncate total time.Second)
  ++ " (" ++ fmt_f0 (fmul percent hundred)
  ++ "%), this is currently sufficient to pass the test/job but not considered completely correct."
  ++ String "010" ("Tolerating up to " ++ fmt_f0 (fmul tolerate hundred)
  ++ "% disruption:" ++ String "010" (String "010"
  (strings.Join describe (String "010" EmptyString)))).

(** How a call of [ExpectNoDisruption] ends: it returns, or
    [framework.Failf] fails the test with a message. *)
Inductive Verdict : Type :=
| Returns
| Failf (msg : string).

(** [ExpectNoDisruption(f, tolerate, total, events, reason)]: the framework
    and the world afterwards, and how the call ends.  What [framework.Failf]
    does with its message (it logs it and fails the test through ginkgo) is
    the verdict [Failf]. *)
Definition ExpectNoDisruption (f : Framework) (tolerate : float64)
  (total : time.Duration) (events : monitorapi.Intervals) (reason : string)
  (w : World) : Framework * World * Verdict :=
  let f1 := FrameworkEventIntervals f events in
  let duration := Intervals_Duration 0 (1 * time.Second) events in
  let describe := Strings events in
  let percent := fdiv (float64_of_int duration) (float64_of_int total) in
  if fgt percent tolerate then
    (f1, w, Failf (failMessage reason duration total percent tolerate describe))
  else if 0 <? duration then
    let '(f2, w2) :=
      FrameworkFlakef f1
        (flakeMessage reason duration total percent tolerate describe) w in
    (f2, w2, Returns)
  else (f1, w, Returns).

(** *** finalizeTest (lines 193-263) *)

(** The test case of lines 201-210 for an [additionalTest]. *)
Definition additionalTestCase (name failure : string) (d : time.Duration)
  : junit.TestCase :=
  junit.mkTestCase name (time.Seconds d) EmptyString
    (if (0 <? String.length failure)%nat
     then [junit.mkFailure failure EmptyString failure] else [])
    [] EmptyString.

(** The path of line 215. *)
Definition summaryPath (summary : TestSummary) (tcName : string) (now : time.Time)
  : string :=
  filepath_Join ReportDir
    (SummaryKind summary ++ "_" ++ filesystemSafeName tcName ++ "_"
       ++ formatRFC3339 now ++ ".json").

(** The line of line 217. *)
Definition writeFailed (filePath err : string) : string :=
  "error: Failed to write file " ++ filePath ++ " with test data: " ++ err
  ++ String "010" EmptyString.

(** The loop of lines 199-219 over [f.TestSummaries]: [cases] is
    [ts.TestCases]. *)
Fixpoint writeSummaries (now : time.Time) (tcName : string)
  (summaries : list TestSummary) (cases : list junit.TestCase) (w : World)
  : list junit.TestCase * World :=
  match summaries with
  | [] => (cases, w)
  | additionalTest name failure d :: rest =>
    writeSummaries now tcName rest (cases ++ [additionalTestCase name failure d]) w
  | summary :: rest =>
    let filePath := summaryPath summary tcName now in
    match fsError filePath with
    | Some err =>
      writeSummaries now tcName rest cases (Fprintf_stderr (writeFailed filePath err) w)
    | None =>
      writeSummaries now tcName rest cases (writeFile filePath (PrintJSON summary) w)
    end
  end.

Definition setTime (tc : junit.TestCase) (t : float64) : junit.TestCase :=
  junit.mkTestCase (junit.Name tc) t (junit.Classname tc) (junit.Failures tc)
    (junit.Errors tc) (junit.Skipped tc).

Definition setFailures (tc : junit.TestCase) (fs : list junit.Failure)
  : junit.TestCase :=
  junit.mkTestCase (junit.Name tc) (junit.Time tc) (junit.Classname tc) fs
    (junit.Errors tc) (junit.Skipped tc).

Definition setErrors (tc : junit.TestCase) (es : list junit.Error)
  : junit.TestCase :=
  junit.mkTestCase (junit.Name tc) (junit.Time tc) (junit.Classname tc)
    (junit.Failures tc) es (junit.Skipped tc).

Definition setSkipped (tc : junit.TestCase) (s : string) : junit.TestCase :=
  junit.mkTestCase (junit.Name tc) (junit.Time tc) (junit.Classname tc)
    (junit.Failures tc) (junit.Errors tc) s.

Definition twoNewlines : string := String "010" (String "010" EmptyString).

(** The [switch] of lines 235-254 on the recovered value. *)
Definition recordPanic (tc : junit.TestCase) (r : PanicValue) (stack : string)
  : junit.TestCase :=
  match r with
  | FailurePanic message _ _ fullStackTrace =>
    setFailures tc
      [junit.mkFailure message "Failure" (message ++ twoNewlines ++ fullStackTrace)]
  | SkipPanic message filename line _ =>
    setSkipped tc
      (filename ++ ":" ++ itoa line ++ " " ++ strconv.Quote isPrintTable message)
  | OtherPanic _ =>
    setErrors tc
      [junit.mkError (fmt_v r) "Panic" (fmt_v r ++ twoNewlines ++ stack)]
  end.

(** [finalizeTest(start, tc, ts, f)], run as a deferred call: [now] is what
    [time.Now().UTC()] returns, [r] what [recover()] returns ([None] for
    [nil]), [stack] what [debug.Stack()] returns, [tc] the test case the
    pointer designates and [cases] the slice [ts.TestCases].  The result is
    the test case and the slice afterwards.  Reading [f.TestSummaries]
    through a nil [f] (line 199) is a run-time panic. *)
Definition finalizeTest (start now : time.Time) (tc : junit.TestCase)
  (cases : list junit.TestCase) (f : option Framework) (r : option PanicValue)
  (stack : string) (w : World)
  : result (junit.TestCase * list junit.TestCase * World) :=
  let tc1 := setTime tc (time.Seconds (time.Sub now start)) in
  match f with
  | None => Panic "invalid memory address or nil pointer dereference"
  | Some fw =>
    let '(cases1, w1) :=
      writeSummaries now (junit.Name tc1) (TestSummaries fw) cases w in
    match r with
    | None =>
      let '(message, ok) := hasFrameworkFlake (TestSummaries fw) in
      if ok then
        Ok (setFailures tc1
              (junit.Failures tc1 ++ [junit.mkFailure message "Flake" message]),
            cases1, w1)
      else Ok (tc1, cases1, w1)
    | Some r =>
      let w2 := Logf ("recover: " ++ fmt_v r) w1 in
      let tc2 := recordPanic tc1 r stack in
      if negb (ginkgoFailed w2) then
        Ok (tc2, cases1,
            markFailed
              (Logf (strconv.Quote isPrintTable (junit.Name tc2) ++ ": panic: "
                       ++ fmt_v r) w2))
      else Ok (tc2, cases1, w2)
    end
  end.

(** *** The deferred function of runChaosmonkey (lines 125-158) *)

(** The loop of lines 133-139 over the failures of one test case: the
    failures afterwards and [allFlakes]. *)
Fixpoint retypeFailures (failures : list junit.Failure) (allFlakes : bool)
  : list junit.Failure * bool :=
  match failures with
  | [] => ([], allFlakes)
  | failure :: rest =>
    if String.eqb (junit.Failure_Type failure) "Flake" then
      let '(rest', a) := retypeFailures rest allFlakes in
      (junit.mkFailure (junit.Failure_Message failure) "Failure"
         (junit.Failure_Value failure) :: rest', a)
    else
      let '(rest', a) := retypeFailures rest false in
      (failure :: rest', a)
  end.

(** One turn of the loop of lines 131-147, for the test case at position
    [i] of [testSuite.TestCases]: its failures are rewritten in place, and a
    test case is appended when all of them were flakes.  The test cases of a
    suite are objects of their own, each with failures of its own: [Run],
    [runChaosmonkey] and [finalizeTest] allocate every test case and every
    failure that they add, so a list of values stands for the slice of
    pointers. *)
Definition flakeStep (cases : list junit.TestCase) (i : nat)
  : list junit.TestCase :=
  match nth_error cases i with
  | None => cases
  | Some testCase =>
    let allFlakes :=
      (0 <? List.length (junit.Failures testCase))%nat
      && (List.length (junit.Errors testCase) =? 0)%nat
      && (String.length (junit.Skipped testCase) =? 0)%nat in
    let '(failures, allFlakes) :=
      retypeFailures (junit.Failures testCase) allFlakes in
    let cases1 := update cases i (setFailures testCase failures) in
    if allFlakes then
      cases1 ++ [junit.mkTestCase (junit.Name testCase) (junit.Time testCase)
                   (junit.Classname testCase) [] [] EmptyString]
    else cases1
  end.

(** The loop of lines 131-147: [range] fixes the positions it visits when
    the loop starts, so the test cases appended meanwhile are not visited. *)
Definition flakeLoop (cases : list junit.TestCase) : list junit.TestCase :=
  fold_left flakeStep (seq 0 (List.length cases)) cases.

(** The name of line 150. *)
Definition junitPath (package : string) (now : time.Time) : string :=
  filepath_Join ReportDir ("junit_" ++ package ++ "_" ++ itoa (Unix now) ++ ".xml").

(** The deferred function: [start] is the time of line 124, [t1] and [t2]
    what [time.Since] and [time.Now] read off the clock. *)
Definition finishSuite (start t1 t2 : time.Time) (testSuite : junit.TestSuite)
  (w : World) : junit.TestSuite * World :=
  let ts :=
    junit.mkTestSuite (junit.Suite_Name testSuite) (junit.Package testSuite)
      (time.Seconds (time.Sub t1 start)) (flakeLoop (junit.TestCases testSuite)) in
  if negb (String.eqb ReportDir EmptyString) then
    let fname := junitPath (junit.Package ts) t2 in
    match fsError fname with
    | Some _ => (ts, w)
    | None => (ts, writeFile fname (xmlEncode ts) w)
    end
  else (ts, w).

End Harness.

(** *** RecordJUnit and RecordJUnitResult (lines 356-383) *)

(** [RecordJUnit(f, name, fn)]: [fn] may use the framework and returns nil
    ([None]) or an error, given by what its [Error()] returns; [start] and
    [finish] are what the two calls of [time.Now] return.  The result is the
    framework afterwards and the error returned. *)
Definition RecordJUnit (f : Framework) (name : string)
  (fn : Framework -> Framework * option string) (start finish : time.Time)
  : Framework * option string :=
  let '(f1, err) := fn f in
  let duration := time.Sub finish start in
  let failure := match err with Some e => e | None => EmptyString end in
  (mkFramework (TestSummaries f1 ++ [additionalTest name failure duration]), err).

Definition RecordJUnitResult (f : Framework) (name : string)
  (duration : time.Duration) (failure : string) : Framework :=
  mkFramework (TestSummaries f ++ [additionalTest name failure duration]).

(** *** createTestFrameworks (lines 288-309) *)

(** The runes that [nsFilter], the regexp [[^[:word:]-]+], does not match:
    the word characters [[0-9A-Za-z_]] and the hyphen. *)
Definition inNamespaceClass (r : Z) : bool :=
  ((48 <=? r) && (r <=? 57)) || ((65 <=? r) && (r <=? 90))
  || ((97 <=? r) && (r <=? 122)) || (r =? 95) || (r =? 45).

Definition hyphen : ascii := "-"%char.

(** [nsFilter.ReplaceAllString(s, "-")]: the regexp steps through [s] rune
    by rune; each maximal run of runes outside the class is one match and
    becomes one hyphen.  [inRun] tells that the rune before was outside the
    class, so that the hyphen of the run is already written. *)
Fixpoint replaceOutside (fuel : nat) (inRun : bool) (s : string) : string :=
  match s with
  | EmptyString => EmptyString
  | String c _ =>
    match fuel with
    | O => EmptyString
    | S fuel' =>
      let '(r, width) :=
        if byteZ c <? utf8.RuneSelf then (byteZ c, 1%nat)
        else utf8.DecodeRuneInString s in
      if inNamespaceClass r
      then take width s ++ replaceOutside fuel' false (drop width s)
      else if inRun then replaceOutside fuel' true (drop width s)
      else String hyphen (replaceOutside fuel' true (drop width s))
    end
  end.

(** Lines 292-293: the namespace name made of a test name. *)
Definition namespaceName (name : string) : string :=
  strings.TrimByte (replaceOutside (String.length name) false name) hyphen.

(** The fields that line 298 sets to values of its own in a new
    [framework.Framework]; [ClientQPS] and [ClientBurst] are the constants
    20 and 50. *)
Record NewFramework : Type := mkNewFramework {
  BaseName : string;
  ClientQPS : Z;
  ClientBurst : Z
}.

(** What runChaosmonkey registers with the chaos monkey for a test (lines
    112-118): [testReport] points to the test case, given by its position in
    [testSuite.TestCases]. *)
Record chaosMonkeyAdapter : Type := mkAdapter {
  framework : NewFramework;
  test : upgrades.Test;
  testReport : nat
}.

Section Registration.

Variable isPrintTable : Z -> bool.
(** [isGoModulePath] (lines 283-285), a regexp match. *)
Variable isGoModulePath : string -> string -> string -> bool.

(** The framework of lines 292-306 for a test of the name [name] whose
    type is of the package [pkgPath]. *)
Definition frameworkFor (name pkgPath : string) : NewFramework :=
  let ns := namespaceName name in
  let ns :=
    if isGoModulePath pkgPath "k8s.io/kubernetes" "test/e2e"
    then "e2e-k8s-" ++ ns else ns in
  mkNewFramework ns 20 50.

Fixpoint createLoop (tests : list upgrades.Test) (testFrameworks : gomap.t NewFramework)
  : result (gomap.t NewFramework) :=
  match tests with
  | [] => Ok testFrameworks
  | t :: rest =>
    match upgrades.PkgPath t with
    | Panic msg => Panic msg
    | Ok pkgPath =>
      createLoop rest
        (gomap.set testFrameworks (upgrades.Name t)
           (frameworkFor (upgrades.Name t) pkgPath))
    end
  end.

Definition createTestFrameworks (tests : list upgrades.Test)
  : result (gomap.t NewFramework) :=
  createLoop tests gomap.empty.

(** The test case of lines 104-107. *)
Definition reportFor (t : upgrades.Test) : junit.TestCase :=
  let displayName :=
    match upgrades.DisplayName t with
    | Some dn => dn
    | None => upgrades.Name t
    end in
  junit.mkTestCase displayName (S754_zero false) "disruption_tests" [] []
    EmptyString.

(** The loop of lines 99-122 of runChaosmonkey: [cases] is
    [testSuite.TestCases], [registered] what has been registered with the
    chaos monkey. *)
Fixpoint registerLoop (testFrameworks : gomap.t NewFramework)
  (tests : list upgrades.Test) (cases : list junit.TestCase)
  (registered : list chaosMonkeyAdapter)
  : result (list junit.TestCase * list chaosMonkeyAdapter) :=
  match tests with
  | [] => Ok (cases, registered)
  | t :: rest =>
    let cases1 := (cases ++ [reportFor t])%list in
    match gomap.get testFrameworks (upgrades.Name t) with
    | None =>
      Panic ("can't find test framework for "
               ++ strconv.Quote isPrintTable (upgrades.Name t))
    | Some f =>
      registerLoop testFrameworks rest cases1
        (registered ++ [mkAdapter f t (List.length cases)])%list
    end
  end.

(** Lines 98-122 of runChaosmonkey. *)
Definition register (tests : list upgrades.Test) (cases : list junit.TestCase)
  : result (list junit.TestCase * list chaosMonkeyAdapter) :=
  match createTestFrameworks tests with
  | Panic msg => Panic msg
  | Ok testFrameworks => registerLoop testFrameworks tests cases []
  end.

End Registration.

(** *** chaosMonkeyAdapter.Test (lines 171-191) and Run (lines 79-90) *)

(** What the body of the method does before its deferred calls run.  It
    skips the test (lines 182-186); or it goes on to [BeforeEach], [Setup],
    [Test] and the deferred [Teardown], code of the framework and of the
    test, which leave the framework and the world and, when one of them
    panics, the value that [recover] then returns in [finalizeTest]. *)
Inductive TestBody : Type :=
| Skips
| Runs (f : Framework) (w : World) (r : option PanicValue).

Section Adapter.

Variable isPrintTable : Z -> bool.
Variable ReportDir : string.
Variable fsError : string -> option string.
Variable filepath_Join : string -> string -> string.
Variable formatRFC3339 : time.Time -> string.
Variable fmt_v : PanicValue -> string.
Variable EventsIntervalsToJSON : monitorapi.Intervals -> string.

(** [cma.Test(sem)]: [testReport] is the test case that [cma.testReport]
    points to, [cases] the test cases of [cma.testSuiteReport], [f] the
    framework [cma.framework] and [name] what [cma.test.Name()] returns;
    [start], [now] and [stack] are as for [finalizeTest], the deferred call
    that ends the method.  [g.By] prints its step to ginkgo's writer, which
    is none of the parts of the world. *)
Definition adapterTest (start now : time.Time) (testReport : junit.TestCase)
  (cases : list junit.TestCase) (f : Framework) (name : string)
  (body : TestBody) (stack : string) (w : World)
  : result (junit.TestCase * list junit.TestCase * World) :=
  match body with
  | Skips =>
    finalizeTest isPrintTable ReportDir fsError filepath_Join formatRFC3339
      fmt_v EventsIntervalsToJSON start now
      (setSkipped testReport ("skipping test " ++ name)) cases (Some f) None
      stack w
  | Runs f1 w1 r =>
    finalizeTest isPrintTable ReportDir fsError filepath_Join formatRFC3339
      fmt_v EventsIntervalsToJSON start now testReport cases (Some f1) r
      stack w1
  end.

(** The test case that [Run] makes for the test (line 81). *)
Definition runCase (testname : string) : junit.TestCase :=
  junit.mkTestCase testname (S754_zero false) testname [] [] EmptyString.

(** The function that [Run] hands to the chaos monkey (lines 83-88), from
    the return of [fn] on: [f] and [w] are the framework and the world that
    [fn] leaves, [r] the value it panics with, if any.  The deferred calls
    run in the reverse of their order: [g.GinkgoRecover()] first, which
    recovers the panic and has ginkgo record the failure, then
    [finalizeTest], in which [recover()] has nothing left to return. *)
Definition runDisruption (start now : time.Time) (test : junit.TestCase)
  (cases : list junit.TestCase) (f : option Framework)
  (r : option PanicValue) (stack : string) (w : World)
  : result (junit.TestCase * list junit.TestCase * World) :=
  let w1 := match r with Some _ => markFailed w | None => w end in
  finalizeTest isPrintTable ReportDir fsError filepath_Join formatRFC3339
    fmt_v EventsIntervalsToJSON start now test cases f None stack w1.

End Adapter.

End disruption.

(** ** Package service (test/e2e/upgrade/service/service.go) *)
Module service.

(** The connection types of package monitor. *)
Inductive BackendConnectionType : Type :=
| NewConnectionType
| ReusedConnectionType.

(** What [ioutil.ReadAll(resp.Body)] returns. *)
Inductive ReadResult : Type :=
| ReadOk (body : string)
| ReadError (err : string).

(** What [client.Get(url)] returns: an error, or a response whose body is
    then read. *)
Inductive GetResult : Type :=
| GetError (err : string)
| GetResponse (read : ReadResult).

(** What a probe does besides returning: a line logged with
    [framework.Logf], an event recorded with [r.Eventf]. *)
Inductive Effect : Type :=
| LogLine (msg : string)
| WarningEvent (reason action note : string).

(** [strings.Contains], as [bytes.Contains] on the bytes of the body. *)
Definition Contains (s substr : string) : bool :=
  match strings.Index s substr with Some _ => true | None => false end.

Section Probe.

Variable isPrintTable : Z -> bool.
(** Package monitor is not among the sources: its locator and its messages
    are parameters. *)
Variable LocateDisruptionCheck : string -> BackendConnectionType -> string.
Variable DisruptionBeganMessage :
  string -> BackendConnectionType -> string -> string.
Variable DisruptionEndedMessage : string -> BackendConnectionType -> string.
(** [svc.Name]. *)
Variable svcName : string.

Definition connections (ct : BackendConnectionType) : string :=
  match ct with
  | ReusedConnectionType => "reused connections"
  | NewConnectionType => "new connections"
  end.

(** The [err] that lines 202-205 (250-253) declare inside the block of
    [if err == nil]: [body, err := ioutil.ReadAll(resp.Body)] is a short
    variable declaration in a new scope, so this is another variable than the
    [err] of line 199 (247), and it goes out of scope with the block. *)
Definition blockErr (get : GetResult) : option string :=
  match get with
  | GetError _ => None
  | GetResponse (ReadError e) => Some e
  | GetResponse (ReadOk body) =>
    if negb (Contains body "Hello") then
      Some ("service returned success but did not contain the correct body contents: "
              ++ strconv.Quote isPrintTable body)
    else None
  end.

(** The function handed to [monitor.NewSampler] at lines 198-226 (for
    [ReusedConnectionType]) and 246-274 (for [NewConnectionType]):
    [(condition, next)] and what it logs and records.  The [switch] reads
    the [err] of the request; the [err] of the block is computed and
    dropped. *)
Definition sampleFn (ct : BackendConnectionType) (previous : bool)
  (get : GetResult) : option monitorapi.Condition * bool * list Effect :=
  let locator := LocateDisruptionCheck "service-loadbalancer-with-pdb" ct in
  let err := match get with GetError e => Some e | GetResponse _ => None end in
  let _ := blockErr get in
  let unreachable (e : string) :=
    LogLine ("Service " ++ svcName ++ " is unreachable on " ++ connections ct
               ++ ": " ++ e) in
  match err, previous with
  | None, false =>
    (Some (monitorapi.mkCondition monitorapi.Info locator
             (DisruptionEndedMessage locator ct)), true, [])
  | Some e, true =>
    (Some (monitorapi.mkCondition monitorapi.Error locator
             (DisruptionBeganMessage locator ct e)), false,
     [unreachable e;
      WarningEvent "Unreachable" "detected" ("on " ++ connections ct)])
  | Some e, false => (None, false, [unreachable e])
  | None, true => (None, true, [])
  end.

End Probe.

(** Lines 40-43. *)
Definition Name : string := "k8s-service-lb-available".

Definition DisplayName : string :=
  "[sig-network-edge] Application behind service load balancer with PDB is not disrupted".

(** Lines 283-285, of the namespace and the name of the service. *)
Definition locateService (namespace name : string) : string :=
  "ns/" ++ namespace ++ " svc/" ++ name.

(** The condition of lines 291-303, polled by [wait.PollImmediate]:
    [success] tells whether [PokeHTTP] came back with [HTTPSuccess]; the
    result is what the condition returns and the counter afterwards.  The
    counter is an [int], of 64 bits. *)
Definition pollCondition (successCount consecutiveSuccessCnt : Z) (success : bool)
  : bool * Z :=
  if success then
    let cnt := time.wrap64 (consecutiveSuccessCnt + 1) in
    (cnt >=? successCount, cnt)
  else (false, 0).

(** [wait.PollImmediate(framework.Poll, timeout, condition)] calls the
    condition at once and then once per interval, until the condition
    returns true or the wait times out.  [pokes] are the outcomes of the
    requests that the wait would make before it gives up; the result is the
    number of requests made when the condition returned true, [None] when
    the wait timed out. *)
Fixpoint pollLoop (successCount consecutiveSuccessCnt : Z) (pokes : list bool)
  : option nat :=
  match pokes with
  | [] => None
  | success :: rest =>
    let '(done, cnt) := pollCondition successCount consecutiveSuccessCnt success in
    if done then Some 1%nat
    else option_map S (pollLoop successCount cnt rest)
  end.

(** Lines 289-305: [Some k] when the function returns, after [k] requests;
    [None] when [framework.ExpectNoError] fails the test with the timeout. *)
Definition TestReachableHTTPWithMinSuccessCount (successCount : Z)
  (pokes : list bool) : option nat :=
  pollLoop successCount 0 pokes.

End service.

(** ** Package baremetal (the helpers of the bare metal tests) *)
Module baremetal.

(** A value held in an [interface{}] of an unstructured object: a string,
    or a value of another type. *)
Inductive Value : Type :=
| VString (s : string)
| VOther.

(** An element of the slice of conditions: a [map[string]interface{}], or a
    value of another type. *)
Inductive Element : Type :=
| EMap (m : gomap.t Value)
| EOther.

(** What [unstructured.NestedSlice(hfs.Object, "status", "conditions")]
    returns: an error, the slice found, or nil when no such field is
    found. *)
Inductive NestedSliceResult : Type :=
| SliceError (err : string)
| SliceFound (conditions : list Element)
| SliceMissing.

(** [t == s] for [t] an [interface{}] and [s] a string, and gomega's
    [Equal(s)], which is [reflect.DeepEqual]: the value is a string, the
    same as [s]. *)
Definition isString (v : Value) (s : string) : bool :=
  match v with
  | VString s' => String.eqb s' s
  | VOther => false
  end.

(** The body of the loop of [checkConditionStatus]: whether its
    expectations hold. *)
Definition checkCondition (condType condStatus : string) (c : Element) : bool :=
  match c with
  | EOther => false
  | EMap condition =>
    match gomap.get condition "type" with
    | None => false
    | Some t =>
      if isString t condType then
        match gomap.get condition "status" with
        | None => false
        | Some s => isString s condStatus
        end
      else true
    end
  end.

(** The loop: a gomega expectation that does not hold fails the test and
    ends the function. *)
Fixpoint checkConditions (condType condStatus : string) (conditions : list Element)
  : bool :=
  match conditions with
  | [] => true
  | c :: rest =>
    if checkCondition condType condStatus c
    then checkConditions condType condStatus rest
    else false
  end.

(** [checkConditionStatus(hfs, condType, condStatus)]: [true] when the
    function returns, [false] when one of its expectations fails the
    test. *)
Definition checkConditionStatus (nested : NestedSliceResult)
  (condType condStatus : string) : bool :=
  match nested with
  | SliceError _ => false
  | SliceMissing => false
  | SliceFound [] => false
  | SliceFound conditions => checkConditions condType condStatus conditions
  end.

End baremetal.

(** * The vocabulary of the properties *)

(** ** The report *)

(** What the specification says of a failure: one typed "Flake" is retyped
    "Failure", any other is left as it is. *)
Definition retypeFlake (f : junit.Failure) : junit.Failure :=
  if String.eqb (junit.Failure_Type f) "Flake"
  then junit.mkFailure (junit.Failure_Message f) "Failure" (junit.Failure_Value f)
  else f.

Definition isFlake (f : junit.Failure) : bool :=
  String.eqb (junit.Failure_Type f) "Flake".

(** The original entry, with its failures retyped. *)
Definition retypedEntry (tc : junit.TestCase) : junit.TestCase :=
  disruption.setFailures tc (map retypeFlake (junit.Failures tc)).

(** The synthetic passing entry. *)
Definition passingEntry (tc : junit.TestCase) : junit.TestCase :=
  junit.mkTestCase (junit.Name tc) (junit.Time tc) (junit.Classname tc)
    [] [] EmptyString.

(** A test case that failed, and only by flakes. *)
Definition onlyFlakes (tc : junit.TestCase) : bool :=
  match junit.Failures tc, junit.Errors tc, junit.Skipped tc with
  | _ :: _, [], EmptyString => forallb isFlake (junit.Failures tc)
  | _, _, _ => false
  end.

(** A summary that [finalizeTest] writes to disk. *)
Definition writtenToDisk (summary : disruption.TestSummary) : bool :=
  match summary with
  | disruption.additionalTest _ _ _ => false
  | _ => true
  end.

(** What [finalizeTest] reports: the test case and the suite's test cases
    afterwards. *)
Definition reported
  (res : result (junit.TestCase * list junit.TestCase * disruption.World))
  : option (junit.TestCase * list junit.TestCase) :=
  match res with
  | Ok (tc, cases, _) => Some (tc, cases)
  | Panic _ => None
  end.

(** ** Messages, fractions and examples *)

(** [msg] lists [part]: it holds it as a substring. *)
Definition lists (msg part : string) : Prop :=
  exists pre post, msg = (pre ++ part ++ post)%string.

(** [x <= y] on [float64]. *)
Definition fle (x y : float64) : bool := SFleb x y.

(** The summed duration [D] and the fraction [D/total] that the call
    computes. *)
Definition summed
  (Intervals_Duration :
     time.Duration -> time.Duration -> monitorapi.Intervals -> time.Duration)
  (events : monitorapi.Intervals) : time.Duration :=
  Intervals_Duration 0 (1 * time.Second) events.

Definition fraction
  (Intervals_Duration :
     time.Duration -> time.Duration -> monitorapi.Intervals -> time.Duration)
  (total : time.Duration) (events : monitorapi.Intervals)
  : float64 :=
  fdiv (float64_of_int (summed Intervals_Duration events))
    (float64_of_int total).

(** The example of the specification: three intervals of 0.5s, 0.9s and
    0.3s in a window of 60s, nothing tolerated. *)
Definition blip (from to : time.Time) : monitorapi.EventInterval :=
  monitorapi.mkEventInterval
    (monitorapi.mkCondition monitorapi.Error "disruption/service-loadbalancer-with-pdb"
       "stopped responding")
    from to.

Definition threeBlips : monitorapi.Intervals :=
  [blip 1000000000 1500000000; blip 7000000000 7900000000;
   blip 20000000000 20300000000].

Definition quietWorld : disruption.World := disruption.mkWorld [] [] [] false.

Definition joinPath (dir name : string) : string := dir ++ "/" ++ name.

Definition unixSeconds (t : time.Time) : Z := t / time.Second.

(** A file system on which nothing can be written. *)
Definition readOnly (path : string) : option string := Some "permission denied".

Definition upgradeSuite : junit.TestSuite :=
  junit.mkTestSuite "Cluster upgrade" "upgrade" (float64_of_int 0)
    [junit.mkTestCase "upgrade" (float64_of_int 0) "upgrade" [] [] EmptyString].

(** ** The probes of the service *)

(** A probe fails: its request returns an error, or the body of the
    response cannot be read, or the body does not hold "Hello".  These are
    the three errors that lines 199-205 (247-253) build. *)
Definition probeFailed (get : service.GetResult) : bool :=
  match get with
  | service.GetError _ => true
  | service.GetResponse (service.ReadError _) => true
  | service.GetResponse (service.ReadOk body) =>
    negb (service.Contains body "Hello")
  end.

(** ** Safe names *)

(** The bytes that the specification allows in a name: A-Z, a-z, 1-9 and
    the underscore. *)
Definition safeChar (c : ascii) : bool :=
  let b := byteZ c in
  ((65 <=? b) && (b <=? 90)) || ((97 <=? b) && (b <=? 122))
  || ((49 <=? b) && (b <=? 57)) || (b =? 95).

Fixpoint allSafe (s : string) : bool :=
  match s with
  | EmptyString => true
  | String c s' => safeChar c && allSafe s'
  end.

Definition startsWithUnderscore (s : string) : bool :=
  match s with
  | String c _ => Ascii.eqb c disruption.underscore
  | EmptyString => false
  end.

(** No underscore is followed by an underscore. *)
Fixpoint noDoubleUnderscore (s : string) : bool :=
  match s with
  | EmptyString => true
  | String c s' =>
    negb (Ascii.eqb c disruption.underscore && startsWithUnderscore s')
    && noDoubleUnderscore s'
  end.

(** ** The chunks of a quoted string *)

Definition newline : ascii := "010"%char.

Definition backslash : ascii := "\"%char.

(** The first rune of a string that is not empty, as the loop of
    [appendQuotedWith] reads it. *)
Definition firstRune (s : string) : Z * nat :=
  match s with
  | EmptyString => (utf8.RuneError, 0%nat)
  | String c _ =>
    if utf8.RuneSelf <=? byteZ c then utf8.DecodeRuneInString s
    else (byteZ c, 1%nat)
  end.

(** What the loop appends for the first rune. *)
Definition quoteChunk (isPrintTable : Z -> bool) (c : ascii) (r : Z)
  (width : nat) : string :=
  if (width =? 1)%nat && (r =? utf8.RuneError) then
    String backslash (String "x"%char
      (String (strconv.lowerhex (byteZ c / 16))
         (String (strconv.lowerhex (byteZ c mod 16)) EmptyString)))
  else strconv.appendEscapedRune isPrintTable r dquote.

(** What the quoting loop appends for a rune, read back by [UnquoteChar]:
    [chunk] is what was appended for the bytes [expected]. *)
Definition chunkOK (chunk expected X : string) : Prop :=
  exists v mb h T,
    chunk = String h T
    /\ Ascii.eqb h dquote = false
    /\ Ascii.eqb h newline = false
    /\ strconv.UnquoteChar (chunk ++ X) dquote = Some (v, mb, X)
    /\ strconv.appendChar v mb = expected
    /\ (h = backslash \/ (chunk = expected /\ contains chunk dquote = false))
    /\ (String.length expected <= String.length chunk)%nat.

(** ** Locators *)

(** What comes before the first byte [c] of [s]: all of [s] when it holds
    no [c]. *)
Fixpoint untilByte (c : ascii) (s : string) : string :=
  match s with
  | EmptyString => EmptyString
  | String a s' => if Ascii.eqb a c then EmptyString else String a (untilByte c s')
  end.

(** What comes after the first byte [c] of [s]: nothing when it holds no
    [c]. *)
Fixpoint afterByte (c : ascii) (s : string) : string :=
  match s with
  | EmptyString => EmptyString
  | String a s' => if Ascii.eqb a c then s' else afterByte c s'
  end.

(** The pieces of [s] between the bytes [c]. *)
Fixpoint splitByte (c : ascii) (s : string) : list string :=
  match s with
  | EmptyString => [EmptyString]
  | String a s' =>
    if Ascii.eqb a c then EmptyString :: splitByte c s'
    else
      match splitByte c s' with
      | [] => [String a EmptyString]
      | piece :: pieces => String a piece :: pieces
      end
  end.

Fixpoint countByte (c : ascii) (s : string) : nat :=
  match s with
  | EmptyString => O
  | String a s' => ((if Ascii.eqb a c then 1 else 0) + countByte c s')%nat
  end.

Definition space : ascii := " "%char.

Definition slash : ascii := "/"%char.

(** The tags of a locator are what lies between its spaces; the key of a
    tag is what comes before its first slash, its value what comes after. *)
Definition tagsOf (locator : string) : list string := splitByte space locator.

Definition tagKey (tag : string) : string := untilByte slash tag.

Definition tagValue (tag : string) : string := afterByte slash tag.

(** The value of the last of the tags that has the key [k]. *)
Fixpoint lastTag (k : string) (tags : list string) : option string :=
  match tags with
  | [] => None
  | tag :: rest =>
    match lastTag k rest with
    | Some v => Some v
    | None => if String.eqb (tagKey tag) k then Some (tagValue tag) else None
    end
  end.

(** The map with the tag [tag] put in. *)
Definition setTag (parts : gomap.t string) (tag : string) : gomap.t string :=
  gomap.set parts (tagKey tag) (tagValue tag).

(** ** Requests in a row *)

(** [n] successes in a row somewhere in the outcomes [l]. *)
Definition streak (n : nat) (l : list bool) : Prop :=
  exists pre post, l = (pre ++ repeat true n ++ post)%list.

(** ** Summaries and what is written for them *)

(** A summary that is no flake. *)
Definition notFlake (summary : disruption.TestSummary) : bool :=
  match summary with
  | disruption.flakeSummary _ => false
  | _ => true
  end.

(** The test cases of the [additionalTest] summaries, in their order. *)
Definition additionalCases (summaries : list disruption.TestSummary)
  : list junit.TestCase :=
  flat_map
    (fun summary =>
       match summary with
       | disruption.additionalTest name failure d =>
         [disruption.additionalTestCase name failure d]
       | _ => []
       end) summaries.

(** What a file holds after the writes [files]: what was written to it
    last. *)
Fixpoint contentOf (files : list (string * string)) (path : string)
  : option string :=
  match files with
  | [] => None
  | (p, data) :: rest =>
    match contentOf rest path with
    | Some d => Some d
    | None => if String.eqb p path then Some data else None
    end
  end.

Section SummaryOutputs.

Variable ReportDir : string.
Variable fsError : string -> option string.
Variable filepath_Join : string -> string -> string.
Variable formatRFC3339 : time.Time -> string.
Variable EventsIntervalsToJSON : monitorapi.Intervals -> string.

(** The files written for the summaries of a test, in their order: one for
    each summary that is written to disk and whose file can be written. *)
Definition summaryFiles (now : time.Time) (tcName : string)
  (summaries : list disruption.TestSummary) : list (string * string) :=
  flat_map
    (fun summary =>
       if writtenToDisk summary then
         match fsError (disruption.summaryPath ReportDir filepath_Join
                          formatRFC3339 summary tcName now) with
         | None =>
           [(disruption.summaryPath ReportDir filepath_Join formatRFC3339
               summary tcName now,
             disruption.PrintJSON EventsIntervalsToJSON summary)]
         | Some _ => []
         end
       else []) summaries.

(** The lines printed to standard error for the summaries of a test, in
    their order: one for each summary whose file cannot be written. *)
Definition summaryErrors (now : time.Time) (tcName : string)
  (summaries : list disruption.TestSummary) : list string :=
  flat_map
    (fun summary =>
       if writtenToDisk summary then
         match fsError (disruption.summaryPath ReportDir filepath_Join
                          formatRFC3339 summary tcName now) with
         | None => []
         | Some err =>
           [disruption.writeFailed
              (disruption.summaryPath ReportDir filepath_Join formatRFC3339
                 summary tcName now) err]
         end
       else []) summaries.

End SummaryOutputs.

(** ** Namespaces and registered tests *)

(** The bytes of a namespace name made by [createTestFrameworks]: the
    word characters 0-9, A-Z, a-z and the underscore, and the hyphen. *)
Definition namespaceChar (c : ascii) : bool :=
  let b := byteZ c in
  ((48 <=? b) && (b <=? 57)) || ((65 <=? b) && (b <=? 90))
  || ((97 <=? b) && (b <=? 122)) || (b =? 95) || (b =? 45).

Fixpoint allNamespace (s : string) : bool :=
  match s with
  | EmptyString => true
  | String c s' => namespaceChar c && allNamespace s'
  end.

Definition startsWithHyphen (s : string) : bool :=
  match s with
  | String c _ => Ascii.eqb c disruption.hyphen
  | EmptyString => false
  end.

Fixpoint endsWithHyphen (s : string) : bool :=
  match s with
  | EmptyString => false
  | String c EmptyString => Ascii.eqb c disruption.hyphen
  | String _ s' => endsWithHyphen s'
  end.

(** The last of the tests that has the name [k]. *)
Fixpoint lastNamed (k : string) (tests : list upgrades.Test) : option upgrades.Test :=
  match tests with
  | [] => None
  | t :: rest =>
    match lastNamed k rest with
    | Some t' => Some t'
    | None => if String.eqb (upgrades.Name t) k then Some t else None
    end
  end.

(** One adapter for each test, with the framework [frameworkOf] gives it;
    the reports are at the positions from [i] on. *)
Fixpoint adaptersFor (frameworkOf : upgrades.Test -> disruption.NewFramework)
  (tests : list upgrades.Test) (i : nat) : list disruption.chaosMonkeyAdapter :=
  match tests with
  | [] => []
  | t :: rest =>
    disruption.mkAdapter (frameworkOf t) t i :: adaptersFor frameworkOf rest (S i)
  end.

(** The framework made for a test whose package reflection can read. *)
Definition frameworkOf (isGoModulePath : string -> string -> string -> bool)
  (t : upgrades.Test) : disruption.NewFramework :=
  disruption.frameworkFor isGoModulePath (upgrades.Name t)
    (match upgrades.PkgPath t with Ok pkgPath => pkgPath | Panic _ => EmptyString end).

(** The framework that a test is run with: the one made last for its
    name. *)
Definition sharedFramework (isGoModulePath : string -> string -> string -> bool)
  (tests : list upgrades.Test) (t : upgrades.Test) : disruption.NewFramework :=
  match lastNamed (upgrades.Name t) tests with
  | Some t' => frameworkOf isGoModulePath t'
  | None => frameworkOf isGoModulePath t
  end.

(** ** Conditions of a bare metal host *)

(** What [checkConditionStatus] expects of a condition: it is a map with a
    type, and when the type is [condType] it has the status [condStatus]. *)
Definition conditionOK (condType condStatus : string) (c : baremetal.Element)
  : Prop :=
  exists m t,
    c = baremetal.EMap m
    /\ gomap.get m "type" = Some t
    /\ (t = baremetal.VString condType ->
        gomap.get m "status" = Some (baremetal.VString condStatus)).

(** * Properties *)

(** ** The report at suite finalize time (runChaosmonkey, lines 129-147) *)

Section SuiteFinalize.

Local Open Scope list_scope.

Lemma retypeFailures_map (fs : list junit.Failure) (a : bool) :
  disruption.retypeFailures fs a = (map retypeFlake fs, a && forallb isFlake fs).
Proof.
  revert a; induction fs as [|f fs IH]; intros a; simpl.
  - now rewrite andb_true_r.
  - unfold retypeFlake at 1, isFlake at 1.
    destruct (String.eqb (junit.Failure_Type f) "Flake"); rewrite IH; simpl.
    + reflexivity.
    + now rewrite andb_false_r.
Qed.

Lemma update_middle {A : Type} (done todo : list A) (x y : A) :
  update (done ++ x :: todo) (List.length done) y = done ++ y :: todo.
Proof. induction done as [|d done IH]; simpl; [reflexivity | now rewrite IH]. Qed.

Lemma nth_error_middle {A : Type} (done todo : list A) (x : A) :
  nth_error (done ++ x :: todo) (List.length done) = Some x.
Proof. induction done as [|d done IH]; simpl; [reflexivity | exact IH]. Qed.

Lemma allFlakes_onlyFlakes (tc : junit.TestCase) :
  (0 <? List.length (junit.Failures tc))%nat
  && (List.length (junit.Errors tc) =? 0)%nat
  && (String.length (junit.Skipped tc) =? 0)%nat
  && forallb isFlake (junit.Failures tc) = onlyFlakes tc.
Proof.
  unfold onlyFlakes.
  destruct (junit.Failures tc) as [|f fs]; [reflexivity|].
  destruct (junit.Errors tc) as [|e es]; [|reflexivity].
  destruct (junit.Skipped tc); reflexivity.
Qed.

Lemma flakeStep_middle (done todo : list junit.TestCase) (tc : junit.TestCase) :
  disruption.flakeStep (done ++ tc :: todo) (List.length done)
  = (done ++ [retypedEntry tc]) ++ todo
      ++ (if onlyFlakes tc then [passingEntry tc] else []).
Proof.
  unfold disruption.flakeStep.
  rewrite nth_error_middle, retypeFailures_map, allFlakes_onlyFlakes, update_middle.
  fold (retypedEntry tc). fold (passingEntry tc).
  destruct (onlyFlakes tc); rewrite <- !app_assoc; simpl.
  - reflexivity.
  - now rewrite app_nil_r.
Qed.

Lemma flakeLoop_from (todo done extra : list junit.TestCase) :
  fold_left disruption.flakeStep (seq (List.length done) (List.length todo))
    (done ++ todo ++ extra)
  = done ++ map retypedEntry todo ++ extra
      ++ map passingEntry (filter onlyFlakes todo).
Proof.
  revert done extra; induction todo as [|tc todo IH]; intros done extra; simpl.
  - now rewrite app_nil_r.
  - rewrite flakeStep_middle.
    replace (S (List.length done)) with (List.length (done ++ [retypedEntry tc]))
      by (rewrite length_app; simpl; lia).
    rewrite <- (app_assoc todo), IH, <- !app_assoc. simpl.
    destruct (onlyFlakes tc); simpl; now rewrite ?app_nil_r.
Qed.

Lemma onlyFlakes_iff (tc : junit.TestCase) :
  onlyFlakes tc = true <->
  junit.Failures tc <> [] /\ junit.Errors tc = [] /\ junit.Skipped tc = EmptyString
  /\ Forall (fun f => junit.Failure_Type f = "Flake") (junit.Failures tc).
Proof.
  unfold onlyFlakes.
  assert (Hall : forall fs, forallb isFlake fs = true
                 <-> Forall (fun f => junit.Failure_Type f = "Flake") fs).
  { intros fs. rewrite forallb_forall, Forall_forall. unfold isFlake.
    split; intros H f Hf; apply String.eqb_eq || apply String.eqb_eq in H; auto;
      specialize (H f Hf); now apply String.eqb_eq. }
  destruct (junit.Failures tc) as [|f fs] eqn:Hf.
  - split; [discriminate | intros [H _]; now elim H].
  - destruct (junit.Errors tc) as [|e es].
    + destruct (junit.Skipped tc).
      * rewrite Hall. split; [intros H; repeat split; auto; discriminate | tauto].
      * split; [discriminate | intros (_ & _ & H & _); discriminate].
    + split; [discriminate | intros (_ & H & _); discriminate].
Qed.

Lemma retypeFlake_all (fs : list junit.Failure) :
  Forall (fun f => junit.Failure_Type f = "Flake") fs ->
  map retypeFlake fs
  = map (fun f => junit.mkFailure (junit.Failure_Message f) "Failure"
                    (junit.Failure_Value f)) fs.
Proof.
  induction 1 as [|f fs Hf _ IH]; simpl; [reflexivity|].
  rewrite IH. unfold retypeFlake. now rewrite Hf.
Qed.

(** C5.  At suite finalize time the report becomes, in order, every test
    case with its flake failures retyped as failures, followed by one
    synthetic passing entry for each test case that failed only by
    flakes.  A test case fails only by flakes exactly when its failure list
    is not empty, it has no error and no skip, and all its failures are
    typed "Flake"; its own entry then has every failure retyped "Failure"
    (messages and values kept), and its passing entry has its name,
    classname and time and neither failure, error nor skip.  Any other test
    case contributes its own entry only. *)
Theorem flakeLoop_two_entries (cases : list junit.TestCase) :
  disruption.flakeLoop cases
  = map retypedEntry cases ++ map passingEntry (filter onlyFlakes cases)
  /\ (forall tc,
        onlyFlakes tc = true <->
        junit.Failures tc <> [] /\ junit.Errors tc = []
        /\ junit.Skipped tc = EmptyString
        /\ Forall (fun f => junit.Failure_Type f = "Flake") (junit.Failures tc))
  /\ (forall tc,
        onlyFlakes tc = true ->
        junit.Failures (retypedEntry tc)
        = map (fun f => junit.mkFailure (junit.Failure_Message f) "Failure"
                          (junit.Failure_Value f)) (junit.Failures tc)
        /\ junit.Name (retypedEntry tc) = junit.Name tc
        /\ junit.Classname (retypedEntry tc) = junit.Classname tc
        /\ junit.Time (retypedEntry tc) = junit.Time tc
        /\ junit.Errors (retypedEntry tc) = []
        /\ junit.Skipped (retypedEntry tc) = EmptyString)
  /\ (forall tc,
        junit.Name (passingEntry tc) = junit.Name tc
        /\ junit.Classname (passingEntry tc) = junit.Classname tc
        /\ junit.Time (passingEntry tc) = junit.Time tc
        /\ junit.Failures (passingEntry tc) = []
        /\ junit.Errors (passingEntry tc) = []
        /\ junit.Skipped (passingEntry tc) = EmptyString)
  /\ (forall tc,
        (exists f, In f (junit.Failures tc) /\ junit.Failure_Type f <> "Flake")
        \/ junit.Errors tc <> [] \/ junit.Skipped tc <> EmptyString ->
        onlyFlakes tc = false).
Proof.
  split; [|split; [|split; [|split]]].
  - unfold disruption.flakeLoop.
    pose proof (flakeLoop_from cases [] []) as H. simpl in H.
    now rewrite app_nil_r in H.
  - exact onlyFlakes_iff.
  - intros tc H. apply onlyFlakes_iff in H. destruct H as (_ & He & Hs & Hall).
    simpl. rewrite He, Hs. repeat split; auto using retypeFlake_all.
  - intros tc. simpl. repeat split.
  - intros tc H. destruct (onlyFlakes tc) eqn:E; [|reflexivity].
    apply onlyFlakes_iff in E. destruct E as (_ & He & Hs & Hall).
    destruct H as [(f & Hin & Hty) | [H | H]]; [|now elim H..].
    rewrite Forall_forall in Hall. now elim Hty; apply Hall.
Qed.

End SuiteFinalize.

(** ** finalizeTest: recovered panics and write errors *)

Section FinalizeFacts.

Local Open Scope list_scope.

Variable isPrintTable : Z -> bool.
Variable ReportDir : string.
Variable fsError : string -> option string.
Variable filepath_Join : string -> string -> string.
Variable formatRFC3339 : time.Time -> string.
Variable Unix : time.Time -> Z.
Variable fmt_v : disruption.PanicValue -> string.
Variable EventsIntervalsToJSON : monitorapi.Intervals -> string.
Variable xmlEncode : junit.TestSuite -> string.

Local Abbreviation finalizeTest :=
  (disruption.finalizeTest isPrintTable ReportDir fsError filepath_Join
     formatRFC3339 fmt_v EventsIntervalsToJSON).
Local Abbreviation writeSummaries :=
  (disruption.writeSummaries ReportDir fsError filepath_Join formatRFC3339
     EventsIntervalsToJSON).
Local Abbreviation summaryPath :=
  (disruption.summaryPath ReportDir filepath_Join formatRFC3339).

(** C6.  With a framework at hand, [finalizeTest] returns, and the test
    case it leaves records the recovered value in one place: a
    [FailurePanic] as the single failure, typed "Failure", with its message
    and, in the value, its message and stack trace; a [SkipPanic] in the
    skipped field, as file, line and quoted message; any other value as the
    single error, typed "Panic"; the other two of failures, errors and
    skipped are as they were.  When nothing was recovered, errors and
    skipped are as they were and the failures gain at most the flake the
    framework recorded. *)
Theorem finalizeTest_classifies_panic
  (start now : time.Time) (tc : junit.TestCase) (cases : list junit.TestCase)
  (fw : disruption.Framework) (r : option disruption.PanicValue)
  (stack : string) (w : disruption.World) :
  match finalizeTest start now tc cases (Some fw) r stack w with
  | Panic _ => False
  | Ok (tc', _, _) =>
    junit.Name tc' = junit.Name tc /\
    match r with
    | Some (disruption.FailurePanic message _ _ fullStackTrace) =>
      junit.Failures tc'
      = [junit.mkFailure message "Failure"
           (message ++ disruption.twoNewlines ++ fullStackTrace)%string]
      /\ junit.Errors tc' = junit.Errors tc
      /\ junit.Skipped tc' = junit.Skipped tc
    | Some (disruption.SkipPanic message filename line _) =>
      junit.Skipped tc'
      = (filename ++ ":" ++ itoa line ++ " "
           ++ strconv.Quote isPrintTable message)%string
      /\ junit.Failures tc' = junit.Failures tc
      /\ junit.Errors tc' = junit.Errors tc
    | Some (disruption.OtherPanic v) =>
      junit.Errors tc'
      = [junit.mkError (fmt_v (disruption.OtherPanic v)) "Panic"
           (fmt_v (disruption.OtherPanic v) ++ disruption.twoNewlines ++ stack)%string]
      /\ junit.Failures tc' = junit.Failures tc
      /\ junit.Skipped tc' = junit.Skipped tc
    | None =>
      junit.Errors tc' = junit.Errors tc
      /\ junit.Skipped tc' = junit.Skipped tc
      /\ (junit.Failures tc' = junit.Failures tc
          \/ exists message,
               disruption.hasFrameworkFlake (disruption.TestSummaries fw)
               = (message, true)
               /\ junit.Failures tc'
                  = junit.Failures tc ++ [junit.mkFailure message "Flake" message])
    end
  end.
Proof.
  unfold disruption.finalizeTest.
  destruct (writeSummaries now _ (disruption.TestSummaries fw) cases w)
    as [cases1 w1].
  destruct r as [[message filename line trace | message filename line trace | v]|].
  - simpl. destruct (disruption.ginkgoFailed w1); simpl; auto.
  - simpl. destruct (disruption.ginkgoFailed w1); simpl; auto.
  - simpl. destruct (disruption.ginkgoFailed w1); simpl; auto.
  - destruct (disruption.hasFrameworkFlake (disruption.TestSummaries fw))
      as [message [|]] eqn:Hflake; simpl; repeat split; auto.
    right. exists message. auto.
Qed.

(** Without a framework [finalizeTest] panics at line 199, whatever was
    recovered: the check [f != nil] of line 222 comes after the loop over
    [f.TestSummaries]. *)
Lemma finalizeTest_nil_framework
  (start now : time.Time) (tc : junit.TestCase) (cases : list junit.TestCase)
  (r : option disruption.PanicValue) (stack : string) (w : disruption.World) :
  exists msg, finalizeTest start now tc cases None r stack w = Panic msg.
Proof. eexists. reflexivity. Qed.

(** The report of [finalizeTest] does not depend on the file system. *)
Lemma writeSummaries_cases (fsError' : string -> option string)
  (now : time.Time) (tcName : string) (summaries : list disruption.TestSummary)
  (cases : list junit.TestCase) (w w' : disruption.World) :
  fst (writeSummaries now tcName summaries cases w)
  = fst (disruption.writeSummaries ReportDir fsError' filepath_Join
           formatRFC3339 EventsIntervalsToJSON now tcName summaries cases w').
Proof.
  revert cases w w'; induction summaries as [|s rest IH]; intros cases w w'.
  - reflexivity.
  - destruct s; simpl; try apply IH;
      match goal with
      | |- context [fsError ?p] =>
        destruct (fsError p); destruct (fsError' p); apply IH
      end.
Qed.

(** C7, as amended.  A file that cannot be written aborts nothing, but only
    [finalizeTest] logs the error.
    - runChaosmonkey's deferred function: when the JUnit XML file cannot be
      created, it returns the finalized suite and leaves the world as it
      was: no file is written and nothing is logged.
    - [finalizeTest]: when the JSON file of a summary cannot be written, one
      line naming the path and the error goes to standard error and the
      loop carries on with the next summary.
    - With a framework at hand [finalizeTest] returns whatever the file
      system does, and reports the same test case and the same suite as it
      does on a file system without errors. *)
Theorem report_write_errors_not_escalated :
  (forall (start t1 t2 : time.Time) (testSuite : junit.TestSuite)
          (w : disruption.World) (err : string),
      fsError (disruption.junitPath ReportDir filepath_Join Unix
                 (junit.Package testSuite) t2) = Some err ->
      disruption.finishSuite ReportDir fsError filepath_Join Unix xmlEncode
        start t1 t2 testSuite w
      = (junit.mkTestSuite (junit.Suite_Name testSuite) (junit.Package testSuite)
           (time.Seconds (time.Sub t1 start))
           (disruption.flakeLoop (junit.TestCases testSuite)), w))
  /\ (forall (now : time.Time) (tcName : string)
             (summary : disruption.TestSummary)
             (rest : list disruption.TestSummary)
             (cases : list junit.TestCase) (w : disruption.World) (err : string),
         writtenToDisk summary = true ->
         fsError (summaryPath summary tcName now) = Some err ->
         writeSummaries now tcName (summary :: rest) cases w
         = writeSummaries now tcName rest cases
             (disruption.Fprintf_stderr
                (disruption.writeFailed (summaryPath summary tcName now) err) w))
  /\ (forall (start now : time.Time) (tc : junit.TestCase)
             (cases : list junit.TestCase) (fw : disruption.Framework)
             (r : option disruption.PanicValue) (stack : string)
             (w : disruption.World),
         exists tc' cases',
           reported (finalizeTest start now tc cases (Some fw) r stack w)
           = Some (tc', cases')
           /\ reported
                (disruption.finalizeTest isPrintTable ReportDir (fun _ => None)
                   filepath_Join formatRFC3339 fmt_v EventsIntervalsToJSON
                   start now tc cases (Some fw) r stack w)
              = Some (tc', cases')).
Proof.
  split; [|split].
  - intros start t1 t2 testSuite w err Herr.
    unfold disruption.finishSuite. cbn [junit.Package].
    rewrite Herr. now destruct (negb (String.eqb ReportDir EmptyString)).
  - intros now tcName summary rest cases w err Hdisk Herr.
    destruct summary as [n f d | msg | events | kind json];
      try discriminate; simpl;
      [ fold (summaryPath (disruption.flakeSummary msg) tcName now)
      | fold (summaryPath (disruption.additionalEvents events) tcName now)
      | fold (summaryPath (disruption.otherSummary kind json) tcName now) ];
      now rewrite Herr.
  - intros start now tc cases fw r stack w.
    unfold disruption.finalizeTest.
    pose proof (writeSummaries_cases (fun _ => None) now
                  (junit.Name (disruption.setTime tc
                                 (time.Seconds (time.Sub now start))))
                  (disruption.TestSummaries fw) cases w w) as Hc.
    destruct (writeSummaries now _ (disruption.TestSummaries fw) cases w)
      as [cases1 w1].
    destruct (disruption.writeSummaries ReportDir (fun _ => None) _ _ _ now _
                (disruption.TestSummaries fw) cases w) as [cases2 w2].
    simpl in Hc. subst cases2.
    destruct r as [r|].
    + do 2 eexists.
      destruct (negb (disruption.ginkgoFailed (disruption.Logf _ w1)));
        destruct (negb (disruption.ginkgoFailed (disruption.Logf _ w2)));
        simpl; split; reflexivity.
    + destruct (disruption.hasFrameworkFlake (disruption.TestSummaries fw))
        as [message [|]]; simpl; eauto.
Qed.

End FinalizeFacts.

(** ** ExpectNoDisruption *)

Section FloatFacts.

Lemma SFcompare_antisym (x y : spec_float) :
  SFcompare y x = option_map CompOpp (SFcompare x y).
Proof.
  destruct x as [sx | sx | | sx mx ex], y as [sy | sy | | sy my ey]; simpl;
    try reflexivity;
    try (destruct sx; reflexivity);
    try (destruct sy; reflexivity);
    try (destruct sx, sy; reflexivity).
  f_equal. destruct sx, sy; try reflexivity.
  - rewrite (Z.compare_antisym ex ey).
    destruct (ex ?= ey); simpl; try reflexivity.
    rewrite CompOpp_involutive.
    exact (Pos.compare_cont_antisym my mx Eq).
  - rewrite (Z.compare_antisym ex ey).
    destruct (ex ?= ey); simpl; try reflexivity.
    symmetry. exact (Pos.compare_cont_antisym mx my Eq).
Qed.

(** [x <= y] excludes [x > y]. *)
Lemma fle_not_fgt (x y : float64) : fle x y = true -> fgt x y = false.
Proof.
  unfold fle, fgt, SFleb, SFltb. rewrite (SFcompare_antisym x y).
  destruct (SFcompare x y) as [[| |]|]; simpl; congruence.
Qed.

(** Zero divided by anything is zero or no number, which no tolerance from
    zero upwards is below. *)
Lemma zero_fraction_tolerated (total tolerate : float64) :
  fge tolerate (float64_of_int 0) = true ->
  fgt (fdiv (float64_of_int 0) total) tolerate = false.
Proof.
  unfold fge, fgt, fdiv, float64_of_int, SFleb, SFltb. simpl.
  destruct total as [st | st | | st mt et], tolerate as [s | s | | s m e]; simpl;
    try reflexivity; try discriminate;
    try (destruct s; simpl; congruence).
Qed.

End FloatFacts.

Section JoinFacts.

Local Open Scope string_scope.

Lemma append_assoc (a b c : string) : (a ++ b) ++ c = a ++ (b ++ c).
Proof. induction a as [|x a IH]; simpl; [reflexivity | now rewrite IH]. Qed.

Lemma append_nil_r (a : string) : a ++ "" = a.
Proof. induction a as [|x a IH]; simpl; [reflexivity | now rewrite IH]. Qed.

Lemma lists_refl (s : string) : lists s s.
Proof. exists "", "". simpl. now rewrite append_nil_r. Qed.

Lemma lists_app_l (a b part : string) : lists a part -> lists (a ++ b) part.
Proof.
  intros (pre & post & ->). exists pre, (post ++ b).
  now rewrite !append_assoc.
Qed.

Lemma lists_app_r (a b part : string) : lists b part -> lists (a ++ b) part.
Proof.
  intros (pre & post & ->). exists (a ++ pre), post.
  now rewrite !append_assoc.
Qed.

Lemma lists_cons (c : ascii) (b part : string) :
  lists b part -> lists (String c b) part.
Proof. apply (lists_app_r (String c "")). Qed.

Lemma lists_Join (elems : list string) (sep part : string) :
  In part elems -> lists (strings.Join elems sep) part.
Proof.
  induction elems as [|e rest IH]; [intros []|].
  intros [-> | Hin].
  - destruct rest; simpl; [apply lists_refl | apply lists_app_l, lists_refl].
  - destruct rest as [|e' rest']; [destruct Hin|].
    change (strings.Join (e :: e' :: rest') sep)
      with (e ++ sep ++ strings.Join (e' :: rest') sep).
    apply lists_app_r, lists_app_r, IH, Hin.
Qed.

End JoinFacts.

Section ExpectFacts.

Local Open Scope list_scope.

Variable fmt_Duration : time.Duration -> string.
Variable fmt_f0 : float64 -> string.
Variable EventInterval_String : monitorapi.EventInterval -> string.

Local Abbreviation failMessage := (disruption.failMessage fmt_Duration fmt_f0).
Local Abbreviation flakeMessage := (disruption.flakeMessage fmt_Duration fmt_f0).
Local Abbreviation Strings := (disruption.Strings EventInterval_String).

Section AnyDuration.

Variable Intervals_Duration :
  time.Duration -> time.Duration -> monitorapi.Intervals -> time.Duration.

Local Abbreviation ExpectNoDisruption :=
  (disruption.ExpectNoDisruption fmt_Duration fmt_f0 EventInterval_String
     Intervals_Duration).

Lemma failMessage_lists (reason : string) (duration total : time.Duration)
  (percent tolerate : float64) (events : monitorapi.Intervals) :
  let msg := failMessage reason duration total percent tolerate (Strings events) in
  lists msg reason
  /\ lists msg (fmt_Duration (time.Truncate duration time.Second))
  /\ lists msg (fmt_Duration (time.Truncate total time.Second))
  /\ lists msg (fmt_f0 (fmul percent disruption.hundred))
  /\ forall i, In i events -> lists msg (EventInterval_String i).
Proof.
  unfold disruption.failMessage. cbv zeta.
  split; [|split; [|split; [|split]]].
  - apply lists_app_l, lists_refl.
  - do 2 apply lists_app_r. apply lists_app_l, lists_refl.
  - do 4 apply lists_app_r. apply lists_app_l, lists_refl.
  - do 6 apply lists_app_r. apply lists_app_l, lists_refl.
  - intros i Hi. do 10 apply lists_app_r. do 2 apply lists_cons.
    apply lists_Join, in_map, Hi.
Qed.

(** C1.  [ExpectNoDisruption] fails the test exactly when the fraction
    [D/total], computed in [float64], is greater than [tolerate].  When
    [0 < D] and the fraction is not greater than [tolerate] (in particular
    when it is at most [tolerate]) the call returns and has recorded a flake
    with [FrameworkFlakef].  The message of a failure lists the reason, the
    duration, the total, the percentage and the line of every interval. *)
Theorem ExpectNoDisruption_fails_iff_over_tolerance
  (f : disruption.Framework) (tolerate : float64) (total : time.Duration)
  (events : monitorapi.Intervals) (reason : string) (w : disruption.World) :
  let D := summed Intervals_Duration events in
  let percent := fraction Intervals_Duration total events in
  let '(f', w', verdict) := ExpectNoDisruption f tolerate total events reason w in
  ((exists msg, verdict = disruption.Failf msg) <-> fgt percent tolerate = true)
  /\ (fle percent tolerate = true -> fgt percent tolerate = false)
  /\ (0 < D -> fgt percent tolerate = false ->
      verdict = disruption.Returns
      /\ (f', w')
         = disruption.FrameworkFlakef
             (disruption.FrameworkEventIntervals f events)
             (flakeMessage reason D total percent tolerate (Strings events)) w
      /\ In (disruption.flakeSummary
               (flakeMessage reason D total percent tolerate (Strings events)))
            (disruption.TestSummaries f'))
  /\ (fgt percent tolerate = true ->
      exists msg,
        verdict = disruption.Failf msg
        /\ lists msg reason
        /\ lists msg (fmt_Duration (time.Truncate D time.Second))
        /\ lists msg (fmt_Duration (time.Truncate total time.Second))
        /\ lists msg (fmt_f0 (fmul percent disruption.hundred))
        /\ forall i, In i events -> lists msg (EventInterval_String i)).
Proof.
  unfold disruption.ExpectNoDisruption, fraction, summed. cbv zeta.
  set (D := Intervals_Duration 0 (1 * time.Second) events).
  set (percent := fdiv (float64_of_int D) (float64_of_int total)).
  destruct (fgt percent tolerate) eqn:Hgt.
  - split; [|split; [|split]].
    + split; [reflexivity | intros _; eauto].
    + intros Hle. apply fle_not_fgt in Hle. congruence.
    + discriminate.
    + intros _. eexists. split; [reflexivity|].
      apply failMessage_lists.
  - destruct (0 <? D) eqn:Hpos; cbn [disruption.FrameworkFlakef];
      (split; [|split; [|split]]);
      try (split; [intros [msg Hmsg]; discriminate | discriminate]);
      try (intros _; reflexivity); try discriminate.
    + intros _ _. split; [reflexivity|]. split; [reflexivity|].
      cbn [disruption.TestSummaries]. apply in_or_app. right. now left.
    + intros HD. apply Z.ltb_ge in Hpos. lia.
Qed.

(** C4, as amended.  When the summed duration is zero and [tolerate] is
    not negative, [ExpectNoDisruption] returns without failing the test,
    records no flake and logs nothing; what it does is append to the
    framework's test summaries the [additionalEvents] summary that holds the
    events. *)
Theorem ExpectNoDisruption_zero_duration
  (f : disruption.Framework) (tolerate : float64) (total : time.Duration)
  (events : monitorapi.Intervals) (reason : string) (w : disruption.World) :
  summed Intervals_Duration events = 0 ->
  fge tolerate (float64_of_int 0) = true ->
  ExpectNoDisruption f tolerate total events reason w
  = (disruption.mkFramework
       (disruption.TestSummaries f ++ [disruption.additionalEvents events]),
     w, disruption.Returns).
Proof.
  intros HD Htol. unfold disruption.ExpectNoDisruption. cbv zeta.
  fold (summed Intervals_Duration events). rewrite HD.
  now rewrite (zero_fraction_tolerated _ _ Htol).
Qed.

End AnyDuration.

Lemma wrap64_idem (z : Z) : time.wrap64 (time.wrap64 z) = time.wrap64 z.
Proof.
  unfold time.wrap64.
  replace ((z + 2 ^ 63) mod 2 ^ 64 - 2 ^ 63 + 2 ^ 63)
    with ((z + 2 ^ 63) mod 2 ^ 64) by lia.
  now rewrite Z.mod_mod by lia.
Qed.

Lemma Duration_wrapped (below floor : time.Duration)
  (events : monitorapi.Intervals) :
  time.wrap64 (monitorapi.Duration below floor events)
  = monitorapi.Duration below floor events.
Proof. destruct events; simpl; [reflexivity | apply wrap64_idem]. Qed.

Lemma Duration_below_floor (floor : time.Duration)
  (i : monitorapi.EventInterval) (rest : monitorapi.Intervals) :
  time.Sub (monitorapi.To i) (monitorapi.From i) < floor ->
  monitorapi.Duration 0 floor (i :: rest) = monitorapi.Duration 0 floor rest.
Proof.
  intros Hlt. simpl. apply Z.ltb_lt in Hlt. rewrite Hlt.
  apply Duration_wrapped.
Qed.

Lemma Duration_all_below_floor (floor : time.Duration)
  (events : monitorapi.Intervals) :
  Forall (fun i => time.Sub (monitorapi.To i) (monitorapi.From i) < floor) events ->
  monitorapi.Duration 0 floor events = 0.
Proof.
  induction 1 as [|i rest Hi _ IH]; [reflexivity|].
  now rewrite Duration_below_floor.
Qed.

(** C3.  An interval shorter than one second adds nothing to the sum that
    [Intervals.Duration] returns.  For events that are all shorter than one
    second the sum is zero, and [ExpectNoDisruption], for a tolerance that
    is not negative, returns without failing the test. *)
Theorem subsecond_intervals_contribute_zero
  (f : disruption.Framework) (tolerate : float64) (total : time.Duration)
  (events : monitorapi.Intervals) (reason : string) (w : disruption.World) :
  Forall (fun i => time.Sub (monitorapi.To i) (monitorapi.From i)
                   < 1 * time.Second) events ->
  fge tolerate (float64_of_int 0) = true ->
  monitorapi.Duration 0 (1 * time.Second) events = 0
  /\ snd (disruption.ExpectNoDisruption fmt_Duration fmt_f0 EventInterval_String
            monitorapi.Duration f tolerate total events reason w)
     = disruption.Returns
  /\ forall i rest,
       time.Sub (monitorapi.To i) (monitorapi.From i) < 1 * time.Second ->
       monitorapi.Duration 0 (1 * time.Second) (i :: rest)
       = monitorapi.Duration 0 (1 * time.Second) rest.
Proof.
  intros Hall Htol.
  pose proof (Duration_all_below_floor _ _ Hall) as HD.
  split; [exact HD|]. split.
  - unfold disruption.ExpectNoDisruption. cbv zeta. rewrite HD.
    now rewrite (zero_fraction_tolerated _ _ Htol).
  - intros i rest. apply Duration_below_floor.
Qed.

End ExpectFacts.

(** The example of the specification: the three intervals sum to zero and
    the call returns. *)
Lemma subsecond_intervals_example :
  (Forall (fun i => time.Sub (monitorapi.To i) (monitorapi.From i)
                    < 1 * time.Second) threeBlips
   /\ fge (float64_of_int 0) (float64_of_int 0) = true)
  /\ monitorapi.Duration 0 (1 * time.Second) threeBlips = 0
  /\ snd (disruption.ExpectNoDisruption itoa (fun _ => EmptyString)
            (fun i => monitorapi.Message (monitorapi.Cond i))
            monitorapi.Duration (disruption.mkFramework []) (float64_of_int 0)
            (60 * time.Second) threeBlips "Service was unreachable" quietWorld)
     = disruption.Returns.
Proof.
  assert (H1 : Forall (fun i => time.Sub (monitorapi.To i) (monitorapi.From i)
                               < 1 * time.Second) threeBlips)
    by (repeat constructor).
  assert (H2 : fge (float64_of_int 0) (float64_of_int 0) = true) by reflexivity.
  split; [split; assumption|].
  pose proof (subsecond_intervals_contribute_zero itoa (fun _ => EmptyString)
                (fun i => monitorapi.Message (monitorapi.Cond i))
                (disruption.mkFramework []) (float64_of_int 0)
                (60 * time.Second) threeBlips "Service was unreachable"
                quietWorld H1 H2) as (Hd & Hv & _).
  split; assumption.
Defined.

(** The two examples of the specification with a tolerance of 0.02 and a
    window of 600s: 5s of disruption are recorded as a flake and the call
    returns, 20s fail the test. *)
Example five_seconds_of_600_flake :
  let '(f, _, verdict) :=
    disruption.ExpectNoDisruption itoa (fun _ => EmptyString)
      (fun i => monitorapi.Message (monitorapi.Cond i)) monitorapi.Duration
      (disruption.mkFramework []) (fdiv (float64_of_int 2) (float64_of_int 100))
      (600 * time.Second) [blip 0 (5 * time.Second)]
      "Service was unreachable" quietWorld in
  verdict = disruption.Returns
  /\ snd (disruption.hasFrameworkFlake (disruption.TestSummaries f)) = true.
Proof. vm_compute. split; reflexivity. Qed.

Example twenty_seconds_of_600_fail :
  exists msg,
    snd (disruption.ExpectNoDisruption itoa (fun _ => EmptyString)
           (fun i => monitorapi.Message (monitorapi.Cond i)) monitorapi.Duration
           (disruption.mkFramework [])
           (fdiv (float64_of_int 2) (float64_of_int 100))
           (600 * time.Second) [blip 0 (20 * time.Second)]
           "Service was unreachable" quietWorld)
    = disruption.Failf msg.
Proof. eexists. vm_compute. reflexivity. Qed.

(** C4 as the specification states it does not hold: with no event at all
    the summed duration is zero, and yet the call changes the framework's
    test summaries. *)
Lemma zero_duration_changes_summaries :
  let f := disruption.mkFramework [] in
  let tolerate := fdiv (float64_of_int 2) (float64_of_int 100) in
  monitorapi.Duration 0 (1 * time.Second) [] = 0
  /\ disruption.TestSummaries
       (fst (fst (disruption.ExpectNoDisruption itoa (fun _ => EmptyString)
                    (fun i => monitorapi.Message (monitorapi.Cond i))
                    monitorapi.Duration f tolerate (60 * time.Second) []
                    "Service was unreachable" quietWorld)))
     <> disruption.TestSummaries f.
Proof. split; [reflexivity | discriminate]. Qed.

(** What that call does: one [additionalEvents] summary is appended,
    nothing is logged and the call returns. *)
Lemma zero_duration_example :
  (monitorapi.Duration 0 (1 * time.Second) [] = 0
   /\ fge (fdiv (float64_of_int 2) (float64_of_int 100)) (float64_of_int 0) = true)
  /\ disruption.ExpectNoDisruption itoa (fun _ => EmptyString)
       (fun i => monitorapi.Message (monitorapi.Cond i))
       monitorapi.Duration (disruption.mkFramework [])
       (fdiv (float64_of_int 2) (float64_of_int 100)) (60 * time.Second) []
       "Service was unreachable" quietWorld
     = (disruption.mkFramework [disruption.additionalEvents []], quietWorld,
        disruption.Returns).
Proof.
  split; [split; reflexivity|].
  exact (ExpectNoDisruption_zero_duration itoa (fun _ => EmptyString)
           (fun i => monitorapi.Message (monitorapi.Cond i))
           monitorapi.Duration (disruption.mkFramework [])
           (fdiv (float64_of_int 2) (float64_of_int 100)) (60 * time.Second) []
           "Service was unreachable" quietWorld eq_refl eq_refl).
Defined.

(** ** The probe functions of startEndpointMonitoring *)

Section ProbeFacts.

Local Open Scope list_scope.

Variable isPrintTable : Z -> bool.
Variable LocateDisruptionCheck : string -> service.BackendConnectionType -> string.
Variable DisruptionBeganMessage :
  string -> service.BackendConnectionType -> string -> string.
Variable DisruptionEndedMessage : string -> service.BackendConnectionType -> string.
Variable svcName : string.

Local Abbreviation sampleFn :=
  (service.sampleFn isPrintTable LocateDisruptionCheck DisruptionBeganMessage
     DisruptionEndedMessage svcName).
Local Abbreviation locator :=
  (LocateDisruptionCheck "service-loadbalancer-with-pdb").

(** The [switch] of each probe function sees the error of the request
    alone.  The next state is up exactly when [client.Get] returned no
    error, and the condition follows the change of this state: from up to
    down it is the "began" condition, at level [Error], with the error of
    the request; from down to up it is the "ended" condition, at level
    [Info]; otherwise it is nil. *)
Lemma sampleFn_follows_request
  (ct : service.BackendConnectionType) (previous : bool)
  (get : service.GetResult) :
  let '(condition, next, _) := sampleFn ct previous get in
  next = match get with
         | service.GetError _ => false
         | service.GetResponse _ => true
         end
  /\ match previous, next with
     | true, false =>
       exists e,
         get = service.GetError e
         /\ condition
            = Some (monitorapi.mkCondition monitorapi.Error (locator ct)
                      (DisruptionBeganMessage (locator ct) ct e))
     | false, true =>
       condition
       = Some (monitorapi.mkCondition monitorapi.Info (locator ct)
                 (DisruptionEndedMessage (locator ct) ct))
     | true, true | false, false => condition = None
     end.
Proof.
  destruct get as [e | read], previous; simpl; split; eauto.
Qed.

(** C2.  The probe functions miss the failures that they find in the body
    of a response.  A probe fails when its request returns an error, when
    the body cannot be read and when the body does not hold "Hello": lines
    199-205 (247-253) build an error in each case.  For a request that
    returns an error the functions do what is asked of them: from up, the
    "began" condition at level [Error] and the next state down.  For a
    response with the body "Goodbye", and for one whose body breaks off,
    they do not: from up they return no condition and stay up, where the
    "began" condition is due; from down they return the "ended" condition
    at level [Info] and go up, where no condition is due. *)
Theorem sampleFn_misses_failed_body (ct : service.BackendConnectionType) :
  let goodbye := service.GetResponse (service.ReadOk "Goodbye") in
  let broken := service.GetResponse (service.ReadError "unexpected EOF") in
  let ended :=
    Some (monitorapi.mkCondition monitorapi.Info (locator ct)
            (DisruptionEndedMessage (locator ct) ct)) in
  (forall get,
      probeFailed get = true
      <-> (exists e, get = service.GetError e)
          \/ service.blockErr isPrintTable get <> None)
  /\ (probeFailed goodbye = true /\ probeFailed broken = true)
  /\ (forall e,
         fst (sampleFn ct true (service.GetError e))
         = (Some (monitorapi.mkCondition monitorapi.Error (locator ct)
                    (DisruptionBeganMessage (locator ct) ct e)), false))
  /\ sampleFn ct true goodbye = (None, true, [])
  /\ sampleFn ct true broken = (None, true, [])
  /\ sampleFn ct false goodbye = (ended, true, [])
  /\ sampleFn ct false broken = (ended, true, []).
Proof.
  cbv zeta. split; [|repeat split].
  intros get. destruct get as [e | [body | e]]; simpl.
  - split; [intros _; left; now exists e | reflexivity].
  - destruct (service.Contains body "Hello"); simpl.
    + split; [discriminate | intros [[e H] | H]; [discriminate | now elim H]].
    + split; [intros _; right; discriminate | reflexivity].
  - split; [intros _; right; discriminate | reflexivity].
Qed.

(** X1.  A response whose body cannot be read, or does not hold "Hello", is a
    success for the probe functions: the error that lines 202-205 and
    250-253 assign belongs to the block, and the state stays or becomes up
    with no "began" condition. *)
Lemma sampleFn_ignores_body
  (ct : service.BackendConnectionType) (previous : bool)
  (read : service.ReadResult) :
  sampleFn ct previous (service.GetResponse read)
  = sampleFn ct previous (service.GetResponse (service.ReadOk "Hello"))
  /\ snd (fst (sampleFn ct previous (service.GetResponse read))) = true
  /\ (service.blockErr isPrintTable
        (service.GetResponse (service.ReadOk "Goodbye")) <> None
      /\ service.blockErr isPrintTable
           (service.GetResponse (service.ReadError "unexpected EOF")) <> None).
Proof.
  repeat split; try (destruct previous; reflexivity); discriminate.
Qed.

End ProbeFacts.

(** ** Bytes and UTF-8 *)

Ltac zdiv := Z.to_euclidean_division_equations; lia.

Ltac to_prop :=
  repeat match goal with
  | H : _ && _ = true |- _ => apply andb_true_iff in H; destruct H
  | H : _ || _ = false |- _ => apply orb_false_iff in H; destruct H
  | H : _ && _ = false |- _ => apply andb_false_iff in H; destruct H
  | H : _ || _ = true |- _ => apply orb_true_iff in H; destruct H
  | H : negb _ = true |- _ => apply negb_true_iff in H
  | H : negb _ = false |- _ => apply negb_false_iff in H
  | H : (_ <? _) = true |- _ => apply Z.ltb_lt in H
  | H : (_ <? _) = false |- _ => apply Z.ltb_ge in H
  | H : (_ <=? _) = true |- _ => apply Z.leb_le in H
  | H : (_ <=? _) = false |- _ => apply Z.leb_gt in H
  | H : (_ =? _) = true |- _ => apply Z.eqb_eq in H
  | H : (_ =? _) = false |- _ => apply Z.eqb_neq in H
  end.

Ltac split_hyp_if :=
  match goal with
  | H : context [if ?b then _ else _] |- _ => destruct b eqn:?
  | H : context [match ?s with EmptyString => _ | String _ _ => _ end] |- _ =>
    destruct s
  end.

Ltac split_goal_if :=
  match goal with
  | |- context [if ?b then _ else _] => destruct b eqn:?
  end.

Ltac bogus_size :=
  match goal with
  | H : (_ <=? _)%nat = _ |- _ => simpl in H; discriminate H
  end.

Section Utf8Facts.

Local Open Scope string_scope.

Lemma byteZ_range (c : ascii) : 0 <= byteZ c < 256.
Proof. unfold byteZ. pose proof (N_ascii_bounded c). lia. Qed.

Lemma Zbyte_byteZ (c : ascii) : Zbyte (byteZ c) = c.
Proof.
  unfold Zbyte. pose proof (byteZ_range c).
  rewrite Z.mod_small by lia. unfold byteZ.
  rewrite N2Z.id. apply ascii_N_embedding.
Qed.

Lemma byteZ_Zbyte (z : Z) : 0 <= z < 256 -> byteZ (Zbyte z) = z.
Proof.
  intros H. unfold byteZ, Zbyte. rewrite Z.mod_small by lia.
  rewrite N_ascii_embedding by lia. lia.
Qed.

Lemma byteZ_inj (a b : ascii) : byteZ a = byteZ b -> a = b.
Proof.
  intros H. rewrite <- (Zbyte_byteZ a), <- (Zbyte_byteZ b). now rewrite H.
Qed.

Lemma eqb_byteZ (a b : ascii) : Ascii.eqb a b = (byteZ a =? byteZ b)%Z.
Proof.
  destruct (Ascii.eqb_spec a b) as [-> | Hne].
  - now rewrite Z.eqb_refl.
  - symmetry. apply Z.eqb_neq. intros H. now apply Hne, byteZ_inj.
Qed.

Ltac byte_eq :=
  match goal with
  | |- Zbyte ?e = ?c =>
    transitivity (Zbyte (byteZ c)); [f_equal; zdiv | apply Zbyte_byteZ]
  end.

(** A byte from [0x80] on starts an ill-formed sequence, read as
    [RuneError] with width 1, or the encoding of a valid rune from [0x80]
    on, which [EncodeRune] writes back. *)
Lemma decode_lead (c : ascii) (rest : string) (r : Z) (width : nat) :
  0x80 <= byteZ c ->
  utf8.DecodeRuneInString (String c rest) = (r, width) ->
  (r = utf8.RuneError /\ width = 1%nat)
  \/ (utf8.ValidRune r = true /\ 0x80 <= r /\ (2 <= width)%nat
      /\ utf8.EncodeRune r = take width (String c rest)
      /\ String.length (take width (String c rest)) = width).
Proof.
  intros Hc H.
  pose proof (byteZ_range c) as Rc.
  unfold utf8.DecodeRuneInString, utf8.first in H.
  repeat split_hyp_if;
    injection H as <- <-; try (left; split; reflexivity); right;
    try bogus_size;
    unfold utf8.continuation in *; to_prop;
    repeat match goal with
    | a : ascii |- _ =>
      lazymatch goal with
      | _ : 0 <= byteZ a < 256 |- _ => fail
      | _ => pose proof (byteZ_range a)
      end
    end.
  all: try lia.
  all: (split; [unfold utf8.ValidRune, utf8.surrogateMin, utf8.surrogateMax,
                  utf8.MaxRune;
                apply orb_true_iff; rewrite !andb_true_iff, !Z.leb_le, !Z.ltb_lt;
                zdiv|]).
  all: (split; [zdiv|]).
  all: (split; [simpl; lia|]).
  all: (split; [|reflexivity]).
  all: unfold utf8.EncodeRune, utf8.encode3, utf8.MaxRune, utf8.surrogateMin,
         utf8.surrogateMax, utf8.RuneError; simpl take.
  all: repeat split_goal_if; to_prop;
         first [ exfalso; zdiv | repeat f_equal; byte_eq ].
Qed.

(** Decoding reads the bytes of the first rune only. *)
Lemma decode_prefix (c : ascii) (rest X : string) (r : Z) (width : nat) :
  0x80 <= byteZ c ->
  utf8.DecodeRuneInString (String c rest) = (r, width) ->
  (2 <= width)%nat ->
  utf8.DecodeRuneInString (take width (String c rest) ++ X) = (r, width).
Proof.
  intros Hc H Hw.
  unfold utf8.DecodeRuneInString, utf8.first in H.
  repeat split_hyp_if; injection H as <- <-; try lia; try bogus_size;
    unfold utf8.DecodeRuneInString, utf8.first; simpl take; simpl append;
    cbv beta iota zeta;
    repeat match goal with
    | H : ?t = _ |- context [?t] => rewrite H
    end; reflexivity.
Qed.

Lemma decode_width (s : string) :
  (snd (utf8.DecodeRuneInString s) <= String.length s)%nat
  /\ (s <> EmptyString -> (1 <= snd (utf8.DecodeRuneInString s))%nat).
Proof.
  destruct s as [|c rest]; [split; [simpl; lia | congruence]|].
  destruct (utf8.DecodeRuneInString (String c rest)) as [r width] eqn:H.
  assert (1 <= width <= String.length (String c rest))%nat as Hw.
  { unfold utf8.DecodeRuneInString in H.
    destruct (utf8.first (byteZ c)) as [| | sz lo hi];
      repeat split_hyp_if; injection H as <- <-; simpl; lia. }
  simpl in *. split; intros; lia.
Qed.

End Utf8Facts.

(** ** filesystemSafeName *)

Section SafeNameFacts.

Lemma safeChar_class (c : ascii) : disruption.inSafeClass (byteZ c) = safeChar c.
Proof.
  unfold safeChar, disruption.inSafeClass. cbv zeta.
  destruct ((65 <=? byteZ c) && (byteZ c <=? 90)),
           ((97 <=? byteZ c) && (byteZ c <=? 122)); reflexivity.
Qed.

Lemma safeChar_ascii (c : ascii) : safeChar c = true -> byteZ c < 0x80.
Proof. unfold safeChar. cbv zeta. intros H. to_prop; lia. Qed.

Lemma unsafe_from_0x80 (r : Z) : 0x80 <= r -> disruption.inSafeClass r = false.
Proof.
  intros H. unfold disruption.inSafeClass.
  repeat (apply orb_false_iff; split); try apply andb_false_iff;
    rewrite ?Z.leb_gt, ?Z.eqb_neq; lia.
Qed.

Lemma replaceUnsafe_safe (fuel : nat) (s : string) :
  allSafe (disruption.replaceUnsafe fuel s) = true.
Proof.
  revert s; induction fuel as [|fuel IH]; intros [|c rest]; try reflexivity.
  cbn [disruption.replaceUnsafe].
  destruct (byteZ c <? utf8.RuneSelf) eqn:Hc.
  - destruct (disruption.inSafeClass (byteZ c)) eqn:Hs.
    + simpl. now rewrite <- safeChar_class, Hs, IH.
    + simpl. apply IH.
  - apply Z.ltb_ge in Hc.
    destruct (utf8.DecodeRuneInString (String c rest)) as [r width] eqn:Hd.
    assert (Hr : disruption.inSafeClass r = false).
    { destruct (decode_lead c rest r width Hc Hd) as [[-> _] | (_ & Hr & _)];
        [reflexivity | now apply unsafe_from_0x80]. }
    rewrite Hr. simpl. apply IH.
Qed.

Lemma skipUnderscores_safe (s : string) :
  allSafe s = true -> allSafe (disruption.skipUnderscores s) = true.
Proof.
  induction s as [|c s IH]; [reflexivity|]. simpl.
  intros H. apply andb_true_iff in H. destruct H as [Hc Hs].
  destruct (Ascii.eqb c disruption.underscore); [auto|].
  simpl. now rewrite Hc, Hs.
Qed.

Lemma replaceDuplicate_safe (fuel : nat) (s : string) :
  allSafe s = true -> allSafe (disruption.replaceDuplicate fuel s) = true.
Proof.
  revert s; induction fuel as [|fuel IH]; intros [|c rest]; try reflexivity.
  simpl. intros H. apply andb_true_iff in H. destruct H as [Hc Hs].
  destruct (Ascii.eqb c disruption.underscore); simpl.
  - apply IH, skipUnderscores_safe, Hs.
  - rewrite Hc. apply IH, Hs.
Qed.

Lemma skipUnderscores_start (s : string) :
  startsWithUnderscore (disruption.skipUnderscores s) = false.
Proof.
  induction s as [|c s IH]; [reflexivity|]. simpl.
  destruct (Ascii.eqb c disruption.underscore) eqn:E; [exact IH | exact E].
Qed.

Lemma replaceDuplicate_start (fuel : nat) (s : string) :
  startsWithUnderscore s = false ->
  startsWithUnderscore (disruption.replaceDuplicate fuel s) = false.
Proof.
  destruct fuel, s as [|c rest]; try reflexivity.
  simpl. intros E. now rewrite E.
Qed.

Lemma replaceDuplicate_single (fuel : nat) (s : string) :
  noDoubleUnderscore (disruption.replaceDuplicate fuel s) = true.
Proof.
  revert s; induction fuel as [|fuel IH]; intros [|c rest]; try reflexivity.
  simpl. destruct (Ascii.eqb c disruption.underscore) eqn:E.
  - cbn [noDoubleUnderscore].
    rewrite replaceDuplicate_start by apply skipUnderscores_start.
    rewrite andb_false_r. simpl. apply IH.
  - cbn [noDoubleUnderscore]. rewrite E. simpl. apply IH.
Qed.

Lemma replaceUnsafe_fixed (fuel : nat) (s : string) :
  (String.length s <= fuel)%nat -> allSafe s = true ->
  disruption.replaceUnsafe fuel s = s.
Proof.
  revert s; induction fuel as [|fuel IH]; intros [|c rest]; try reflexivity.
  - simpl. lia.
  - simpl String.length. intros Hl H. cbn [allSafe] in H.
    apply andb_true_iff in H. destruct H as [Hc Hs].
    cbn [disruption.replaceUnsafe].
    pose proof (safeChar_ascii c Hc) as Ha. apply Z.ltb_lt in Ha.
    unfold utf8.RuneSelf. rewrite Ha, safeChar_class, Hc. simpl.
    rewrite IH; [reflexivity | lia | exact Hs].
Qed.

Lemma skipUnderscores_fixed (s : string) :
  startsWithUnderscore s = false -> disruption.skipUnderscores s = s.
Proof. destruct s as [|c rest]; [reflexivity|]. simpl. now intros ->. Qed.

Lemma replaceDuplicate_fixed (fuel : nat) (s : string) :
  (String.length s <= fuel)%nat -> noDoubleUnderscore s = true ->
  disruption.replaceDuplicate fuel s = s.
Proof.
  revert s; induction fuel as [|fuel IH]; intros [|c rest]; try reflexivity.
  - simpl. lia.
  - simpl String.length. intros Hl H. cbn [noDoubleUnderscore] in H.
    apply andb_true_iff in H. destruct H as [Hc Hs].
    cbn [disruption.replaceDuplicate].
    destruct (Ascii.eqb_spec c disruption.underscore) as [-> | _]; simpl in Hc.
    + apply negb_true_iff in Hc. rewrite skipUnderscores_fixed by exact Hc.
      rewrite IH; [reflexivity | lia | exact Hs].
    + rewrite IH; [reflexivity | lia | exact Hs].
Qed.

(** C10.  A name that [filesystemSafeName] returns consists of the bytes
    A-Z, a-z, 1-9 and the underscore (the digit 0 is none of them: the name
    of "0" is "_"), it has no two underscores in a row, and
    [filesystemSafeName] returns it unchanged. *)
Theorem filesystemSafeName_safe_idempotent (s : string) :
  allSafe (disruption.filesystemSafeName s) = true
  /\ (safeChar "0" = false /\ disruption.filesystemSafeName "0" = "_")
  /\ noDoubleUnderscore (disruption.filesystemSafeName s) = true
  /\ disruption.filesystemSafeName (disruption.filesystemSafeName s)
     = disruption.filesystemSafeName s.
Proof.
  assert (Hsafe : allSafe (disruption.filesystemSafeName s) = true)
    by apply replaceDuplicate_safe, replaceUnsafe_safe.
  assert (Hsingle : noDoubleUnderscore (disruption.filesystemSafeName s) = true)
    by apply replaceDuplicate_single.
  repeat split; auto.
  set (t := disruption.filesystemSafeName s) in *.
  unfold disruption.filesystemSafeName at 1. cbv zeta.
  rewrite (replaceUnsafe_fixed _ t (le_n _) Hsafe).
  apply replaceDuplicate_fixed; auto.
Qed.

End SafeNameFacts.

(** ** Quoting, unquoting and the locators of end-to-end tests *)

Section StringFacts.

Lemma take_drop (n : nat) (s : string) : take n s ++ drop n s = s.
Proof.
  revert s; induction n as [|n IH]; intros [|c s]; simpl; try reflexivity.
  now rewrite IH.
Qed.

Lemma length_append (a b : string) :
  String.length (a ++ b) = (String.length a + String.length b)%nat.
Proof. induction a as [|c a IH]; simpl; [reflexivity | now rewrite IH]. Qed.

Lemma length_drop (n : nat) (s : string) :
  String.length (drop n s) = (String.length s - n)%nat.
Proof.
  revert s; induction n as [|n IH]; intros [|c s]; simpl; try reflexivity.
  apply IH.
Qed.

Lemma drop_app_length (a b : string) : drop (String.length a) (a ++ b) = b.
Proof. induction a as [|c a IH]; simpl; [now destruct b | exact IH]. Qed.

Lemma drop_app_exact (a b : string) (n : nat) :
  String.length a = n -> drop n (a ++ b) = b.
Proof. intros <-. apply drop_app_length. Qed.

Lemma drop_all (a : string) (n : nat) :
  (String.length a <= n)%nat -> drop n a = EmptyString.
Proof.
  revert a; induction n as [|n IH]; intros [|c a]; simpl; try reflexivity.
  - lia.
  - intros H. apply IH. lia.
Qed.

Lemma take_app_length (a b : string) : take (String.length a) (a ++ b) = a.
Proof.
  induction a as [|c a IH]; simpl; [now destruct b | now rewrite IH].
Qed.

Lemma take_app_more (a b : string) (n : nat) :
  take (String.length a + n) (a ++ b) = a ++ take n b.
Proof. induction a as [|c a IH]; simpl; [reflexivity | now rewrite IH]. Qed.

Lemma contains_app (a b : string) (c : ascii) :
  contains (a ++ b) c = contains a c || contains b c.
Proof.
  induction a as [|x a IH]; simpl; [reflexivity|].
  now rewrite IH, orb_assoc.
Qed.

Lemma indexByte_app (a b : string) (c : ascii) :
  contains a c = false ->
  indexByte (a ++ b) c
  = match indexByte b c with
    | Some i => Some (String.length a + i)%nat
    | None => None
    end.
Proof.
  induction a as [|x a IH]; simpl.
  - intros _. now destruct (indexByte b c).
  - intros H. apply orb_false_iff in H. destruct H as [Hx Ha].
    rewrite Hx, (IH Ha). now destruct (indexByte b c).
Qed.

End StringFacts.

Section HexFacts.

Lemma wrap32_small (z : Z) : - 2 ^ 31 <= z < 2 ^ 31 -> strconv.wrap32 z = z.
Proof.
  intros H. unfold strconv.wrap32.
  change (2 ^ 31) with 2147483648 in *. change (2 ^ 32) with 4294967296.
  rewrite Z.mod_small by lia. lia.
Qed.

Lemma unhex_lowerhex (d : Z) :
  0 <= d < 16 -> strconv.unhex (strconv.lowerhex d) = Some d.
Proof.
  intros H.
  assert (d = 0 \/ d = 1 \/ d = 2 \/ d = 3 \/ d = 4 \/ d = 5 \/ d = 6 \/ d = 7
          \/ d = 8 \/ d = 9 \/ d = 10 \/ d = 11 \/ d = 12 \/ d = 13 \/ d = 14
          \/ d = 15) as Hd by lia.
  repeat destruct Hd as [-> | Hd]; try subst d; reflexivity.
Qed.

Lemma unhexLoop_hexDigits (n : nat) (r v : Z) (X : string) :
  0 <= r -> 0 <= v ->
  v * 16 ^ Z.of_nat n + r mod 16 ^ Z.of_nat n < 2 ^ 31 ->
  strconv.unhexLoop n (strconv.hexDigits n r ++ X) v
  = Some (v * 16 ^ Z.of_nat n + r mod 16 ^ Z.of_nat n).
Proof.
  revert v; induction n as [|n IH]; intros v Hr Hv Hlt.
  - simpl. rewrite Z.mod_1_r. f_equal. lia.
  - cbn [strconv.hexDigits append strconv.unhexLoop].
    assert (Hp : 0 < 16 ^ Z.of_nat n) by (apply Z.pow_pos_nonneg; lia).
    assert (Hd : 0 <= (r / 16 ^ Z.of_nat n) mod 16 < 16)
      by (apply Z.mod_pos_bound; lia).
    assert (Hsplit : r mod 16 ^ Z.of_nat (S n)
                     = r mod 16 ^ Z.of_nat n
                       + 16 ^ Z.of_nat n * ((r / 16 ^ Z.of_nat n) mod 16)).
    { rewrite Nat2Z.inj_succ, Z.pow_succ_r by lia.
      rewrite (Z.mul_comm 16). apply Z.rem_mul_r; lia. }
    assert (Hpow : 16 ^ Z.of_nat (S n) = 16 * 16 ^ Z.of_nat n)
      by (rewrite Nat2Z.inj_succ, Z.pow_succ_r by lia; reflexivity).
    assert (Hm : 0 <= r mod 16 ^ Z.of_nat n) by (apply Z.mod_pos_bound; lia).
    rewrite unhex_lowerhex by exact Hd.
    rewrite Hsplit, Hpow in Hlt.
    rewrite wrap32_small by nia.
    rewrite IH by nia.
    f_equal. rewrite Hsplit, Hpow. ring.
Qed.

End HexFacts.

Section QuoteFacts.

Variable isPrintTable : Z -> bool.

Lemma quoteLoop_step (fuel : nat) (c : ascii) (rest : string) :
  strconv.quoteLoop isPrintTable (S fuel) (String c rest) dquote
  = quoteChunk isPrintTable c (fst (firstRune (String c rest)))
      (snd (firstRune (String c rest)))
    ++ strconv.quoteLoop isPrintTable fuel
         (drop (snd (firstRune (String c rest))) (String c rest)) dquote.
Proof.
  cbn [strconv.quoteLoop]. unfold firstRune, quoteChunk.
  destruct (utf8.RuneSelf <=? byteZ c);
    [destruct (utf8.DecodeRuneInString (String c rest)) as [r width]|];
    cbn [fst snd];
    match goal with
    | |- context [if ?b then _ else _] => destruct b
    end; reflexivity.
Qed.

Lemma chunk_ascii (c : ascii) (X : string) :
  byteZ c < 0x80 ->
  chunkOK (strconv.appendEscapedRune isPrintTable (byteZ c) dquote)
    (String c EmptyString) X.
Proof.
  intros H. unfold chunkOK.
  destruct c as [[] [] [] [] [] [] [] []];
    try (vm_compute in H; discriminate H);
    (eexists _, _, _, _;
     split; [vm_compute; reflexivity|];
     split; [reflexivity|]; split; [reflexivity|];
     split; [vm_compute; reflexivity|];
     split; [vm_compute; reflexivity|];
     split; [first [left; reflexivity | right; split; reflexivity]|];
     vm_compute; lia).
Qed.

Lemma UnquoteChar_x (s2 : string) :
  strconv.UnquoteChar (String backslash (String "x"%char s2)) dquote
  = if (String.length s2 <? 2)%nat then None else
    match strconv.unhexLoop 2 s2 0 with
    | None => None
    | Some v => Some (v, false, drop 2 s2)
    end.
Proof. reflexivity. Qed.

Lemma UnquoteChar_u (s2 : string) :
  strconv.UnquoteChar (String backslash (String "u"%char s2)) dquote
  = if (String.length s2 <? 4)%nat then None else
    match strconv.unhexLoop 4 s2 0 with
    | None => None
    | Some v => if utf8.ValidRune v then Some (v, true, drop 4 s2) else None
    end.
Proof. reflexivity. Qed.

Lemma UnquoteChar_U (s2 : string) :
  strconv.UnquoteChar (String backslash (String "U"%char s2)) dquote
  = if (String.length s2 <? 8)%nat then None else
    match strconv.unhexLoop 8 s2 0 with
    | None => None
    | Some v => if utf8.ValidRune v then Some (v, true, drop 8 s2) else None
    end.
Proof. reflexivity. Qed.

Lemma length_hexDigits (n : nat) (r : Z) :
  String.length (strconv.hexDigits n r) = n.
Proof. induction n as [|n IH]; simpl; [reflexivity | now rewrite IH]. Qed.

Lemma hex_byte (b : Z) :
  0 <= b < 256 ->
  String (strconv.lowerhex (b / 16))
    (String (strconv.lowerhex (b mod 16)) EmptyString)
  = strconv.hexDigits 2 b.
Proof.
  intros H. cbn [strconv.hexDigits]. change (16 ^ Z.of_nat 1) with 16.
  change (16 ^ Z.of_nat 0) with 1. rewrite Z.div_1_r.
  replace ((b / 16) mod 16) with (b / 16) by zdiv. reflexivity.
Qed.

(** A byte that starts no well-formed sequence is quoted as [\xNN]. *)
Lemma chunk_byte (c : ascii) (X : string) :
  chunkOK
    (String backslash (String "x"%char
       (String (strconv.lowerhex (byteZ c / 16))
          (String (strconv.lowerhex (byteZ c mod 16)) EmptyString))))
    (String c EmptyString) X.
Proof.
  pose proof (byteZ_range c) as Hc.
  exists (byteZ c), false, backslash. eexists.
  split; [reflexivity|]. split; [reflexivity|]. split; [reflexivity|].
  split; [|split; [|split; [now left | simpl; lia]]].
  - rewrite hex_byte by exact Hc.
    cbn [append]. rewrite UnquoteChar_x, length_append, length_hexDigits.
    cbn [Nat.ltb Nat.leb Nat.add].
    rewrite unhexLoop_hexDigits by (change (16 ^ Z.of_nat 2) with 256;
      change (2 ^ 31) with 2147483648; zdiv).
    change (16 ^ Z.of_nat 2) with 256.
    rewrite Z.mod_small by lia. cbn [Z.mul Z.add].
    now rewrite (drop_app_exact _ X _ (length_hexDigits 2 (byteZ c))).
  - unfold strconv.appendChar. rewrite orb_true_r. now rewrite Zbyte_byteZ.
Qed.

(** The bytes of a rune of several bytes are all from [0x80] on. *)
Lemma decode_high (c a : ascii) (rest : string) (r : Z) (width : nat) :
  0x80 <= byteZ c -> byteZ a < 0x80 ->
  utf8.DecodeRuneInString (String c rest) = (r, width) ->
  contains (take width (String c rest)) a = false.
Proof.
  intros Hc Ha H.
  unfold utf8.DecodeRuneInString, utf8.first in H.
  repeat split_hyp_if; injection H as <- <-; try bogus_size;
    unfold utf8.continuation in *; to_prop; simpl;
    rewrite ?eqb_byteZ;
    repeat match goal with
    | |- context [?x =? ?y] => destruct (Z.eqb_spec x y); [lia|]
    end; reflexivity.
Qed.

Lemma UnquoteChar_high (c : ascii) (T : string) :
  0x80 <= byteZ c ->
  strconv.UnquoteChar (String c T) dquote
  = Some (fst (utf8.DecodeRuneInString (String c T)), true,
          drop (snd (utf8.DecodeRuneInString (String c T))) (String c T)).
Proof.
  intros Hc. unfold strconv.UnquoteChar.
  rewrite (eqb_byteZ c dquote). change (byteZ dquote) with 34.
  destruct (Z.eqb_spec (byteZ c) 34); [lia|]. cbn [andb].
  unfold utf8.RuneSelf. destruct (Z.leb_spec 128 (byteZ c)); [|lia].
  now destruct (utf8.DecodeRuneInString (String c T)).
Qed.

Lemma ValidRune_range (r : Z) :
  utf8.ValidRune r = true ->
  0 <= r <= 0x10FFFF /\ ~ (0xD800 <= r <= 0xDFFF).
Proof.
  unfold utf8.ValidRune, utf8.surrogateMin, utf8.surrogateMax, utf8.MaxRune.
  intros H. to_prop; lia.
Qed.

(** A well-formed rune of several bytes is copied when it is printable and
    quoted as [\uNNNN] or [\UNNNNNNNN] when it is not. *)
Lemma chunk_rune (c : ascii) (rest X : string) (r : Z) (width : nat) :
  0x80 <= byteZ c ->
  utf8.DecodeRuneInString (String c rest) = (r, width) ->
  (2 <= width)%nat ->
  chunkOK (strconv.appendEscapedRune isPrintTable r dquote)
    (take width (String c rest)) X.
Proof.
  intros Hc Hd Hw.
  destruct (decode_lead c rest r width Hc Hd)
    as [[_ ->] | (Hv & Hr & _ & Henc & Hlen)]; [lia|].
  pose proof (ValidRune_range r Hv) as [Hrange Hsur].
  pose proof (decode_high c dquote rest r width Hc ltac:(vm_compute; reflexivity) Hd)
    as Hq.
  pose proof (decode_prefix c rest X r width Hc Hd Hw) as Hpre.
  assert (Happ : strconv.appendChar r true = take width (String c rest)).
  { unfold strconv.appendChar, utf8.RuneSelf.
    destruct (Z.ltb_spec r 128); [lia|]. exact Henc. }
  unfold strconv.appendEscapedRune.
  change (byteZ dquote) with 34. change (byteZ "\"%char) with 92.
  unfold utf8.MaxRune.
  repeat match goal with
  | |- context [r =? ?y] => destruct (Z.eqb_spec r y); [lia|]
  end.
  destruct (Z.ltb_spec r 32); [lia|].
  destruct (Z.ltb_spec 0x10FFFF r); [lia|].
  cbn [orb].
  destruct (strconv.IsPrint isPrintTable r) eqn:Hp.
  - (* printable: the bytes themselves *)
    rewrite Henc.
    destruct width as [|w]; [lia|]. cbn [take] in *.
    exists r, true, c, (take w rest).
    split; [reflexivity|].
    split; [rewrite eqb_byteZ; change (byteZ dquote) with 34;
            destruct (Z.eqb_spec (byteZ c) 34); [lia | reflexivity]|].
    split; [rewrite eqb_byteZ; change (byteZ newline) with 10;
            destruct (Z.eqb_spec (byteZ c) 10); [lia | reflexivity]|].
    split; [|split; [exact Happ | split; [right; split; [reflexivity | exact Hq] | lia]]].
    cbn [append] in *. rewrite UnquoteChar_high by exact Hc.
    rewrite Hpre. cbn [fst snd].
    change (String c (take w rest ++ X)) with (String c (take w rest) ++ X).
    now rewrite (drop_app_exact _ X _ Hlen).
  - destruct (Z.ltb_spec r 0x10000).
    + exists r, true, backslash. eexists.
      split; [reflexivity|]. split; [reflexivity|]. split; [reflexivity|].
      split; [|split; [exact Happ | split; [now left|]]].
      * cbn [append]. rewrite UnquoteChar_u, length_append, length_hexDigits.
        cbn [Nat.ltb Nat.leb Nat.add].
        rewrite unhexLoop_hexDigits by (change (16 ^ Z.of_nat 4) with 65536;
          change (2 ^ 31) with 2147483648; zdiv).
        change (16 ^ Z.of_nat 4) with 65536.
        rewrite Z.mod_small by lia. cbn [Z.mul Z.add]. rewrite Hv.
        now rewrite (drop_app_exact _ X _ (length_hexDigits 4 r)).
      * rewrite Hlen. cbn [append String.length]. rewrite length_hexDigits.
        assert (width <= 4)%nat; [|lia].
        pose proof (proj1 (decode_width (String c rest))) as Hle.
        rewrite Hd in Hle. cbn [snd] in Hle.
        unfold utf8.DecodeRuneInString in Hd.
        destruct (utf8.first (byteZ c)); repeat split_hyp_if;
          injection Hd as <- <-; lia.
    + exists r, true, backslash. eexists.
      split; [reflexivity|]. split; [reflexivity|]. split; [reflexivity|].
      split; [|split; [exact Happ | split; [now left|]]].
      * cbn [append]. rewrite UnquoteChar_U, length_append, length_hexDigits.
        cbn [Nat.ltb Nat.leb Nat.add].
        rewrite unhexLoop_hexDigits by (change (16 ^ Z.of_nat 8) with 4294967296;
          change (2 ^ 31) with 2147483648; zdiv).
        change (16 ^ Z.of_nat 8) with 4294967296.
        rewrite Z.mod_small by lia. cbn [Z.mul Z.add]. rewrite Hv.
        now rewrite (drop_app_exact _ X _ (length_hexDigits 8 r)).
      * rewrite Hlen. cbn [append String.length]. rewrite length_hexDigits.
        assert (width <= 4)%nat; [|lia].
        unfold utf8.DecodeRuneInString in Hd.
        destruct (utf8.first (byteZ c)); repeat split_hyp_if;
          injection Hd as <- <-; lia.
Qed.

(** Every step of the quoting loop appends a chunk that [UnquoteChar] reads
    back as the bytes of the rune. *)
Lemma chunk_first (c : ascii) (rest X : string) :
  let s := String c rest in
  chunkOK (quoteChunk isPrintTable c (fst (firstRune s)) (snd (firstRune s)))
    (take (snd (firstRune s)) s) X
  /\ (1 <= snd (firstRune s) <= String.length s)%nat.
Proof.
  cbv zeta. unfold firstRune, utf8.RuneSelf.
  destruct (Z.leb_spec 128 (byteZ c)) as [Hc | Hc].
  - destruct (utf8.DecodeRuneInString (String c rest)) as [r width] eqn:Hd.
    pose proof (decode_width (String c rest)) as [Hle Hge].
    rewrite Hd in Hle, Hge. cbn [fst snd] in *.
    specialize (Hge ltac:(discriminate)).
    split; [|lia].
    destruct (decode_lead c rest r width Hc Hd)
      as [[-> ->] | (_ & _ & Hw & _)].
    + unfold quoteChunk. cbn [take Nat.eqb andb].
      change (utf8.RuneError =? utf8.RuneError) with true. cbv iota.
      apply chunk_byte.
    + unfold quoteChunk.
      destruct (Nat.eqb_spec width 1); [lia|]. cbn [andb].
      now apply chunk_rune.
  - cbn [fst snd]. split; [|simpl; lia].
    unfold quoteChunk. cbn [Nat.eqb andb take].
    unfold utf8.RuneError. destruct (Z.eqb_spec (byteZ c) 0xFFFD); [lia|].
    apply chunk_ascii. lia.
Qed.

(** The quoted form is at least as long as the string. *)
Lemma quoteLoop_length (fuel : nat) (s : string) :
  (String.length s <= fuel)%nat ->
  (String.length s
   <= String.length (strconv.quoteLoop isPrintTable fuel s dquote))%nat.
Proof.
  revert s; induction fuel as [|fuel IH]; intros [|c rest] Hl;
    try (simpl in *; lia).
  rewrite quoteLoop_step, length_append.
  destruct (chunk_first c rest EmptyString)
    as [(v & mb & h & T & _ & _ & _ & _ & _ & _ & Hlen) Hw].
  set (w := snd (firstRune (String c rest))) in *.
  assert (Hfuel : (String.length (drop w (String c rest)) <= fuel)%nat)
    by (rewrite length_drop; cbn [String.length] in *; lia).
  specialize (IH _ Hfuel).
  pose proof (take_drop w (String c rest)) as Htd.
  apply (f_equal String.length) in Htd. rewrite length_append in Htd.
  lia.
Qed.

(** The unquoting loop reads a quoted string back, up to the closing
    quote. *)
Lemma unquoteLoop_quoteLoop (fuel : nat) :
  forall (s : string) (fuel' : nat) (buf R : string),
    (String.length s <= fuel)%nat -> (String.length s <= fuel')%nat ->
    strconv.unquoteLoop fuel'
      (strconv.quoteLoop isPrintTable fuel s dquote ++ String dquote R)
      dquote buf
    = Some (buf ++ s, String dquote R).
Proof.
  induction fuel as [|fuel IH]; intros [|c rest] fuel' buf R Hl Hl';
    try (simpl in Hl; lia).
  - simpl. destruct fuel'; now rewrite append_nil_r.
  - simpl. destruct fuel'; now rewrite append_nil_r.
  - rewrite quoteLoop_step.
    set (w := snd (firstRune (String c rest))) in *.
    set (r := fst (firstRune (String c rest))) in *.
    set (Y := strconv.quoteLoop isPrintTable fuel (drop w (String c rest)) dquote
              ++ String dquote R).
    destruct (chunk_first c rest Y)
      as [(v & mb & h & T & Hchunk & Hq & Hn & Hu & Happ & _ & _) Hw].
    fold w r in Hchunk, Hu, Happ, Hw.
    rewrite append_assoc. fold Y.
    destruct fuel' as [|fuel']; [simpl in Hl'; lia|].
    assert (Hhead : quoteChunk isPrintTable c r w ++ Y = String h (T ++ Y))
      by (now rewrite Hchunk).
    rewrite Hhead. cbn [strconv.unquoteLoop]. rewrite Hq.
    rewrite <- Hhead, Hu. fold newline. rewrite Hn.
    change (Ascii.eqb dquote "'"%char) with false. cbv iota.
    unfold Y. rewrite IH.
    + rewrite Happ, append_assoc, take_drop. reflexivity.
    + rewrite length_drop. cbn [String.length] in *. lia.
    + rewrite length_drop. cbn [String.length] in *. lia.
Qed.

(** Up to the first quote of a quoted string there is a backslash, unless
    that quote is the closing one and the string was copied as it is. *)
Lemma first_quote (fuel : nat) :
  forall (s R : string) (i : nat),
    (String.length s <= fuel)%nat ->
    let body := strconv.quoteLoop isPrintTable fuel s dquote in
    indexByte (body ++ String dquote R) dquote = Some i ->
    contains (take (i + 1) (body ++ String dquote R)) backslash = false ->
    i = String.length body /\ body = s.
Proof.
  induction fuel as [|fuel IH]; intros [|c rest] R i Hl; cbv zeta;
    try (simpl in Hl; lia).
  - simpl. intros [= <-] _. now split.
  - simpl. intros [= <-] _. now split.
  - rewrite quoteLoop_step.
    set (w := snd (firstRune (String c rest))) in *.
    set (r := fst (firstRune (String c rest))) in *.
    set (body' := strconv.quoteLoop isPrintTable fuel (drop w (String c rest)) dquote).
    destruct (chunk_first c rest EmptyString)
      as [(v & mb & h & T & Hchunk & _ & _ & _ & _ & Hclass & _) Hw].
    fold w r in Hchunk, Hclass, Hw.
    rewrite append_assoc.
    destruct Hclass as [-> | [Hcopy Hnq]].
    + (* an escape: the backslash comes first *)
      rewrite Hchunk. intros _. rewrite Nat.add_1_r. simpl. discriminate.
    + rewrite (indexByte_app _ _ _ Hnq).
      destruct (indexByte (body' ++ String dquote R) dquote) as [i'|] eqn:Hi;
        [|discriminate].
      intros [= <-]. rewrite <- Nat.add_assoc, take_app_more, contains_app.
      intros Hb. apply orb_false_iff in Hb. destruct Hb as [_ Hb].
      destruct (IH (drop w (String c rest)) R i'
                  ltac:(rewrite length_drop; cbn [String.length] in *; lia) Hi Hb)
        as [-> Hbody].
      fold body' in Hbody. split.
      * now rewrite length_append.
      * rewrite Hbody, Hcopy. apply take_drop.
Qed.

Lemma indexByte_found (t : string) (c : ascii) :
  contains t c = true -> exists i, indexByte t c = Some i.
Proof.
  induction t as [|a t IH]; simpl; [discriminate|].
  destruct (Ascii.eqb a c); [now exists O|]. simpl.
  intros H. destruct (IH H) as [i ->]. now exists (S i).
Qed.

(** [unquote] on a string that opens with a double quote. *)
Lemma unquote_dquote (t : string) (i : nat) :
  indexByte t dquote = Some i ->
  strconv.unquote (String dquote t)
  = if negb (contains (String dquote (take (i + 1) t)) backslash)
       && negb (contains (String dquote (take (i + 1) t)) newline)
       && utf8.ValidString (take i t)
    then Some (take i t, drop (i + 1) t)
    else
      match strconv.unquoteLoop (String.length t) t dquote EmptyString with
      | None => None
      | Some (buf, rest) =>
        match rest with
        | String c rest' =>
          if Ascii.eqb c dquote then Some (buf, rest') else None
        | EmptyString => None
        end
      end.
Proof.
  intros Hi. unfold strconv.unquote. rewrite Hi.
  destruct t as [|a t]; [discriminate|].
  replace (i + 2 - 1)%nat with (S i) by lia.
  replace (i + 2)%nat with (S (i + 1)) by lia.
  replace (S i) with (i + 1)%nat at 1 by lia.
  change (String.length (String dquote (String a t)) <? 2)%nat with false.
  change (Ascii.eqb dquote "`"%char) with false.
  change (Ascii.eqb dquote dquote) with true.
  cbv iota. cbn [orb].
  change (drop 1 (take (i + 1) (String dquote (String a t))))
    with (drop 1 (take (i + 1) (String dquote (String a t)))).
  replace (drop 1 (take (S i) (String dquote (String a t))))
    with (take i (String a t)) by reflexivity.
  reflexivity.
Qed.

(** [Unquote] undoes [Quote]. *)
Lemma Unquote_Quote (s : string) :
  strconv.Unquote (strconv.Quote isPrintTable s) = Some s.
Proof.
  unfold strconv.Unquote, strconv.Quote.
  set (body := strconv.quoteLoop isPrintTable (String.length s) s dquote).
  set (t := body ++ String dquote EmptyString).
  destruct (indexByte_found t dquote) as [i Hi].
  { unfold t. rewrite contains_app. simpl.
    change (Ascii.eqb dquote dquote) with true. now rewrite orb_true_r. }
  rewrite (unquote_dquote t i Hi).
  match goal with
  | |- context [if ?b then _ else _] => destruct b eqn:Hfast
  end.
  - apply andb_true_iff in Hfast. destruct Hfast as [Hfast _].
    apply andb_true_iff in Hfast. destruct Hfast as [Hb _].
    apply negb_true_iff in Hb. cbn [contains] in Hb.
    change (Ascii.eqb dquote backslash) with false in Hb. cbn [orb] in Hb.
    destruct (first_quote (String.length s) s EmptyString i (le_n _) Hi Hb)
      as [-> Hbody].
    fold body in Hbody |- *. unfold t.
    rewrite take_app_length, drop_all
      by (rewrite length_append; reflexivity).
    now rewrite Hbody.
  - unfold t, body. rewrite unquoteLoop_quoteLoop.
    + change (Ascii.eqb dquote dquote) with true. reflexivity.
    + apply le_n.
    + rewrite length_append. pose proof (quoteLoop_length _ s (le_n _)). lia.
Qed.

(** [strings.HasPrefix] is being a prefix. *)
Lemma HasPrefix_iff (s prefix : string) :
  strings.HasPrefix s prefix = true <-> exists suffix, s = prefix ++ suffix.
Proof.
  revert s; induction prefix as [|a p IH]; intros s.
  - split; [intros _; now exists s | intros _; now destruct s].
  - destruct s as [|b s]; cbn [strings.HasPrefix append].
    + split; [discriminate | intros [suffix H]; discriminate].
    + rewrite andb_true_iff, IH. split.
      * intros [Hab [suffix ->]]. apply Ascii.eqb_eq in Hab. subst b.
        now exists suffix.
      * intros [suffix [= -> ->]]. split; [apply Ascii.eqb_refl | now exists suffix].
Qed.

(** What [E2ETestFromLocator] returns for a locator with the prefix. *)
Lemma E2ETestFromLocator_prefixed (suffix : string) :
  monitorapi.E2ETestFromLocator ("e2e-test/" ++ suffix)
  = match strconv.Unquote suffix with
    | None => Ok (EmptyString, false)
    | Some testName => Ok (testName, true)
    end.
Proof. reflexivity. Qed.

(** C9.  [E2ETestFromLocator] returns the test name that [E2ETestLocator]
    was given, with [true], and [IsE2ETest] accepts the locator.  On a string
    without the prefix "e2e-test/", and on one whose part after the prefix
    [strconv.Unquote] rejects, [E2ETestFromLocator] returns the empty string
    and [false].  It never panics. *)
Theorem E2ETestLocator_roundtrip (testName : string) :
  monitorapi.E2ETestFromLocator (monitorapi.E2ETestLocator isPrintTable testName)
  = Ok (testName, true)
  /\ monitorapi.IsE2ETest (monitorapi.E2ETestLocator isPrintTable testName)
     = Ok true
  /\ (forall locator,
        strings.HasPrefix locator "e2e-test/" = false ->
        monitorapi.E2ETestFromLocator locator = Ok (EmptyString, false))
  /\ (forall suffix,
        strconv.Unquote suffix = None ->
        monitorapi.E2ETestFromLocator ("e2e-test/" ++ suffix)
        = Ok (EmptyString, false))
  /\ (forall locator msg, monitorapi.E2ETestFromLocator locator <> Panic msg).
Proof.
  assert (Hround : monitorapi.E2ETestFromLocator
                     (monitorapi.E2ETestLocator isPrintTable testName)
                   = Ok (testName, true)).
  { unfold monitorapi.E2ETestLocator.
    now rewrite E2ETestFromLocator_prefixed, Unquote_Quote. }
  split; [exact Hround|]. split; [|split; [|split]].
  - unfold monitorapi.IsE2ETest. now rewrite Hround.
  - intros locator H. unfold monitorapi.E2ETestFromLocator. now rewrite H.
  - intros suffix H. now rewrite E2ETestFromLocator_prefixed, H.
  - intros locator msg.
    destruct (strings.HasPrefix locator "e2e-test/") eqn:H.
    + apply HasPrefix_iff in H. destruct H as [suffix ->].
      rewrite E2ETestFromLocator_prefixed.
      destruct (strconv.Unquote suffix); discriminate.
    + unfold monitorapi.E2ETestFromLocator. rewrite H. discriminate.
Qed.

End QuoteFacts.

(** ** Write errors on a concrete file system *)

(** C7 as the specification states it does not hold: creating the JUnit XML
    file meets an error, and the deferred function of runChaosmonkey writes
    nothing to standard error and logs nothing. *)
Lemma junit_create_error_not_logged :
  let out :=
    disruption.finishSuite "/tmp/artifacts" readOnly joinPath unixSeconds
      (fun _ => "<testsuite/>") 0 (7 * time.Second) (8 * time.Second)
      upgradeSuite quietWorld in
  readOnly (disruption.junitPath "/tmp/artifacts" joinPath unixSeconds
              "upgrade" (8 * time.Second))
  = Some "permission denied"
  /\ disruption.stderr (snd out) = []
  /\ disruption.logged (snd out) = [].
Proof. repeat split. Qed.

(** A flake summary that cannot be written: standard error holds the one
    line of line 217. *)
Lemma summary_write_error_example :
  let path :=
    disruption.summaryPath "/tmp/artifacts" joinPath itoa
      (disruption.flakeSummary "disrupted") "upgrade" 8 in
  disruption.stderr
    (snd (disruption.writeSummaries "/tmp/artifacts" readOnly joinPath itoa
            (fun _ => "[]") 8 "upgrade" [disruption.flakeSummary "disrupted"]
            [] quietWorld))
  = [disruption.writeFailed path "permission denied"].
Proof.
  cbv zeta.
  rewrite (proj1 (proj2 (report_write_errors_not_escalated
                           (fun _ => true) "/tmp/artifacts" readOnly joinPath
                           itoa unixSeconds (fun _ => EmptyString)
                           (fun _ => "[]") (fun _ => "<testsuite/>")))
             8 "upgrade" (disruption.flakeSummary "disrupted") [] []
             quietWorld "permission denied" eq_refl eq_refl).
  reflexivity.
Defined.

(** ** Locators (identification.go) *)

Section SplitFacts.

Local Open Scope list_scope.

Variable c : ascii.

Local Abbreviation sep := (String c EmptyString).

Lemma Index_byte (s : string) : strings.Index s sep = indexByte s c.
Proof.
  induction s as [|a s IH]; [reflexivity|].
  cbn [strings.Index strings.HasPrefix indexByte].
  rewrite andb_true_r, IH, (Ascii.eqb_sym c a).
  now destruct (Ascii.eqb a c).
Qed.

Lemma indexByte_split (s : string) (m : nat) :
  indexByte s c = Some m ->
  s = (untilByte c s ++ String c (afterByte c s))%string
  /\ take m s = untilByte c s
  /\ drop (m + 1) s = afterByte c s
  /\ countByte c s = S (countByte c (afterByte c s))
  /\ (String.length (afterByte c s) < String.length s)%nat.
Proof.
  revert m; induction s as [|a s IH]; intros m; simpl; [discriminate|].
  destruct (Ascii.eqb_spec a c) as [-> | Hne].
  - intros [= <-]. simpl. repeat split; auto.
  - destruct (indexByte s c) as [i|] eqn:Hi; [|discriminate].
    intros [= <-]. destruct (IH i eq_refl) as (H1 & H2 & H3 & H4 & H5).
    simpl. rewrite H2, H3, <- H1. repeat split; auto; lia.
Qed.

Lemma indexByte_none (s : string) :
  indexByte s c = None ->
  untilByte c s = s /\ afterByte c s = EmptyString /\ countByte c s = O
  /\ splitByte c s = [s].
Proof.
  induction s as [|a s IH]; simpl; [auto|].
  destruct (Ascii.eqb a c); [discriminate|].
  destruct (indexByte s c); [discriminate|]. intros _.
  destruct (IH eq_refl) as (H1 & H2 & H3 & H4).
  now rewrite H1, H2, H3, H4.
Qed.

Lemma splitByte_cut (s : string) (m : nat) :
  indexByte s c = Some m ->
  splitByte c s = untilByte c s :: splitByte c (afterByte c s).
Proof.
  revert m; induction s as [|a s IH]; intros m; simpl; [discriminate|].
  destruct (Ascii.eqb a c); [reflexivity|].
  destruct (indexByte s c) as [i|]; [|discriminate]. intros _.
  now rewrite (IH i eq_refl).
Qed.

Lemma countLoop_byte (fuel : nat) :
  forall s, (String.length s <= fuel)%nat ->
            strings.countLoop fuel s sep = countByte c s.
Proof.
  induction fuel as [|fuel IH]; intros s Hlen.
  - destruct s; [reflexivity | simpl in Hlen; lia].
  - cbn [strings.countLoop]. rewrite Index_byte.
    destruct (indexByte s c) as [m|] eqn:Hm.
    + destruct (indexByte_split s m Hm) as (_ & _ & Hd & Hc & Hl).
      cbn [String.length]. rewrite Hd, Hc, IH; [reflexivity | lia].
    + now destruct (indexByte_none s Hm) as (_ & _ & -> & _).
Qed.

Lemma genSplit_byte (n : nat) :
  forall s, (countByte c s <= n)%nat -> strings.genSplit s sep n = splitByte c s.
Proof.
  induction n as [|n IH]; intros s Hn.
  - cbn [strings.genSplit].
    destruct (indexByte s c) as [m|] eqn:Hm.
    + destruct (indexByte_split s m Hm) as (_ & _ & _ & Hc & _). lia.
    + now destruct (indexByte_none s Hm) as (_ & _ & _ & ->).
  - cbn [strings.genSplit]. rewrite Index_byte.
    destruct (indexByte s c) as [m|] eqn:Hm.
    + destruct (indexByte_split s m Hm) as (_ & Ht & Hd & Hc & _).
      cbn [String.length]. rewrite Ht, Hd, IH by lia.
      symmetry. exact (splitByte_cut s m Hm).
    + now destruct (indexByte_none s Hm) as (_ & _ & _ & ->).
Qed.

Lemma Split_byte (s : string) : strings.Split s sep = splitByte c s.
Proof.
  unfold strings.Split, strings.Count.
  rewrite countLoop_byte by lia. now apply genSplit_byte.
Qed.

(** The first piece of a split in two. *)
Lemma genSplit_one (s : string) :
  strings.genSplit s sep 1
  = if contains s c then [untilByte c s; afterByte c s] else [s].
Proof.
  cbn [strings.genSplit]. rewrite Index_byte.
  destruct (indexByte s c) as [m|] eqn:Hm.
  - destruct (indexByte_split s m Hm) as (Hs & Ht & Hd & _ & _).
    cbn [String.length]. rewrite Ht, Hd.
    replace (contains s c) with true; [reflexivity|].
    rewrite Hs at 1. rewrite contains_app. simpl.
    rewrite Ascii.eqb_refl. now rewrite orb_true_r.
  - replace (contains s c) with false; [reflexivity|].
    destruct (contains s c) eqn:E; [|reflexivity].
    destruct (indexByte_found s c E) as [i Hi]. congruence.
Qed.

Lemma untilByte_none (s : string) : contains s c = false -> untilByte c s = s.
Proof.
  induction s as [|a s IH]; simpl; [reflexivity|].
  destruct (Ascii.eqb a c); [discriminate|]. simpl. intros H. now rewrite IH.
Qed.

Lemma untilByte_app (a b : string) :
  contains a c = false -> untilByte c (a ++ String c b) = a.
Proof.
  induction a as [|x a IH]; simpl.
  - now rewrite Ascii.eqb_refl.
  - destruct (Ascii.eqb x c); [discriminate|]. simpl. intros H. now rewrite IH.
Qed.

Lemma afterByte_none (s : string) :
  contains s c = false -> afterByte c s = EmptyString.
Proof.
  induction s as [|a s IH]; simpl; [reflexivity|].
  destruct (Ascii.eqb a c); [discriminate|]. exact IH.
Qed.

Lemma afterByte_app (a b : string) :
  contains a c = false -> afterByte c (a ++ String c b) = b.
Proof.
  induction a as [|x a IH]; simpl.
  - now rewrite Ascii.eqb_refl.
  - destruct (Ascii.eqb x c); [discriminate|]. exact IH.
Qed.

Lemma splitByte_nonempty (s : string) : splitByte c s <> [].
Proof.
  induction s as [|a s IH]; simpl; [discriminate|].
  destruct (Ascii.eqb a c); [discriminate|].
  destruct (splitByte c s); discriminate.
Qed.

Lemma splitByte_none (s : string) : contains s c = false -> splitByte c s = [s].
Proof.
  induction s as [|a s IH]; simpl; [reflexivity|].
  destruct (Ascii.eqb a c); [discriminate|]. simpl. intros H. now rewrite IH.
Qed.

Lemma splitByte_app (a b : string) :
  splitByte c (a ++ String c b) = splitByte c a ++ splitByte c b.
Proof.
  induction a as [|x a IH]; simpl.
  - now rewrite Ascii.eqb_refl.
  - destruct (Ascii.eqb x c); [now rewrite IH|].
    rewrite IH. pose proof (splitByte_nonempty a).
    now destruct (splitByte c a).
Qed.

End SplitFacts.

Section MapFacts.

Local Open Scope list_scope.

Context {V : Type}.

Lemma get_set_same (m : gomap.t V) (k : string) (v : V) :
  gomap.get (gomap.set m k v) k = Some v.
Proof.
  induction m as [|[k' v'] m IH]; simpl.
  - now rewrite String.eqb_refl.
  - destruct (String.eqb k' k) eqn:E; simpl.
    + now rewrite String.eqb_refl.
    + now rewrite E.
Qed.

Lemma get_set_other (m : gomap.t V) (k k' : string) (v : V) :
  k <> k' -> gomap.get (gomap.set m k v) k' = gomap.get m k'.
Proof.
  intros Hne. induction m as [|[k0 v0] m IH]; simpl.
  - destruct (String.eqb_spec k k'); [contradiction | reflexivity].
  - destruct (String.eqb_spec k0 k) as [-> | H0]; simpl.
    + destruct (String.eqb_spec k k'); [contradiction | reflexivity].
    + destruct (String.eqb k0 k'); [reflexivity | exact IH].
Qed.

Lemma get_set (m : gomap.t V) (k k' : string) (v : V) :
  gomap.get (gomap.set m k v) k'
  = if String.eqb k k' then Some v else gomap.get m k'.
Proof.
  destruct (String.eqb_spec k k') as [<- | Hne].
  - apply get_set_same.
  - now apply get_set_other.
Qed.

End MapFacts.

Section LocatorFacts.

Local Open Scope list_scope.

Lemma SplitN_two (s : string) (c : ascii) :
  strings.SplitN s (String c EmptyString) 2
  = if contains s c then [untilByte c s; afterByte c s] else [s].
Proof. apply genSplit_one. Qed.

Lemma SplitN_two_head (s : string) (c : ascii) :
  nth_error (strings.SplitN s (String c EmptyString) 2) 0 = Some (untilByte c s).
Proof.
  rewrite SplitN_two. destruct (contains s c) eqn:E; [reflexivity|].
  simpl. now rewrite untilByte_none.
Qed.

Lemma NodeFromLocator_prefixed (s : string) :
  monitorapi.NodeFromLocator ("node/" ++ s) = Ok (untilByte space s, true).
Proof.
  unfold monitorapi.NodeFromLocator.
  change (strings.HasPrefix ("node/" ++ s) "node/") with true.
  change (strings.TrimPrefix ("node/" ++ s) "node/") with s.
  cbn [negb]. unfold space. now rewrite SplitN_two_head.
Qed.

Lemma OperatorFromLocator_prefixed (s : string) :
  monitorapi.OperatorFromLocator ("clusteroperator/" ++ s)
  = Ok (untilByte space s, true).
Proof.
  unfold monitorapi.OperatorFromLocator.
  change (strings.HasPrefix ("clusteroperator/" ++ s) "clusteroperator/") with true.
  change (strings.TrimPrefix ("clusteroperator/" ++ s) "clusteroperator/") with s.
  cbn [negb]. unfold space. now rewrite SplitN_two_head.
Qed.

Lemma HasPrefix_app (prefix s : string) :
  strings.HasPrefix s prefix = true ->
  s = (prefix ++ drop (String.length prefix) s)%string.
Proof.
  revert s; induction prefix as [|a p IH]; intros s; [reflexivity|].
  destruct s as [|b s]; cbn [strings.HasPrefix]; [discriminate|].
  intros H. apply andb_true_iff in H. destruct H as [Hab Hp].
  apply Ascii.eqb_eq in Hab. subst b. simpl. now rewrite <- IH.
Qed.

(** A name is read back from the locator of a node up to its first space. *)
Lemma NodeFromLocator_cases (locator : string) :
  monitorapi.NodeFromLocator locator
  = if strings.HasPrefix locator "node/"
    then Ok (untilByte space (drop 5 locator), true)
    else Ok (EmptyString, false).
Proof.
  destruct (strings.HasPrefix locator "node/") eqn:E.
  - rewrite (HasPrefix_app _ _ E) at 1. apply NodeFromLocator_prefixed.
  - unfold monitorapi.NodeFromLocator. now rewrite E.
Qed.

Lemma OperatorFromLocator_cases (locator : string) :
  monitorapi.OperatorFromLocator locator
  = if strings.HasPrefix locator "clusteroperator/"
    then Ok (untilByte space (drop 16 locator), true)
    else Ok (EmptyString, false).
Proof.
  destruct (strings.HasPrefix locator "clusteroperator/") eqn:E.
  - rewrite (HasPrefix_app _ _ E) at 1. apply OperatorFromLocator_prefixed.
  - unfold monitorapi.OperatorFromLocator. now rewrite E.
Qed.

Lemma E2ETestFromLocator_cases (locator : string) :
  monitorapi.E2ETestFromLocator locator
  = if strings.HasPrefix locator "e2e-test/"
    then match strconv.Unquote (drop 9 locator) with
         | None => Ok (EmptyString, false)
         | Some testName => Ok (testName, true)
         end
    else Ok (EmptyString, false).
Proof.
  destruct (strings.HasPrefix locator "e2e-test/") eqn:E.
  - rewrite (HasPrefix_app _ _ E) at 1. apply E2ETestFromLocator_prefixed.
  - unfold monitorapi.E2ETestFromLocator. now rewrite E.
Qed.

Lemma prefixes_differ (locator : string) :
  (strings.HasPrefix locator "e2e-test/" = true ->
   strings.HasPrefix locator "node/" = false
   /\ strings.HasPrefix locator "clusteroperator/" = false)
  /\ (strings.HasPrefix locator "node/" = true ->
      strings.HasPrefix locator "clusteroperator/" = false).
Proof.
  destruct locator as [|b s]; cbn [strings.HasPrefix]; [split; discriminate|].
  split.
  - intros H. apply andb_true_iff in H. destruct H as [H _].
    apply Ascii.eqb_eq in H. subst b. split; reflexivity.
  - intros H. apply andb_true_iff in H. destruct H as [H _].
    apply Ascii.eqb_eq in H. subst b. reflexivity.
Qed.

End LocatorFacts.

Section PartsFacts.

Local Open Scope list_scope.

Lemma addTag_Ok (parts : gomap.t string) (tag : string) :
  monitorapi.addTag (Ok parts) tag = Ok (setTag parts tag).
Proof.
  unfold monitorapi.addTag, setTag, tagKey, tagValue, slash.
  change "/"%string with (String "/"%char EmptyString).
  rewrite SplitN_two. destruct (contains tag "/") eqn:E; [reflexivity|].
  now rewrite untilByte_none, afterByte_none.
Qed.

Lemma fold_addTag (tags : list string) (parts : gomap.t string) :
  fold_left monitorapi.addTag tags (Ok parts) = Ok (fold_left setTag tags parts).
Proof.
  revert parts; induction tags as [|tag tags IH]; intros parts;
    cbn [fold_left].
  - reflexivity.
  - now rewrite addTag_Ok, IH.
Qed.

Lemma get_fold_setTag (tags : list string) (parts : gomap.t string) (k : string) :
  gomap.get (fold_left setTag tags parts) k
  = match lastTag k tags with
    | Some v => Some v
    | None => gomap.get parts k
    end.
Proof.
  revert parts; induction tags as [|tag tags IH]; intros parts;
    cbn [fold_left lastTag].
  - reflexivity.
  - rewrite IH. destruct (lastTag k tags); [reflexivity|].
    unfold setTag. rewrite get_set.
    now destruct (String.eqb (tagKey tag) k).
Qed.

Lemma LocatorParts_tags (locator : string) :
  monitorapi.LocatorParts locator
  = Ok (fold_left setTag (tagsOf locator) gomap.empty).
Proof.
  unfold monitorapi.LocatorParts, tagsOf, space.
  change " "%string with (String " "%char EmptyString).
  now rewrite Split_byte, fold_addTag.
Qed.

Lemma tagsOf_app (a b : string) :
  tagsOf (a ++ " " ++ b) = tagsOf a ++ tagsOf b.
Proof. apply splitByte_app. Qed.

Lemma lastTag_app (k : string) (xs ys : list string) :
  lastTag k (xs ++ ys)
  = match lastTag k ys with Some v => Some v | None => lastTag k xs end.
Proof.
  induction xs as [|x xs IH]; simpl.
  - now destruct (lastTag k ys).
  - rewrite IH. now destruct (lastTag k ys).
Qed.

End PartsFacts.

(** X2.  The locators of nodes and of cluster operators: a name without a space
    is read back from its locator, also when more tags follow it; a name
    with a space is not (what follows the space is lost); a locator that
    does not begin with the prefix names nothing. *)
Theorem node_and_operator_locators_roundtrip :
  (forall name,
      monitorapi.NodeFromLocator (monitorapi.NodeLocator name) = Ok (name, true)
      <-> contains name space = false)
  /\ (forall name rest,
         contains name space = false ->
         monitorapi.NodeFromLocator (monitorapi.NodeLocator name ++ " " ++ rest)
         = Ok (name, true))
  /\ (forall locator,
         strings.HasPrefix locator "node/" = false ->
         monitorapi.NodeFromLocator locator = Ok (EmptyString, false))
  /\ (forall name,
         monitorapi.OperatorFromLocator (monitorapi.OperatorLocator name)
         = Ok (name, true)
         <-> contains name space = false)
  /\ (forall name rest,
         contains name space = false ->
         monitorapi.OperatorFromLocator
           (monitorapi.OperatorLocator name ++ " " ++ rest)
         = Ok (name, true))
  /\ (forall locator,
         strings.HasPrefix locator "clusteroperator/" = false ->
         monitorapi.OperatorFromLocator locator = Ok (EmptyString, false)).
Proof.
  assert (Hcut : forall name, untilByte space name = name
                              <-> contains name space = false).
  { intros name. split; [|apply untilByte_none].
    induction name as [|a s IH]; simpl; [reflexivity|].
    destruct (Ascii.eqb a space); [discriminate|].
    intros [= H]. now apply IH. }
  split; [|split; [|split; [|split; [|split]]]].
  - intros name. unfold monitorapi.NodeLocator.
    rewrite NodeFromLocator_prefixed. split.
    + intros [= H]. now apply Hcut.
    + intros H. apply Hcut in H. now rewrite H.
  - intros name rest Hname. unfold monitorapi.NodeLocator.
    rewrite append_assoc, NodeFromLocator_prefixed.
    change (name ++ " " ++ rest)%string with (name ++ String space rest)%string.
    now rewrite untilByte_app.
  - intros locator H. rewrite NodeFromLocator_cases. now rewrite H.
  - intros name. unfold monitorapi.OperatorLocator.
    rewrite OperatorFromLocator_prefixed. split.
    + intros [= H]. now apply Hcut.
    + intros H. apply Hcut in H. now rewrite H.
  - intros name rest Hname. unfold monitorapi.OperatorLocator.
    rewrite append_assoc, OperatorFromLocator_prefixed.
    change (name ++ " " ++ rest)%string with (name ++ String space rest)%string.
    now rewrite untilByte_app.
  - intros locator H. rewrite OperatorFromLocator_cases. now rewrite H.
Qed.

(** X3.  No locator makes [IsE2ETest], [IsNode] or [IsOperator] index a slice
    out of its range, and no locator is of two kinds.  What [NodeLocator]
    and [OperatorLocator] make is of their kind, whatever the name. *)
Theorem locator_kinds_exclusive :
  (forall locator,
      exists e n o,
        monitorapi.IsE2ETest locator = Ok e
        /\ monitorapi.IsNode locator = Ok n
        /\ monitorapi.IsOperator locator = Ok o
        /\ e && n = false /\ e && o = false /\ n && o = false)
  /\ (forall name,
         monitorapi.IsNode (monitorapi.NodeLocator name) = Ok true
         /\ monitorapi.IsOperator (monitorapi.OperatorLocator name) = Ok true).
Proof.
  split.
  - intros locator.
    unfold monitorapi.IsE2ETest, monitorapi.IsNode, monitorapi.IsOperator.
    rewrite E2ETestFromLocator_cases, NodeFromLocator_cases,
      OperatorFromLocator_cases.
    destruct (prefixes_differ locator) as [He Hn].
    destruct (strings.HasPrefix locator "e2e-test/").
    + destruct (He eq_refl) as [-> ->].
      destruct (strconv.Unquote (drop 9 locator)); do 3 eexists; repeat split.
    + destruct (strings.HasPrefix locator "node/").
      * rewrite (Hn eq_refl). do 3 eexists; repeat split.
      * destruct (strings.HasPrefix locator "clusteroperator/");
          do 3 eexists; repeat split.
  - intros name. split.
    + unfold monitorapi.IsNode, monitorapi.NodeLocator.
      now rewrite NodeFromLocator_prefixed.
    + unfold monitorapi.IsOperator, monitorapi.OperatorLocator.
      now rewrite OperatorFromLocator_prefixed.
Qed.

(** X4.  [LocatorParts] returns for every locator; its map gives a key the
    value of the last tag with this key.  The tags of a locator are what
    lies between its spaces; the key of a tag is what comes before its first
    slash and the value what comes after, the empty string for a tag without
    a slash.  The empty locator has one tag, the empty one: its map holds
    the empty key. *)
Theorem LocatorParts_last_tag_wins :
  (forall locator,
      exists parts,
        monitorapi.LocatorParts locator = Ok parts
        /\ forall k, gomap.get parts k = lastTag k (tagsOf locator))
  /\ (forall a b, tagsOf (a ++ " " ++ b) = (tagsOf a ++ tagsOf b)%list)
  /\ (forall tag, contains tag space = false -> tagsOf tag = [tag])
  /\ (forall k v,
         contains k slash = false ->
         tagKey (k ++ "/" ++ v) = k /\ tagValue (k ++ "/" ++ v) = v)
  /\ (forall tag,
         contains tag slash = false ->
         tagKey tag = tag /\ tagValue tag = EmptyString)
  /\ monitorapi.LocatorParts EmptyString = Ok [(EmptyString, EmptyString)].
Proof.
  split; [|split; [|split; [|split; [|split]]]].
  - intros locator. eexists. split; [apply LocatorParts_tags|].
    intros k. rewrite get_fold_setTag. now destruct (lastTag k (tagsOf locator)).
  - exact tagsOf_app.
  - intros tag H. now apply splitByte_none.
  - intros k v H. split; [now apply untilByte_app | now apply afterByte_app].
  - intros tag H. split; [now apply untilByte_none | now apply afterByte_none].
  - reflexivity.
Qed.

(** X5.  The namespace of a locator is the value of its last tag [ns], or else
    of its last tag [namespace], wherever they stand, or else empty; its
    alert is the value of its last tag [alert], or else empty. *)
Theorem NamespaceFrom_prefers_ns (locator : string) :
  exists parts,
    monitorapi.LocatorParts locator = Ok parts
    /\ monitorapi.NamespaceFrom parts
       = match lastTag "ns" (tagsOf locator) with
         | Some ns => ns
         | None =>
           match lastTag "namespace" (tagsOf locator) with
           | Some ns => ns
           | None => EmptyString
           end
         end
    /\ monitorapi.AlertFrom parts
       = match lastTag "alert" (tagsOf locator) with
         | Some alert => alert
         | None => EmptyString
         end.
Proof.
  eexists. split; [apply LocatorParts_tags|].
  unfold monitorapi.NamespaceFrom, monitorapi.AlertFrom, gomap.index.
  rewrite !get_fold_setTag. cbn [gomap.get gomap.empty].
  split.
  - destruct (lastTag "ns" (tagsOf locator)); [reflexivity|].
    now destruct (lastTag "namespace" (tagsOf locator)).
  - now destruct (lastTag "alert" (tagsOf locator)).
Qed.

(** X6.  The locator that [locateService] makes of a service is read back by
    [LocatorParts]: for a namespace and a name without a space the map holds
    the namespace under [ns] and the name under [svc] and nothing else, and
    [NamespaceFrom] gives the namespace. *)
Theorem locateService_parts (namespace name : string) :
  contains namespace space = false ->
  contains name space = false ->
  exists parts,
    monitorapi.LocatorParts (service.locateService namespace name) = Ok parts
    /\ (forall k,
           gomap.get parts k
           = if String.eqb k "svc" then Some name
             else if String.eqb k "ns" then Some namespace else None)
    /\ monitorapi.NamespaceFrom parts = namespace
    /\ monitorapi.AlertFrom parts = EmptyString.
Proof.
  intros Hns Hname.
  assert (Htags : tagsOf (service.locateService namespace name)
                  = ["ns/" ++ namespace; "svc/" ++ name]).
  { unfold service.locateService.
    change ("ns/" ++ namespace ++ " svc/" ++ name)
      with (("ns/" ++ namespace) ++ " " ++ ("svc/" ++ name)).
    rewrite tagsOf_app. unfold tagsOf.
    rewrite !splitByte_none; [reflexivity | exact Hname | exact Hns]. }
  eexists. split; [apply LocatorParts_tags|]. rewrite Htags.
  split; [|split].
  - intros k. rewrite get_fold_setTag. cbn [lastTag gomap.get gomap.empty].
    change (tagKey ("svc/" ++ name)) with "svc".
    change (tagKey ("ns/" ++ namespace)) with "ns".
    change (tagValue ("svc/" ++ name)) with name.
    change (tagValue ("ns/" ++ namespace)) with namespace.
    rewrite (String.eqb_sym k "svc"), (String.eqb_sym k "ns").
    destruct (String.eqb "svc" k); [reflexivity|].
    now destruct (String.eqb "ns" k).
  - reflexivity.
  - reflexivity.
Qed.

Lemma locateService_example :
  (contains "e2e-k8s-service-lb-available-1234" space = false
   /\ contains "service-test" space = false)
  /\ exists parts,
       monitorapi.LocatorParts
         (service.locateService "e2e-k8s-service-lb-available-1234" "service-test")
       = Ok parts
       /\ monitorapi.NamespaceFrom parts = "e2e-k8s-service-lb-available-1234".
Proof.
  split; [split; reflexivity|].
  destruct (locateService_parts "e2e-k8s-service-lb-available-1234"
              "service-test" eq_refl eq_refl) as (parts & H1 & _ & H2 & _).
  exists parts. split; assumption.
Defined.

(** ** TestReachableHTTPWithMinSuccessCount *)

Section PollFacts.

Local Open Scope list_scope.

Lemma wrap64_small (z : Z) : - 2 ^ 63 <= z < 2 ^ 63 -> time.wrap64 z = z.
Proof.
  intros H. unfold time.wrap64. rewrite Z.mod_small by lia. lia.
Qed.

Lemma repeat_shift {A : Type} (x : A) (c : nat) (l : list A) :
  repeat x c ++ x :: l = repeat x (S c) ++ l.
Proof. induction c as [|c IH]; simpl; [reflexivity | now rewrite IH]. Qed.

Lemma streak_length (n : nat) (l : list bool) :
  streak n l -> (n <= List.length l)%nat.
Proof.
  intros (pre & post & ->). rewrite !length_app, repeat_length. lia.
Qed.

Lemma repeat_prefix (n c : nat) (post m : list bool) :
  repeat true n ++ post = repeat true c ++ false :: m -> (n <= c)%nat.
Proof.
  revert c; induction n as [|n IH]; intros c; [lia|].
  destruct c as [|c]; simpl; [discriminate|].
  intros [= H]. apply IH in H. lia.
Qed.

Lemma streak_skip (n c : nat) (m : list bool) :
  (c < n)%nat -> streak n (repeat true c ++ false :: m) -> streak n m.
Proof.
  intros Hc (pre & post & H). revert pre H Hc.
  induction c as [|c IH]; intros pre H Hc.
  - destruct pre as [|x pre]; simpl in H.
    + destruct n; [lia | discriminate].
    + injection H as _ H. now exists pre, post.
  - destruct pre as [|x pre].
    + symmetry in H. apply repeat_prefix in H. lia.
    + simpl in H. injection H as _ H. apply (IH pre); [exact H | lia].
Qed.

Variable successCount : Z.
Hypothesis successCount_int : successCount < 2 ^ 63.

Local Abbreviation N := (Z.to_nat (Z.max 1 successCount)).

Lemma pollCondition_nat (c : nat) (success : bool) :
  (c < N)%nat ->
  service.pollCondition successCount (Z.of_nat c) success
  = if success then ((S c =? N)%nat, Z.of_nat (S c)) else (false, 0).
Proof.
  intros Hc. unfold service.pollCondition. destruct success; [|reflexivity].
  rewrite wrap64_small by lia.
  replace (Z.of_nat c + 1) with (Z.of_nat (S c)) by lia. f_equal.
  destruct (Nat.eqb_spec (S c) N) as [E | E].
  - apply Z.geb_le. lia.
  - destruct (Z.of_nat (S c) >=? successCount) eqn:G; [|reflexivity].
    apply Z.geb_le in G. lia.
Qed.

Lemma pollLoop_streak (pokes : list bool) :
  forall c : nat,
    (c < N)%nat ->
    match service.pollLoop successCount (Z.of_nat c) pokes with
    | Some k =>
      (1 <= k)%nat
      /\ (exists pre post,
             repeat true c ++ pokes = pre ++ repeat true N ++ post
             /\ (c + k = List.length pre + N)%nat)
      /\ ~ streak N (firstn (c + k - 1) (repeat true c ++ pokes))
    | None => ~ streak N (repeat true c ++ pokes)
    end.
Proof.
  induction pokes as [|success rest IH]; intros c Hc.
  - simpl. intros H. apply streak_length in H.
    rewrite length_app, repeat_length in H. simpl in H. lia.
  - cbn [service.pollLoop]. rewrite pollCondition_nat by exact Hc.
    destruct success.
    + destruct (Nat.eqb_spec (S c) N) as [E | E].
      * split; [lia|]. split.
        -- exists [], rest. rewrite repeat_shift, E. split; [reflexivity|].
           simpl. lia.
        -- replace (c + 1 - 1)%nat with (List.length (repeat true c) + 0)%nat
             by (rewrite repeat_length; lia).
           rewrite firstn_app_2. simpl. rewrite app_nil_r.
           intros H. apply streak_length in H. rewrite repeat_length in H. lia.
      * assert (Hc' : (S c < N)%nat) by lia.
        specialize (IH (S c) Hc'). rewrite repeat_shift.
        destruct (service.pollLoop successCount (Z.of_nat (S c)) rest) as [k|];
          cbn [option_map].
        -- destruct IH as (Hk & (pre & post & Heq & Hlen) & Hno).
           split; [lia|]. split.
           ++ exists pre, post. split; [exact Heq | lia].
           ++ now replace (c + S k - 1)%nat with (S c + k - 1)%nat by lia.
        -- exact IH.
    + assert (H0 : (0 < N)%nat) by lia.
      specialize (IH O H0). change (Z.of_nat 0) with 0 in IH.
      destruct (service.pollLoop successCount 0 rest) as [k|]; cbn [option_map].
      * destruct IH as (Hk & (pre & post & Heq & Hlen) & Hno).
        simpl in Heq, Hlen. cbn [Nat.add repeat app] in Hno.
        split; [lia|]. split.
        -- exists (repeat true c ++ false :: pre), post.
           rewrite Heq, <- app_assoc. simpl. split; [reflexivity|].
           rewrite length_app, repeat_length. simpl. lia.
        -- replace (c + S k - 1)%nat with (List.length (repeat true c) + k)%nat
             by (rewrite repeat_length; lia).
           rewrite firstn_app_2. destruct k as [|k]; [lia|]. simpl.
           intros H. apply streak_skip in H; [|exact Hc].
           apply Hno. now replace (S k - 1)%nat with k by lia.
      * simpl in IH. intros H. apply streak_skip in H; [|exact Hc]. auto.
Qed.

End PollFacts.

(** X7.  [TestReachableHTTPWithMinSuccessCount] returns exactly when the
    outcomes of its requests hold a run of [max(1, successCount)] successes
    in a row, and it returns with the last request of the first such run:
    a failure in between starts the count again, and the test fails when the
    timeout comes before such a run. *)
Theorem TestReachable_needs_successes_in_a_row
  (successCount : Z) (pokes : list bool) :
  successCount < 2 ^ 63 ->
  let n := Z.to_nat (Z.max 1 successCount) in
  match service.TestReachableHTTPWithMinSuccessCount successCount pokes with
  | Some k =>
    (exists pre post,
        pokes = (pre ++ repeat true n ++ post)%list
        /\ k = (List.length pre + n)%nat)
    /\ ~ streak n (firstn (k - 1) pokes)
  | None => ~ streak n pokes
  end.
Proof.
  intros Hint n.
  assert (Hn : (0 < n)%nat) by (unfold n; lia).
  pose proof (pollLoop_streak successCount Hint pokes O Hn) as H.
  unfold service.TestReachableHTTPWithMinSuccessCount.
  change (Z.of_nat 0) with 0 in H.
  destruct (service.pollLoop successCount 0 pokes) as [k|]; [|exact H].
  destruct H as (_ & H & Hno). split; [exact H | exact Hno].
Qed.

Lemma TestReachable_example :
  3 < 2 ^ 63
  /\ service.TestReachableHTTPWithMinSuccessCount 3
       [true; true; false; true; true; true; true] = Some 6%nat
  /\ ~ streak 3 [true; true; false; true; true].
Proof.
  assert (Hint : 3 < 2 ^ 63) by lia.
  pose proof (TestReachable_needs_successes_in_a_row 3
                [true; true; false; true; true; true; true] Hint) as H.
  split; [exact Hint|]. split; [reflexivity|]. exact (proj2 H).
Defined.

(** ** Summaries: what finalizeTest does with them *)

Section SummaryFacts.

Local Open Scope list_scope.

Variable isPrintTable : Z -> bool.
Variable ReportDir : string.
Variable fsError : string -> option string.
Variable filepath_Join : string -> string -> string.
Variable formatRFC3339 : time.Time -> string.
Variable fmt_v : disruption.PanicValue -> string.
Variable EventsIntervalsToJSON : monitorapi.Intervals -> string.

Local Abbreviation finalizeTest :=
  (disruption.finalizeTest isPrintTable ReportDir fsError filepath_Join
     formatRFC3339 fmt_v EventsIntervalsToJSON).
Local Abbreviation writeSummaries :=
  (disruption.writeSummaries ReportDir fsError filepath_Join formatRFC3339
     EventsIntervalsToJSON).
Local Abbreviation summaryPath :=
  (disruption.summaryPath ReportDir filepath_Join formatRFC3339).
Local Abbreviation PrintJSON := (disruption.PrintJSON EventsIntervalsToJSON).
Local Abbreviation filesFor :=
  (summaryFiles ReportDir fsError filepath_Join formatRFC3339
     EventsIntervalsToJSON).
Local Abbreviation errorsFor :=
  (summaryErrors ReportDir fsError filepath_Join formatRFC3339).

Lemma writeSummaries_app (now : time.Time) (tcName : string)
  (xs ys : list disruption.TestSummary) (cases : list junit.TestCase)
  (w : disruption.World) :
  writeSummaries now tcName (xs ++ ys) cases w
  = let '(cases1, w1) := writeSummaries now tcName xs cases w in
    writeSummaries now tcName ys cases1 w1.
Proof.
  revert cases w; induction xs as [|x xs IH]; intros cases w.
  - reflexivity.
  - destruct x as [n f d | msg | events | kind json]; simpl; try apply IH;
      match goal with
      | |- context [fsError ?p] => destruct (fsError p); apply IH
      end.
Qed.

Lemma writeSummaries_eq (now : time.Time) (tcName : string)
  (summaries : list disruption.TestSummary) (cases : list junit.TestCase)
  (w : disruption.World) :
  writeSummaries now tcName summaries cases w
  = (cases ++ additionalCases summaries,
     disruption.mkWorld
       (disruption.stderr w ++ errorsFor now tcName summaries)
       (disruption.logged w)
       (disruption.files w ++ filesFor now tcName summaries)
       (disruption.ginkgoFailed w)).
Proof.
  revert cases w; induction summaries as [|s rest IH]; intros cases w.
  - simpl. rewrite !app_nil_r. now destruct w.
  - destruct s as [n f d | msg | events | kind json];
      cbn [disruption.writeSummaries];
      [ rewrite IH; simpl; now rewrite <- app_assoc | | | ];
      match goal with
      | |- context [fsError ?p] =>
        unfold summaryFiles, summaryErrors; cbn [flat_map writtenToDisk];
        fold (filesFor now tcName rest);
        fold (errorsFor now tcName rest);
        destruct (fsError p); rewrite IH; simpl;
        now rewrite <- ?app_assoc
      end.
Qed.

Lemma contentOf_last (files : list (string * string)) (path data : string) :
  contentOf (files ++ [(path, data)]) path = Some data.
Proof.
  induction files as [|[p d] files IH]; simpl.
  - now rewrite String.eqb_refl.
  - now rewrite IH.
Qed.


Lemma summary_outputs_count (now : time.Time) (tcName : string)
  (summaries : list disruption.TestSummary) :
  (List.length (filesFor now tcName summaries)
   + List.length (errorsFor now tcName summaries))%nat
  = List.length (filter writtenToDisk summaries).
Proof.
  induction summaries as [|s rest IH]; [reflexivity|].
  unfold summaryFiles, summaryErrors in *. cbn [flat_map filter].
  rewrite !length_app.
  destruct (writtenToDisk s); [|simpl; exact IH].
  destruct (fsError (summaryPath s tcName now)); simpl; lia.
Qed.

(** X8.  What [finalizeTest] does with the summaries of the framework, whatever
    was recovered and whatever the file system does: it returns; the suite
    keeps its test cases and gains, in their order, one test case for each
    [additionalTest]; every other summary gives one file written or else one
    line on standard error, in their order, and nothing else is written. *)
Theorem finalizeTest_accounts_for_summaries
  (start now : time.Time) (tc : junit.TestCase) (cases : list junit.TestCase)
  (fw : disruption.Framework) (r : option disruption.PanicValue)
  (stack : string) (w : disruption.World) :
  let summaries := disruption.TestSummaries fw in
  match finalizeTest start now tc cases (Some fw) r stack w with
  | Panic _ => False
  | Ok (_, cases', w') =>
    cases' = cases ++ additionalCases summaries
    /\ disruption.files w'
       = disruption.files w ++ filesFor now (junit.Name tc) summaries
    /\ disruption.stderr w'
       = disruption.stderr w ++ errorsFor now (junit.Name tc) summaries
    /\ (List.length (filesFor now (junit.Name tc) summaries)
        + List.length (errorsFor now (junit.Name tc) summaries))%nat
       = List.length (filter writtenToDisk summaries)
  end.
Proof.
  cbv zeta. unfold disruption.finalizeTest. rewrite writeSummaries_eq.
  cbn [junit.Name disruption.setTime].
  pose proof (summary_outputs_count now (junit.Name tc)
                (disruption.TestSummaries fw)) as Hcount.
  destruct r as [r|].
  - cbn [disruption.Logf disruption.ginkgoFailed disruption.stderr
           disruption.logged disruption.files].
    destruct (negb (disruption.ginkgoFailed w)); simpl; auto.
  - destruct (disruption.hasFrameworkFlake (disruption.TestSummaries fw))
      as [message [|]]; simpl; auto.
Qed.

(** X9.  The path of a summary's file depends on the summary through its kind
    only, so the summaries of one kind that a test leaves share one file:
    what the file holds in the end is the JSON of the last summary written
    to it. *)
Theorem summaries_of_one_kind_share_a_file :
  (forall (s1 s2 : disruption.TestSummary) (tcName : string) (now : time.Time),
      disruption.SummaryKind s1 = disruption.SummaryKind s2 ->
      summaryPath s1 tcName now = summaryPath s2 tcName now)
  /\ (forall (now : time.Time) (tcName : string)
             (summaries : list disruption.TestSummary)
             (s : disruption.TestSummary)
             (cases : list junit.TestCase) (w : disruption.World),
         writtenToDisk s = true ->
         fsError (summaryPath s tcName now) = None ->
         contentOf
           (disruption.files
              (snd (writeSummaries now tcName (summaries ++ [s]) cases w)))
           (summaryPath s tcName now)
         = Some (PrintJSON s)).
Proof.
  split.
  - intros s1 s2 tcName now H. unfold disruption.summaryPath. now rewrite H.
  - intros now tcName summaries s cases w Hdisk Hfs.
    rewrite writeSummaries_eq. cbn [snd disruption.files].
    unfold summaryFiles. rewrite flat_map_app. cbn [flat_map].
    rewrite Hdisk, Hfs, app_nil_r, app_assoc.
    apply contentOf_last.
Qed.

End SummaryFacts.

Section FlakeFacts.

Local Open Scope list_scope.

Lemma hasFrameworkFlake_app (xs ys : list disruption.TestSummary) :
  disruption.hasFrameworkFlake (xs ++ ys)
  = if snd (disruption.hasFrameworkFlake xs)
    then disruption.hasFrameworkFlake xs
    else disruption.hasFrameworkFlake ys.
Proof.
  induction xs as [|x xs IH]; [reflexivity|].
  destruct x; simpl; try exact IH. reflexivity.
Qed.

Lemma hasFrameworkFlake_none (xs : list disruption.TestSummary) :
  forallb notFlake xs = true ->
  disruption.hasFrameworkFlake xs = (EmptyString, false).
Proof.
  induction xs as [|x xs IH]; [reflexivity|].
  destruct x; simpl; try exact IH. discriminate.
Qed.

Lemma hasFrameworkFlake_spec (summaries : list disruption.TestSummary) :
  match disruption.hasFrameworkFlake summaries with
  | (message, true) =>
    exists pre post,
      summaries = pre ++ disruption.flakeSummary message :: post
      /\ forallb notFlake pre = true
  | (message, false) =>
    message = EmptyString /\ forallb notFlake summaries = true
  end.
Proof.
  induction summaries as [|s rest IH]; [simpl; auto|].
  destruct s as [n f d | msg | events | kind json]; simpl;
    try (destruct (disruption.hasFrameworkFlake rest) as [message [|]];
         [ destruct IH as (pre & post & -> & Hpre);
           eexists (_ :: pre), post; split; [reflexivity | exact Hpre]
         | exact IH ]).
  exists [], rest. auto.
Qed.

End FlakeFacts.

(** X10.  [hasFrameworkFlake] finds the first flake that was recorded: it
    answers with a message exactly when the summaries hold a flake, and the
    message is that of the first one.  A flake recorded after another never
    takes its place, and recording events or a JUnit result changes
    nothing. *)
Theorem hasFrameworkFlake_first_flake
  (f : disruption.Framework) (msg : string) (w : disruption.World)
  (events : monitorapi.Intervals) (name failure : string) (d : time.Duration) :
  let summaries := disruption.TestSummaries f in
  match disruption.hasFrameworkFlake summaries with
  | (message, true) =>
    exists pre post,
      summaries = (pre ++ disruption.flakeSummary message :: post)%list
      /\ forallb notFlake pre = true
  | (message, false) =>
    message = EmptyString /\ forallb notFlake summaries = true
  end
  /\ disruption.hasFrameworkFlake
       (disruption.TestSummaries (fst (disruption.FrameworkFlakef f msg w)))
     = (if snd (disruption.hasFrameworkFlake summaries)
        then disruption.hasFrameworkFlake summaries
        else (msg, true))
  /\ disruption.hasFrameworkFlake
       (disruption.TestSummaries (disruption.FrameworkEventIntervals f events))
     = disruption.hasFrameworkFlake summaries
  /\ disruption.hasFrameworkFlake
       (disruption.TestSummaries (disruption.RecordJUnitResult f name d failure))
     = disruption.hasFrameworkFlake summaries.
Proof.
  cbv zeta. split; [apply hasFrameworkFlake_spec|].
  cbn [disruption.FrameworkFlakef disruption.FrameworkEventIntervals
         disruption.RecordJUnitResult disruption.TestSummaries fst].
  rewrite !hasFrameworkFlake_app. cbn [disruption.hasFrameworkFlake].
  pose proof (hasFrameworkFlake_spec (disruption.TestSummaries f)) as H.
  destruct (disruption.hasFrameworkFlake (disruption.TestSummaries f))
    as [message [|]]; cbn [snd]; auto.
  destruct H as [-> _]. auto.
Qed.

Section RecordFacts.

Local Open Scope list_scope.

Variable ReportDir : string.
Variable fsError : string -> option string.
Variable filepath_Join : string -> string -> string.
Variable formatRFC3339 : time.Time -> string.
Variable EventsIntervalsToJSON : monitorapi.Intervals -> string.

Local Abbreviation writeSummaries :=
  (disruption.writeSummaries ReportDir fsError filepath_Join formatRFC3339
     EventsIntervalsToJSON).

(** X11.  [RecordJUnit] hands on the error of [fn] and leaves one more summary;
    [finalizeTest] turns it into the last test case of the suite, named
    [name], which carries a failure exactly when [fn] returned an error with
    a message that is not empty: an error whose message is empty is
    reported as a test that passed. *)
Theorem RecordJUnit_reports_result
  (f : disruption.Framework) (name : string)
  (fn : disruption.Framework -> disruption.Framework * option string)
  (start finish now : time.Time) (tcName : string)
  (cases : list junit.TestCase) (w : disruption.World) :
  let '(f', err) := disruption.RecordJUnit f name fn start finish in
  err = snd (fn f)
  /\ exists testCase,
       writeSummaries now tcName (disruption.TestSummaries f') cases w
       = (let '(cases1, w1) :=
            writeSummaries now tcName
              (disruption.TestSummaries (fst (fn f))) cases w in
          (cases1 ++ [testCase], w1))
       /\ junit.Name testCase = name
       /\ junit.Time testCase = time.Seconds (time.Sub finish start)
       /\ junit.Errors testCase = []
       /\ junit.Skipped testCase = EmptyString
       /\ (junit.Failures testCase = [] <-> err = None \/ err = Some EmptyString)
       /\ (forall e, err = Some e -> e <> EmptyString ->
           junit.Failures testCase = [junit.mkFailure e EmptyString e]).
Proof.
  unfold disruption.RecordJUnit. destruct (fn f) as [f1 err]. cbn [fst snd].
  split; [reflexivity|].
  eexists. cbn [disruption.TestSummaries].
  rewrite (writeSummaries_app ReportDir fsError).
  destruct (writeSummaries now tcName (disruption.TestSummaries f1) cases w)
    as [cases1 w1].
  split; [reflexivity|]. cbn. repeat split; try reflexivity.
  - destruct err as [[|c e]|]; simpl; auto; discriminate.
  - destruct err as [[|c e]|]; simpl; auto.
    intros [H | H]; discriminate.
  - intros e -> He. destruct e; [contradiction | reflexivity].
Qed.

End RecordFacts.

Section SuiteFacts.

Local Open Scope list_scope.

Lemma flakeLoop_eq (cases : list junit.TestCase) :
  disruption.flakeLoop cases
  = map retypedEntry cases ++ map passingEntry (filter onlyFlakes cases).
Proof.
  unfold disruption.flakeLoop.
  pose proof (flakeLoop_from cases [] []) as H. simpl in H.
  now rewrite app_nil_r in H.
Qed.

Lemma retypeFlake_type (f : junit.Failure) :
  junit.Failure_Type (retypeFlake f) <> "Flake".
Proof.
  unfold retypeFlake.
  destruct (String.eqb_spec (junit.Failure_Type f) "Flake"); [discriminate | assumption].
Qed.

Lemma retypeFlake_id (fs : list junit.Failure) :
  (forall f, In f fs -> junit.Failure_Type f <> "Flake") ->
  map retypeFlake fs = fs.
Proof.
  induction fs as [|f fs IH]; intros H; [reflexivity|]. simpl.
  rewrite IH by (intros g Hg; apply H; now right).
  unfold retypeFlake.
  destruct (String.eqb_spec (junit.Failure_Type f) "Flake") as [E | _];
    [|reflexivity].
  elim (H f (or_introl eq_refl) E).
Qed.

Lemma no_flake_left (cases : list junit.TestCase) (tc : junit.TestCase)
  (f : junit.Failure) :
  In tc (disruption.flakeLoop cases) -> In f (junit.Failures tc) ->
  junit.Failure_Type f <> "Flake".
Proof.
  rewrite flakeLoop_eq. intros Htc Hf. apply in_app_or in Htc.
  destruct Htc as [Htc | Htc]; apply in_map_iff in Htc;
    destruct Htc as (tc0 & <- & _).
  - simpl in Hf. apply in_map_iff in Hf. destruct Hf as (f0 & <- & _).
    apply retypeFlake_type.
  - destruct Hf.
Qed.

Lemma onlyFlakes_false (tc : junit.TestCase) :
  (forall f, In f (junit.Failures tc) -> junit.Failure_Type f <> "Flake") ->
  onlyFlakes tc = false.
Proof.
  intros H. destruct (onlyFlakes tc) eqn:E; [|reflexivity].
  apply onlyFlakes_iff in E. destruct E as (Hne & _ & _ & Hall).
  destruct (junit.Failures tc) as [|f fs]; [now elim Hne|].
  inversion Hall as [|? ? Hf _]. elim (H f (or_introl eq_refl) Hf).
Qed.

End SuiteFacts.

(** X12.  What the deferred function of runChaosmonkey leaves: no failure of the
    suite is typed "Flake" any more, and running the loop once more on its
    result changes nothing (no second passing entry is made). *)
Theorem flakeLoop_leaves_no_flake (cases : list junit.TestCase) :
  (forall tc f,
      In tc (disruption.flakeLoop cases) -> In f (junit.Failures tc) ->
      junit.Failure_Type f <> "Flake")
  /\ disruption.flakeLoop (disruption.flakeLoop cases) = disruption.flakeLoop cases
  /\ List.length (disruption.flakeLoop cases)
     = (List.length cases + List.length (filter onlyFlakes cases))%nat.
Proof.
  split; [exact (no_flake_left cases)|]. split.
  - rewrite (flakeLoop_eq (disruption.flakeLoop cases)).
    pose proof (no_flake_left cases) as H.
    induction (disruption.flakeLoop cases) as [|tc l IH]; [reflexivity|].
    assert (Htc : forall f, In f (junit.Failures tc) ->
                            junit.Failure_Type f <> "Flake")
      by (intros f; apply H; now left).
    cbn [map filter]. rewrite (onlyFlakes_false tc Htc).
    rewrite <- app_comm_cons. f_equal.
    + unfold retypedEntry. rewrite (retypeFlake_id _ Htc). now destruct tc.
    + apply IH. intros tc' f Hin. apply H. now right.
  - rewrite flakeLoop_eq, length_app, !length_map. reflexivity.
Qed.

Section PipelineFacts.

Local Open Scope list_scope.

Variable isPrintTable : Z -> bool.
Variable ReportDir : string.
Variable fsError : string -> option string.
Variable filepath_Join : string -> string -> string.
Variable formatRFC3339 : time.Time -> string.
Variable fmt_v : disruption.PanicValue -> string.
Variable EventsIntervalsToJSON : monitorapi.Intervals -> string.
Variable fmt_Duration : time.Duration -> string.
Variable fmt_f0 : float64 -> string.
Variable EventInterval_String : monitorapi.EventInterval -> string.
Variable Intervals_Duration :
  time.Duration -> time.Duration -> monitorapi.Intervals -> time.Duration.

Local Abbreviation finalizeTest :=
  (disruption.finalizeTest isPrintTable ReportDir fsError filepath_Join
     formatRFC3339 fmt_v EventsIntervalsToJSON).
Local Abbreviation ExpectNoDisruption :=
  (disruption.ExpectNoDisruption fmt_Duration fmt_f0 EventInterval_String
     Intervals_Duration).
Local Abbreviation flakeMessage := (disruption.flakeMessage fmt_Duration fmt_f0).
Local Abbreviation Strings := (disruption.Strings EventInterval_String).

(** X13.  From the check to the report.  When [ExpectNoDisruption] meets
    disruption within the tolerance, in a framework without an earlier
    flake, and the test then ends without a panic, [finalizeTest] gives the
    test case, which had neither failure, error nor skip, the flake as its
    one failure, and the deferred function of runChaosmonkey lists the test
    twice in any suite that holds it: once failed, with the flake's message
    typed "Failure", and once passed. *)
Theorem tolerated_disruption_reported_twice
  (f : disruption.Framework) (tolerate : float64) (total : time.Duration)
  (events : monitorapi.Intervals) (reason : string) (w : disruption.World)
  (start now : time.Time) (tc : junit.TestCase) (cases : list junit.TestCase)
  (stack : string) :
  let D := summed Intervals_Duration events in
  let percent := fraction Intervals_Duration total events in
  let msg := flakeMessage reason D total percent tolerate (Strings events) in
  snd (disruption.hasFrameworkFlake (disruption.TestSummaries f)) = false ->
  0 < D ->
  fgt percent tolerate = false ->
  junit.Failures tc = [] -> junit.Errors tc = [] ->
  junit.Skipped tc = EmptyString ->
  let '(f1, w1, verdict) := ExpectNoDisruption f tolerate total events reason w in
  verdict = disruption.Returns
  /\ match finalizeTest start now tc cases (Some f1) None stack w1 with
     | Panic _ => False
     | Ok (tc', _, _) =>
       junit.Failures tc' = [junit.mkFailure msg "Flake" msg]
       /\ forall suite,
            In tc' suite ->
            In (disruption.setFailures tc' [junit.mkFailure msg "Failure" msg])
               (disruption.flakeLoop suite)
            /\ In (junit.mkTestCase (junit.Name tc) (junit.Time tc')
                     (junit.Classname tc) [] [] EmptyString)
                  (disruption.flakeLoop suite)
     end.
Proof.
  intros D percent msg Hnone HD Hgt Hf He Hs.
  unfold disruption.ExpectNoDisruption. cbv zeta.
  fold (summed Intervals_Duration events). fold D.
  change (fdiv (float64_of_int D) (float64_of_int total)) with percent.
  rewrite Hgt. apply Z.ltb_lt in HD. rewrite HD.
  cbn [disruption.FrameworkFlakef]. split; [reflexivity|].
  unfold disruption.finalizeTest.
  destruct (disruption.writeSummaries _ _ _ _ _ _ _ _ _ _) as [cases1 w1].
  cbn [disruption.TestSummaries disruption.FrameworkEventIntervals].
  rewrite !hasFrameworkFlake_app.
  destruct (disruption.hasFrameworkFlake (disruption.TestSummaries f))
    as [m0 b0]. cbn [snd] in Hnone. subst b0. cbn [snd].
  cbn [disruption.hasFrameworkFlake snd]. fold msg.
  unfold disruption.setFailures, disruption.setTime.
  cbn [junit.Failures junit.Name junit.Time junit.Classname junit.Errors
         junit.Skipped].
  rewrite Hf, He, Hs. cbn [app]. split; [reflexivity|].
  intros suite Hin. rewrite flakeLoop_eq.
  split; apply in_or_app; [left | right].
  - apply in_map_iff. eexists. split; [|exact Hin]. reflexivity.
  - apply in_map_iff. eexists. split; [|apply filter_In; split; [exact Hin|]];
      reflexivity.
Qed.

End PipelineFacts.

Lemma tolerated_disruption_example :
  let f := disruption.mkFramework [] in
  let tolerate := fdiv (float64_of_int 2) (float64_of_int 100) in
  let total := 600 * time.Second in
  let events := [blip 0 (5 * time.Second)] in
  let tc :=
    junit.mkTestCase service.DisplayName (float64_of_int 0) "disruption_tests"
      [] [] EmptyString in
  (snd (disruption.hasFrameworkFlake (disruption.TestSummaries f)) = false
   /\ 0 < summed monitorapi.Duration events
   /\ fgt (fraction monitorapi.Duration total events) tolerate = false
   /\ junit.Failures tc = [] /\ junit.Errors tc = []
   /\ junit.Skipped tc = EmptyString)
  /\ let '(f1, w1, verdict) :=
       disruption.ExpectNoDisruption itoa (fun _ => EmptyString)
         (fun i => monitorapi.Message (monitorapi.Cond i)) monitorapi.Duration
         f tolerate total events "Service was unreachable" quietWorld in
     verdict = disruption.Returns
     /\ match disruption.finalizeTest (fun _ => true) "/tmp" (fun _ => None)
                joinPath (fun _ => "now") (fun _ => "panic") (fun _ => "[]")
                0 (700 * time.Second) tc [] (Some f1) None EmptyString w1 with
        | Panic _ => False
        | Ok (tc', _, _) =>
          List.length (junit.Failures tc') = 1%nat
          /\ List.length (disruption.flakeLoop [tc']) = 2%nat
        end.
Proof.
  cbv zeta. split; [repeat split|].
  pose proof (tolerated_disruption_reported_twice (fun _ => true) "/tmp"
                (fun _ => None) joinPath (fun _ => "now") (fun _ => "panic")
                (fun _ => "[]") itoa (fun _ => EmptyString)
                (fun i => monitorapi.Message (monitorapi.Cond i))
                monitorapi.Duration
                (disruption.mkFramework [])
                (fdiv (float64_of_int 2) (float64_of_int 100))
                (600 * time.Second) [blip 0 (5 * time.Second)]
                "Service was unreachable" quietWorld 0 (700 * time.Second)
                (junit.mkTestCase service.DisplayName (float64_of_int 0)
                   "disruption_tests" [] [] EmptyString)
                [] EmptyString eq_refl eq_refl eq_refl eq_refl eq_refl eq_refl)
    as H.
  vm_compute in H. vm_compute. destruct H as [Hv [Hf _]].
  split; [exact Hv|]. split; reflexivity.
Defined.

Section EventsFacts.

Local Open Scope list_scope.

Variable isPrintTable : Z -> bool.
Variable ReportDir : string.
Variable fsError : string -> option string.
Variable filepath_Join : string -> string -> string.
Variable formatRFC3339 : time.Time -> string.
Variable fmt_v : disruption.PanicValue -> string.
Variable EventsIntervalsToJSON : monitorapi.Intervals -> string.
Variable fmt_Duration : time.Duration -> string.
Variable fmt_f0 : float64 -> string.
Variable EventInterval_String : monitorapi.EventInterval -> string.
Variable Intervals_Duration :
  time.Duration -> time.Duration -> monitorapi.Intervals -> time.Duration.

Local Abbreviation finalizeTest :=
  (disruption.finalizeTest isPrintTable ReportDir fsError filepath_Join
     formatRFC3339 fmt_v EventsIntervalsToJSON).
Local Abbreviation ExpectNoDisruption :=
  (disruption.ExpectNoDisruption fmt_Duration fmt_f0 EventInterval_String
     Intervals_Duration).
Local Abbreviation summaryPath :=
  (disruption.summaryPath ReportDir filepath_Join formatRFC3339).

Lemma ExpectNoDisruption_summaries
  (f : disruption.Framework) (tolerate : float64) (total : time.Duration)
  (events : monitorapi.Intervals) (reason : string) (w : disruption.World) :
  let '(f1, w1, verdict) := ExpectNoDisruption f tolerate total events reason w in
  exists more,
    disruption.TestSummaries f1
    = disruption.TestSummaries f ++ disruption.additionalEvents events :: more
    /\ (more = []
        \/ exists msg, more = [disruption.flakeSummary msg]
                       /\ verdict = disruption.Returns)
    /\ disruption.files w1 = disruption.files w
    /\ disruption.stderr w1 = disruption.stderr w
    /\ disruption.ginkgoFailed w1 = disruption.ginkgoFailed w.
Proof.
  unfold disruption.ExpectNoDisruption. cbv zeta.
  destruct (fgt _ tolerate).
  - exists []. simpl. auto.
  - destruct (0 <? _).
    + eexists [_]. simpl. rewrite <- app_assoc. simpl. repeat split; eauto.
    + exists []. simpl. auto.
Qed.

(** X14.  Whatever the verdict of [ExpectNoDisruption] is, it has recorded the
    events first and taken no summary away: the summaries afterwards are
    those from before, the events, and at most the flake.  So [finalizeTest]
    writes the events to their file also for a test that the call has
    failed, whatever it recovers, when the file can be written. *)
Theorem events_recorded_whatever_the_verdict
  (f : disruption.Framework) (tolerate : float64) (total : time.Duration)
  (events : monitorapi.Intervals) (reason : string) (w : disruption.World) :
  let '(f1, w1, verdict) := ExpectNoDisruption f tolerate total events reason w in
  (exists more,
      disruption.TestSummaries f1
      = disruption.TestSummaries f ++ disruption.additionalEvents events :: more
      /\ (more = []
          \/ exists msg, more = [disruption.flakeSummary msg]
                         /\ verdict = disruption.Returns))
  /\ forall (start now : time.Time) (tc : junit.TestCase)
            (cases : list junit.TestCase) (r : option disruption.PanicValue)
            (stack : string),
       fsError (summaryPath (disruption.additionalEvents events)
                  (junit.Name tc) now) = None ->
       match finalizeTest start now tc cases (Some f1) r stack w1 with
       | Panic _ => False
       | Ok (_, _, w') =>
         In (summaryPath (disruption.additionalEvents events) (junit.Name tc) now,
             EventsIntervalsToJSON events)
            (disruption.files w')
       end.
Proof.
  pose proof (ExpectNoDisruption_summaries f tolerate total events reason w) as H.
  destruct (ExpectNoDisruption f tolerate total events reason w)
    as [[f1 w1] verdict].
  destruct H as (more & Hsum & Hmore & _).
  split; [now exists more|].
  intros start now tc cases r stack Hfs.
  assert (Hin : In (summaryPath (disruption.additionalEvents events)
                      (junit.Name tc) now, EventsIntervalsToJSON events)
                   (summaryFiles ReportDir fsError filepath_Join formatRFC3339
                      EventsIntervalsToJSON now (junit.Name tc)
                      (disruption.TestSummaries f1))).
  { rewrite Hsum. unfold summaryFiles. rewrite flat_map_app.
    apply in_or_app. right. cbn [flat_map writtenToDisk].
    rewrite Hfs. now left. }
  unfold disruption.finalizeTest.
  rewrite (writeSummaries_eq ReportDir fsError).
  cbn [junit.Name disruption.setTime].
  destruct r as [r|].
  - cbn [disruption.Logf disruption.ginkgoFailed disruption.stderr
           disruption.logged disruption.files].
    destruct (negb (disruption.ginkgoFailed w1)); simpl;
      apply in_or_app; now right.
  - destruct (disruption.hasFrameworkFlake (disruption.TestSummaries f1))
      as [message [|]]; simpl; apply in_or_app; now right.
Qed.

End EventsFacts.

(** ** Namespaces and the registration of tests *)

Section NamespaceFacts.

(** The rune that the loops over a string read next is at least one byte
    wide and no wider than the string. *)
Lemma rune_width (c : ascii) (rest : string) (r : Z) (width : nat) :
  (if byteZ c <? utf8.RuneSelf then (byteZ c, 1%nat)
   else utf8.DecodeRuneInString (String c rest)) = (r, width) ->
  (1 <= width <= S (String.length rest))%nat.
Proof.
  intros H. destruct (byteZ c <? utf8.RuneSelf).
  - injection H as _ <-. lia.
  - pose proof (decode_width (String c rest)) as [H1 H2].
    rewrite H in H1, H2. simpl in H1, H2.
    split; [apply H2; discriminate | exact H1].
Qed.

(** Fuel beyond the length of the string changes nothing. *)
Lemma replaceOutside_fuel (fuel : nat) :
  forall (fuel' : nat) (inRun : bool) (s : string),
    (String.length s <= fuel)%nat -> (String.length s <= fuel')%nat ->
    disruption.replaceOutside fuel inRun s
    = disruption.replaceOutside fuel' inRun s.
Proof.
  induction fuel as [|fuel IH]; intros fuel' inRun [|c rest] H H';
    cbn [String.length] in *; try (destruct fuel'; reflexivity); try lia.
  destruct fuel' as [|fuel']; [lia|].
  cbn [disruption.replaceOutside].
    pose proof (rune_width c rest) as Hw.
    destruct (if byteZ c <? utf8.RuneSelf then (byteZ c, 1%nat)
              else utf8.DecodeRuneInString (String c rest)) as [r width].
    specialize (Hw r width eq_refl). cbv beta iota.
    assert (Hd : (String.length (drop width (String c rest)) <= fuel)%nat
                 /\ (String.length (drop width (String c rest)) <= fuel')%nat)
      by (rewrite length_drop; cbn [String.length]; lia).
    destruct Hd as [Hd Hd'].
    rewrite (IH fuel' false _ Hd Hd'), (IH fuel' true _ Hd Hd'). reflexivity.
Qed.

Lemma namespaceChar_class (c : ascii) :
  disruption.inNamespaceClass (byteZ c) = namespaceChar c.
Proof. reflexivity. Qed.

Lemma namespaceChar_ascii (c : ascii) : namespaceChar c = true -> byteZ c < 0x80.
Proof. unfold namespaceChar. cbv zeta. intros H. to_prop; lia. Qed.

Lemma outside_from_0x80 (r : Z) :
  0x80 <= r -> disruption.inNamespaceClass r = false.
Proof.
  intros H. unfold disruption.inNamespaceClass.
  repeat (apply orb_false_iff; split); try apply andb_false_iff;
    rewrite ?Z.leb_gt, ?Z.eqb_neq; lia.
Qed.

Lemma replaceOutside_class (fuel : nat) (inRun : bool) (s : string) :
  allNamespace (disruption.replaceOutside fuel inRun s) = true.
Proof.
  revert inRun s; induction fuel as [|fuel IH]; intros inRun [|c rest];
    try reflexivity.
  cbn [disruption.replaceOutside].
  destruct (byteZ c <? utf8.RuneSelf) eqn:Hc.
  - destruct (disruption.inNamespaceClass (byteZ c)) eqn:Hs.
    + simpl. now rewrite <- namespaceChar_class, Hs, IH.
    + destruct inRun; simpl; apply IH.
  - apply Z.ltb_ge in Hc.
    destruct (utf8.DecodeRuneInString (String c rest)) as [r width] eqn:Hd.
    assert (Hr : disruption.inNamespaceClass r = false).
    { destruct (decode_lead c rest r width Hc Hd) as [[-> _] | (_ & Hr & _)];
        [reflexivity | now apply outside_from_0x80]. }
    rewrite Hr. destruct inRun; simpl; apply IH.
Qed.

Lemma replaceOutside_fixed (fuel : nat) (s : string) :
  (String.length s <= fuel)%nat -> allNamespace s = true ->
  disruption.replaceOutside fuel false s = s.
Proof.
  revert s; induction fuel as [|fuel IH]; intros [|c rest]; try reflexivity.
  - simpl. lia.
  - simpl String.length. intros Hl H. cbn [allNamespace] in H.
    apply andb_true_iff in H. destruct H as [Hc Hs].
    cbn [disruption.replaceOutside].
    pose proof (namespaceChar_ascii c Hc) as Ha. apply Z.ltb_lt in Ha.
    unfold utf8.RuneSelf. rewrite Ha, namespaceChar_class, Hc. simpl.
    rewrite IH; [reflexivity | lia | exact Hs].
Qed.

Local Abbreviation h := disruption.hyphen.

Lemma trimRightByte_class (s : string) :
  allNamespace s = true -> allNamespace (strings.trimRightByte s h) = true.
Proof.
  induction s as [|c s IH]; [reflexivity|]. cbn [allNamespace strings.trimRightByte].
  intros H. apply andb_true_iff in H. destruct H as [Hc Hs].
  specialize (IH Hs).
  destruct (strings.trimRightByte s h) as [|c' t].
  - destruct (Ascii.eqb c h); simpl; [reflexivity | now rewrite Hc].
  - cbn [allNamespace] in *. now rewrite Hc, IH.
Qed.

Lemma trimLeftByte_class (s : string) :
  allNamespace s = true -> allNamespace (strings.trimLeftByte s h) = true.
Proof.
  induction s as [|c s IH]; [reflexivity|]. cbn [allNamespace strings.trimLeftByte].
  intros H. destruct (Ascii.eqb c h); [|exact H].
  apply andb_true_iff in H. now apply IH.
Qed.

Lemma trimRightByte_end (s : string) :
  endsWithHyphen (strings.trimRightByte s h) = false.
Proof.
  induction s as [|c s IH]; [reflexivity|]. cbn [strings.trimRightByte].
  destruct (strings.trimRightByte s h) as [|c' t].
  - destruct (Ascii.eqb c h) eqn:E; simpl; [reflexivity | exact E].
  - exact IH.
Qed.

Lemma trimLeftByte_end (s : string) :
  endsWithHyphen s = false -> endsWithHyphen (strings.trimLeftByte s h) = false.
Proof.
  induction s as [|c s IH]; [reflexivity|]. cbn [strings.trimLeftByte].
  intros H. destruct (Ascii.eqb c h) eqn:E; [|exact H].
  apply IH. destruct s; [reflexivity | exact H].
Qed.

Lemma trimLeftByte_start (s : string) :
  startsWithHyphen (strings.trimLeftByte s h) = false.
Proof.
  induction s as [|c s IH]; [reflexivity|]. cbn [strings.trimLeftByte].
  destruct (Ascii.eqb c h) eqn:E; [exact IH | exact E].
Qed.

Lemma trimRightByte_fixed (s : string) :
  endsWithHyphen s = false -> strings.trimRightByte s h = s.
Proof.
  induction s as [|c s IH]; [reflexivity|]. cbn [strings.trimRightByte].
  intros H. destruct s as [|c' s'].
  - simpl in *. now rewrite H.
  - rewrite IH by exact H. reflexivity.
Qed.

Lemma trimLeftByte_fixed (s : string) :
  startsWithHyphen s = false -> strings.trimLeftByte s h = s.
Proof. destruct s as [|c s]; [reflexivity|]. simpl. now intros ->. Qed.

End NamespaceFacts.

(** X15.  The namespace name that [createTestFrameworks] makes of a test name
    holds word characters and hyphens only, and neither begins nor ends with
    a hyphen; a name that is so already is kept as it is, as the name of the
    service upgrade test is.  The length of the name is fuel enough for the
    loop over its runes: more fuel gives the same name. *)
Theorem namespaceName_clean (name : string) :
  allNamespace (disruption.namespaceName name) = true
  /\ startsWithHyphen (disruption.namespaceName name) = false
  /\ endsWithHyphen (disruption.namespaceName name) = false
  /\ (allNamespace name = true -> startsWithHyphen name = false ->
      endsWithHyphen name = false -> disruption.namespaceName name = name)
  /\ disruption.namespaceName service.Name = service.Name
  /\ (forall fuel,
         (String.length name <= fuel)%nat ->
         strings.TrimByte (disruption.replaceOutside fuel false name)
           disruption.hyphen
         = disruption.namespaceName name).
Proof.
  unfold disruption.namespaceName, strings.TrimByte.
  split; [|split; [|split; [|split; [|split]]]].
  - apply trimLeftByte_class, trimRightByte_class, replaceOutside_class.
  - apply trimLeftByte_start.
  - apply trimLeftByte_end, trimRightByte_end.
  - intros Hc Hs He.
    rewrite replaceOutside_fixed by (auto; lia).
    rewrite trimRightByte_fixed by exact He.
    now apply trimLeftByte_fixed.
  - reflexivity.
  - intros fuel Hfuel.
    now rewrite (replaceOutside_fuel fuel (String.length name) false name Hfuel
                   (le_n _)).
Qed.

Section RegistrationFacts.

Local Open Scope list_scope.

Variable isPrintTable : Z -> bool.
Variable isGoModulePath : string -> string -> string -> bool.

Local Abbreviation frameworkOfTest := (frameworkOf isGoModulePath).
Local Abbreviation createLoop := (disruption.createLoop isGoModulePath).
Local Abbreviation createTestFrameworks :=
  (disruption.createTestFrameworks isGoModulePath).
Local Abbreviation registerLoop := (disruption.registerLoop isPrintTable).
Local Abbreviation register := (disruption.register isPrintTable isGoModulePath).
Local Abbreviation sharedFrameworkOf := (sharedFramework isGoModulePath).

Lemma createLoop_cases (tests : list upgrades.Test) :
  forall m : gomap.t disruption.NewFramework,
    match createLoop tests m with
    | Ok m' =>
      forall k,
        gomap.get m' k
        = match lastNamed k tests with
          | Some t => Some (frameworkOfTest t)
          | None => gomap.get m k
          end
    | Panic msg => exists t, In t tests /\ upgrades.PkgPath t = Panic msg
    end.
Proof.
  induction tests as [|t rest IH]; intros m; [intros k; reflexivity|].
  cbn [disruption.createLoop lastNamed].
  destruct (upgrades.PkgPath t) as [pkgPath | msg0] eqn:Hpkg.
  - specialize (IH (gomap.set m (upgrades.Name t)
                      (disruption.frameworkFor isGoModulePath (upgrades.Name t)
                         pkgPath))).
    destruct (createLoop rest _) as [m'|msg].
    + intros k. rewrite IH. destruct (lastNamed k rest); [reflexivity|].
      rewrite get_set.
      destruct (String.eqb (upgrades.Name t) k); [|reflexivity].
      unfold frameworkOf. now rewrite Hpkg.
    + destruct IH as (t' & Hin & Hnone).
      exists t'. split; [now right | exact Hnone].
  - exists t. split; [now left | exact Hpkg].
Qed.

Lemma createLoop_Ok (tests : list upgrades.Test) :
  Forall (fun t => exists pkgPath, upgrades.PkgPath t = Ok pkgPath) tests ->
  forall m, exists m', createLoop tests m = Ok m'.
Proof.
  induction 1 as [|t rest [pkgPath Ht] _ IH]; intros m; [now exists m|].
  cbn [disruption.createLoop]. rewrite Ht. apply IH.
Qed.

Lemma lastNamed_Some (tests : list upgrades.Test) (k : string)
  (t : upgrades.Test) :
  lastNamed k tests = Some t -> In t tests /\ upgrades.Name t = k.
Proof.
  induction tests as [|x rest IH]; [discriminate|].
  cbn [lastNamed]. destruct (lastNamed k rest) as [y|].
  - intros [= <-]. destruct (IH eq_refl) as [H1 H2]. split; [now right | exact H2].
  - destruct (String.eqb_spec (upgrades.Name x) k); [|discriminate].
    intros [= <-]. split; [now left | assumption].
Qed.

Lemma lastNamed_In (tests : list upgrades.Test) (t : upgrades.Test) :
  In t tests ->
  exists t', lastNamed (upgrades.Name t) tests = Some t'
             /\ In t' tests /\ upgrades.Name t' = upgrades.Name t.
Proof.
  induction tests as [|t0 rest IH]; [intros []|].
  intros Hin.
  destruct (lastNamed (upgrades.Name t) (t0 :: rest)) as [t'|] eqn:E.
  - exists t'. split; [reflexivity|]. now apply lastNamed_Some.
  - exfalso. cbn [lastNamed] in E.
    destruct (lastNamed (upgrades.Name t) rest) as [t'|] eqn:E'; [discriminate|].
    destruct Hin as [-> | Hin].
    + rewrite String.eqb_refl in E. discriminate.
    + destruct (IH Hin) as (t' & H & _). discriminate.
Qed.

Lemma lastNamed_NoDup (tests : list upgrades.Test) (t : upgrades.Test) :
  NoDup (map upgrades.Name tests) -> In t tests ->
  lastNamed (upgrades.Name t) tests = Some t.
Proof.
  induction tests as [|t0 rest IH]; [intros _ []|].
  cbn [map]. intros Hnd Hin. inversion Hnd as [|? ? Hnot Hrest]; subst.
  cbn [lastNamed]. destruct Hin as [-> | Hin].
  - destruct (lastNamed (upgrades.Name t) rest) as [t'|] eqn:E.
    + exfalso. apply Hnot. apply lastNamed_Some in E. destruct E as [H1 H2].
      rewrite <- H2. now apply in_map.
    + now rewrite String.eqb_refl.
  - now rewrite (IH Hrest Hin).
Qed.

Lemma registerLoop_found (m : gomap.t disruption.NewFramework)
  (frameworkOf : upgrades.Test -> disruption.NewFramework)
  (tests : list upgrades.Test) :
  (forall t, In t tests -> gomap.get m (upgrades.Name t) = Some (frameworkOf t)) ->
  forall cases registered,
    registerLoop m tests cases registered
    = Ok (cases ++ map disruption.reportFor tests,
          registered ++ adaptersFor frameworkOf tests (List.length cases)).
Proof.
  induction tests as [|t rest IH]; intros Hget cases registered.
  - simpl. now rewrite !app_nil_r.
  - cbn [disruption.registerLoop]. rewrite (Hget t (or_introl eq_refl)).
    rewrite IH by (intros t' H'; apply Hget; now right).
    rewrite length_app. simpl. rewrite <- !app_assoc. simpl.
    now replace (List.length cases + 1)%nat with (S (List.length cases)) by lia.
Qed.

Lemma nth_error_reports (tests : list upgrades.Test) (cases : list junit.TestCase)
  (i : nat) (t : upgrades.Test) :
  nth_error tests i = Some t ->
  nth_error (cases ++ map disruption.reportFor tests) (List.length cases + i)
  = Some (disruption.reportFor t).
Proof.
  intros H. rewrite nth_error_app2 by lia.
  replace (List.length cases + i - List.length cases)%nat with i by lia.
  rewrite nth_error_map, H. reflexivity.
Qed.


End RegistrationFacts.

(** ** More on filesystemSafeName *)

Section SafeNameLength.

Lemma length_take (n : nat) (s : string) :
  (String.length (take n s) <= n)%nat.
Proof.
  revert s; induction n as [|n IH]; intros [|c s]; simpl; try lia.
  specialize (IH s). lia.
Qed.

Lemma replaceUnsafe_length (fuel : nat) (s : string) :
  (String.length (disruption.replaceUnsafe fuel s) <= String.length s)%nat.
Proof.
  revert s; induction fuel as [|fuel IH]; intros [|c rest];
    cbn [disruption.replaceUnsafe String.length]; try lia.
  assert (Hw : forall r width,
             (if byteZ c <? utf8.RuneSelf then (byteZ c, 1%nat)
              else utf8.DecodeRuneInString (String c rest)) = (r, width) ->
             (1 <= width <= S (String.length rest))%nat).
  { intros r width H. destruct (byteZ c <? utf8.RuneSelf).
    - injection H as _ <-. lia.
    - pose proof (decode_width (String c rest)) as [H1 H2].
      rewrite H in H1, H2. simpl in H1, H2.
      split; [apply H2; discriminate | exact H1]. }
  destruct (if byteZ c <? utf8.RuneSelf then (byteZ c, 1%nat)
            else utf8.DecodeRuneInString (String c rest)) as [r width].
  specialize (Hw r width eq_refl). cbv beta iota.
  pose proof (IH (drop width (String c rest))) as Hrec.
  rewrite length_drop in Hrec. cbn [String.length] in Hrec.
  destruct (disruption.inSafeClass r).
  - rewrite length_append. pose proof (length_take width (String c rest)).
    lia.
  - cbn [String.length]. lia.
Qed.

Lemma skipUnderscores_length (s : string) :
  (String.length (disruption.skipUnderscores s) <= String.length s)%nat.
Proof.
  induction s as [|c s IH]; simpl; [lia|].
  destruct (Ascii.eqb c disruption.underscore); simpl; lia.
Qed.

(** Fuel beyond the length of the string changes nothing. *)
Lemma replaceUnsafe_fuel (fuel : nat) :
  forall (fuel' : nat) (s : string),
    (String.length s <= fuel)%nat -> (String.length s <= fuel')%nat ->
    disruption.replaceUnsafe fuel s = disruption.replaceUnsafe fuel' s.
Proof.
  induction fuel as [|fuel IH]; intros fuel' [|c rest] H H';
    cbn [String.length] in *; try (destruct fuel'; reflexivity); try lia.
  destruct fuel' as [|fuel']; [lia|].
  cbn [disruption.replaceUnsafe].
    pose proof (rune_width c rest) as Hw.
    destruct (if byteZ c <? utf8.RuneSelf then (byteZ c, 1%nat)
              else utf8.DecodeRuneInString (String c rest)) as [r width].
    specialize (Hw r width eq_refl). cbv beta iota.
    rewrite (IH fuel' (drop width (String c rest)));
      [reflexivity | |]; rewrite length_drop; cbn [String.length]; lia.
Qed.

Lemma replaceDuplicate_fuel (fuel : nat) :
  forall (fuel' : nat) (s : string),
    (String.length s <= fuel)%nat -> (String.length s <= fuel')%nat ->
    disruption.replaceDuplicate fuel s = disruption.replaceDuplicate fuel' s.
Proof.
  induction fuel as [|fuel IH]; intros fuel' [|c rest] H H';
    cbn [String.length] in *; try (destruct fuel'; reflexivity); try lia.
  destruct fuel' as [|fuel']; [lia|].
  cbn [disruption.replaceDuplicate].
    pose proof (skipUnderscores_length rest).
    destruct (Ascii.eqb c disruption.underscore).
    + rewrite (IH fuel' (disruption.skipUnderscores rest)); [reflexivity | |]; lia.
    + rewrite (IH fuel' rest); [reflexivity | |]; lia.
Qed.

Lemma replaceDuplicate_length (fuel : nat) (s : string) :
  (String.length (disruption.replaceDuplicate fuel s) <= String.length s)%nat.
Proof.
  revert s; induction fuel as [|fuel IH]; intros [|c rest]; simpl; try lia.
  destruct (Ascii.eqb c disruption.underscore); simpl.
  - pose proof (IH (disruption.skipUnderscores rest)).
    pose proof (skipUnderscores_length rest). lia.
  - specialize (IH rest). lia.
Qed.

Lemma replaceUnsafe_nonempty (fuel : nat) (c : ascii) (rest : string) :
  disruption.replaceUnsafe (S fuel) (String c rest) <> EmptyString.
Proof.
  cbn [disruption.replaceUnsafe].
  destruct (byteZ c <? utf8.RuneSelf) eqn:Hc.
  - destruct (disruption.inSafeClass (byteZ c)); discriminate.
  - apply Z.ltb_ge in Hc.
    destruct (utf8.DecodeRuneInString (String c rest)) as [r width] eqn:Hd.
    assert (Hr : disruption.inSafeClass r = false).
    { destruct (decode_lead c rest r width Hc Hd) as [[-> _] | (_ & Hr & _)];
        [reflexivity | now apply unsafe_from_0x80]. }
    rewrite Hr. discriminate.
Qed.

End SafeNameLength.

(** X17.  The names that [filesystemSafeName] leaves as they are are those made
    of the bytes A-Z, a-z, 1-9 and the underscore with no two underscores in
    a row.  The name it returns is never longer than the one it is given,
    and it is empty for the empty name only.  The length of the name is fuel
    enough for the two loops: more fuel gives the same name. *)
Theorem filesystemSafeName_fixed_points (s : string) :
  (disruption.filesystemSafeName s = s
   <-> allSafe s = true /\ noDoubleUnderscore s = true)
  /\ (String.length (disruption.filesystemSafeName s) <= String.length s)%nat
  /\ (disruption.filesystemSafeName s = EmptyString <-> s = EmptyString)
  /\ (forall n m,
         (String.length s <= n)%nat -> (String.length s <= m)%nat ->
         disruption.replaceDuplicate m (disruption.replaceUnsafe n s)
         = disruption.filesystemSafeName s).
Proof.
  split; [|split; [|split]].
  - split.
    + intros H. rewrite <- H. split.
      * apply replaceDuplicate_safe, replaceUnsafe_safe.
      * apply replaceDuplicate_single.
    + intros [Hsafe Hsingle]. unfold disruption.filesystemSafeName. cbv zeta.
      rewrite (replaceUnsafe_fixed _ s (le_n _) Hsafe).
      now apply replaceDuplicate_fixed.
  - unfold disruption.filesystemSafeName. cbv zeta.
    pose proof (replaceDuplicate_length
                  (String.length (disruption.replaceUnsafe (String.length s) s))
                  (disruption.replaceUnsafe (String.length s) s)).
    pose proof (replaceUnsafe_length (String.length s) s). lia.
  - split; [|now intros ->].
    destruct s as [|c rest]; [reflexivity|]. intros H. exfalso.
    unfold disruption.filesystemSafeName in H. cbv zeta in H.
    cbn [String.length] in H.
    pose proof (replaceUnsafe_nonempty (String.length rest) c rest) as Hne.
    destruct (disruption.replaceUnsafe (S (String.length rest)) (String c rest))
      as [|c1 s1]; [now elim Hne|].
    cbn [disruption.replaceDuplicate String.length] in H.
    destruct (Ascii.eqb c1 disruption.underscore); discriminate H.
  - intros n m Hn Hm. unfold disruption.filesystemSafeName. cbv zeta.
    rewrite (replaceUnsafe_fuel n (String.length s) s Hn (le_n _)).
    pose proof (replaceUnsafe_length (String.length s) s) as Hlen.
    apply replaceDuplicate_fuel; lia.
Qed.

(** ** The conditions of a bare metal host *)

Section ConditionFacts.

Local Open Scope list_scope.

Lemma isString_iff (v : baremetal.Value) (s : string) :
  baremetal.isString v s = true <-> v = baremetal.VString s.
Proof.
  destruct v as [s'|]; simpl.
  - rewrite String.eqb_eq. split; [now intros -> | now intros [= ->]].
  - split; discriminate.
Qed.

Lemma checkCondition_iff (condType condStatus : string) (c : baremetal.Element) :
  baremetal.checkCondition condType condStatus c = true
  <-> conditionOK condType condStatus c.
Proof.
  unfold conditionOK. destruct c as [m|]; simpl.
  - destruct (gomap.get m "type") as [t|] eqn:Ht.
    + destruct (baremetal.isString t condType) eqn:Hty.
      * apply isString_iff in Hty. subst t.
        destruct (gomap.get m "status") as [s|] eqn:Hs.
        -- rewrite isString_iff. split.
           ++ intros ->. exists m, (baremetal.VString condType). auto.
           ++ intros (m' & t' & Hm & Hget & H). injection Hm as <-.
              rewrite Ht in Hget. injection Hget as <-.
              specialize (H eq_refl). congruence.
        -- split; [discriminate|].
           intros (m' & t' & Hm & Hget & H). injection Hm as <-.
           rewrite Ht in Hget. injection Hget as <-.
           specialize (H eq_refl). congruence.
      * split; [|reflexivity]. intros _. exists m, t.
        repeat split; auto. intros ->.
        assert (baremetal.isString (baremetal.VString condType) condType = true)
          by now apply isString_iff.
        congruence.
    + split; [discriminate|].
      intros (m' & t' & Hm & Hget & _). injection Hm as <-. congruence.
  - split; [discriminate|]. intros (m' & t' & H & _). discriminate.
Qed.

Lemma checkConditions_iff (condType condStatus : string)
  (conditions : list baremetal.Element) :
  baremetal.checkConditions condType condStatus conditions = true
  <-> Forall (conditionOK condType condStatus) conditions.
Proof.
  induction conditions as [|c rest IH]; simpl.
  - split; auto.
  - destruct (baremetal.checkCondition condType condStatus c) eqn:E.
    + rewrite IH. apply checkCondition_iff in E. split.
      * intros H. now constructor.
      * intros H. now inversion H.
    + split; [discriminate|]. intros H. inversion H as [|? ? Hc _].
      apply checkCondition_iff in Hc. congruence.
Qed.

End ConditionFacts.

(** X18.  [checkConditionStatus] returns exactly when the conditions were read
    without an error, there is at least one, and every one is a map with a
    type whose status, when the type is [condType], is [condStatus].  It
    does not ask for a condition of the type [condType]: conditions of other
    types only pass the check. *)
Theorem checkConditionStatus_passes_iff
  (nested : baremetal.NestedSliceResult) (condType condStatus : string) :
  (baremetal.checkConditionStatus nested condType condStatus = true
   <-> exists conditions,
         nested = baremetal.SliceFound conditions
         /\ conditions <> []
         /\ Forall (conditionOK condType condStatus) conditions)
  /\ (forall conditions,
         conditions <> [] ->
         Forall (fun c => exists m t,
                     c = baremetal.EMap m /\ gomap.get m "type" = Some t
                     /\ t <> baremetal.VString condType) conditions ->
         baremetal.checkConditionStatus (baremetal.SliceFound conditions)
           condType condStatus = true).
Proof.
  assert (Hiff : forall conditions,
             baremetal.checkConditionStatus (baremetal.SliceFound conditions)
               condType condStatus = true
             <-> conditions <> []
                 /\ Forall (conditionOK condType condStatus) conditions).
  { intros [|c rest].
    - simpl. split; [discriminate | intros [H _]; now elim H].
    - unfold baremetal.checkConditionStatus. rewrite checkConditions_iff.
      split; [intros H; split; [discriminate | exact H] | now intros [_ H]]. }
  split.
  - destruct nested as [err | conditions |].
    + split; [discriminate | intros (cs & H & _); discriminate].
    + rewrite Hiff. split.
      * intros [H1 H2]. now exists conditions.
      * intros (cs & [= <-] & H1 & H2). auto.
    + split; [discriminate | intros (cs & H & _); discriminate].
  - intros conditions Hne Hall. apply Hiff. split; [exact Hne|].
    eapply Forall_impl; [|exact Hall].
    intros c (m & t & Hc & Ht & Hother). exists m, t. repeat split; auto.
    intros E. contradiction.
Qed.

(** ** Tolerance, and tests that are skipped *)

Section ToleranceFacts.

Lemma compare_cont_Eq (a b : positive) : Pos.compare_cont Eq a b = Pos.compare a b.
Proof. reflexivity. Qed.

(** [x <= y] and [y < z] give [x < z] on [float64]. *)
Lemma fle_flt_trans (x y z : float64) :
  SFleb x y = true -> SFltb y z = true -> SFltb x z = true.
Proof.
  unfold SFleb, SFltb.
  destruct x as [sx | sx | | sx mx ex], y as [sy | sy | | sy my ey],
           z as [sz | sz | | sz mz ez]; simpl;
    try discriminate; try reflexivity;
    try (destruct sx; simpl; try discriminate; try reflexivity);
    try (destruct sy; simpl; try discriminate; try reflexivity);
    try (destruct sz; simpl; try discriminate; try reflexivity).
  all: destruct (Z.compare_spec ex ey), (Z.compare_spec ey ez),
         (Z.compare_spec ex ez); simpl; try discriminate; try reflexivity;
         try lia.
  all: repeat match goal with
       | |- context [PosDef.Pos.compare_cont Eq ?a ?b] =>
         change (PosDef.Pos.compare_cont Eq a b) with (Pos.compare a b)
       end.
  all: destruct (Pos.compare_spec mx my), (Pos.compare_spec my mz),
         (Pos.compare_spec mx mz); simpl; try discriminate; try reflexivity;
         try lia.
Qed.

End ToleranceFacts.

Section ToleranceTheorem.

Variable fmt_Duration : time.Duration -> string.
Variable fmt_f0 : float64 -> string.
Variable EventInterval_String : monitorapi.EventInterval -> string.
Variable Intervals_Duration :
  time.Duration -> time.Duration -> monitorapi.Intervals -> time.Duration.

Local Abbreviation ExpectNoDisruption :=
  (disruption.ExpectNoDisruption fmt_Duration fmt_f0 EventInterval_String
     Intervals_Duration).

(** X19.  A larger tolerance never fails a call that a smaller one lets
    pass: when [tolerate <= tolerate'] and [ExpectNoDisruption] returns with
    [tolerate], it returns with [tolerate'], for the same events and the
    same total, and it has recorded the same summaries. *)
Theorem larger_tolerance_still_passes
  (f : disruption.Framework) (tolerate tolerate' : float64)
  (total : time.Duration) (events : monitorapi.Intervals) (reason : string)
  (w : disruption.World) :
  fle tolerate tolerate' = true ->
  snd (ExpectNoDisruption f tolerate total events reason w) = disruption.Returns ->
  snd (ExpectNoDisruption f tolerate' total events reason w) = disruption.Returns
  /\ map (disruption.SummaryKind)
       (disruption.TestSummaries
          (fst (fst (ExpectNoDisruption f tolerate' total events reason w))))
     = map (disruption.SummaryKind)
         (disruption.TestSummaries
            (fst (fst (ExpectNoDisruption f tolerate total events reason w)))).
Proof.
  unfold disruption.ExpectNoDisruption, fle. cbv zeta. intros Hle.
  set (D := Intervals_Duration 0 (1 * time.Second) events).
  set (percent := fdiv (float64_of_int D) (float64_of_int total)).
  destruct (fgt percent tolerate) eqn:Hgt; [discriminate|]. intros _.
  assert (Hgt' : fgt percent tolerate' = false).
  { destruct (fgt percent tolerate') eqn:E; [|reflexivity].
    unfold fgt in *. rewrite (fle_flt_trans _ _ _ Hle E) in Hgt. discriminate. }
  rewrite Hgt'. destruct (0 <? D); simpl.
  - split; [reflexivity|]. now rewrite !map_app.
  - split; reflexivity.
Qed.

End ToleranceTheorem.

Lemma larger_tolerance_example :
  let two := fdiv (float64_of_int 2) (float64_of_int 100) in
  let five := fdiv (float64_of_int 5) (float64_of_int 100) in
  let call tolerate :=
    disruption.ExpectNoDisruption itoa (fun _ => EmptyString)
      (fun i => monitorapi.Message (monitorapi.Cond i)) monitorapi.Duration
      (disruption.mkFramework []) tolerate (600 * time.Second)
      [blip 0 (5 * time.Second)] "Service was unreachable" quietWorld in
  (fle two five = true /\ snd (call two) = disruption.Returns)
  /\ snd (call five) = disruption.Returns.
Proof.
  cbv zeta.
  assert (H1 : fle (fdiv (float64_of_int 2) (float64_of_int 100))
                 (fdiv (float64_of_int 5) (float64_of_int 100)) = true)
    by (vm_compute; reflexivity).
  assert (H2 : snd (disruption.ExpectNoDisruption itoa (fun _ => EmptyString)
                      (fun i => monitorapi.Message (monitorapi.Cond i))
                      monitorapi.Duration (disruption.mkFramework [])
                      (fdiv (float64_of_int 2) (float64_of_int 100))
                      (600 * time.Second) [blip 0 (5 * time.Second)]
                      "Service was unreachable" quietWorld)
               = disruption.Returns)
    by (vm_compute; reflexivity).
  split; [split; assumption|].
  exact (proj1 (larger_tolerance_still_passes itoa (fun _ => EmptyString)
                  (fun i => monitorapi.Message (monitorapi.Cond i))
                  monitorapi.Duration (disruption.mkFramework []) _ _
                  (600 * time.Second) [blip 0 (5 * time.Second)]
                  "Service was unreachable" quietWorld H1 H2)).
Defined.

Section AdapterFacts.

Local Open Scope list_scope.

Variable isPrintTable : Z -> bool.
Variable ReportDir : string.
Variable fsError : string -> option string.
Variable filepath_Join : string -> string -> string.
Variable formatRFC3339 : time.Time -> string.
Variable fmt_v : disruption.PanicValue -> string.
Variable EventsIntervalsToJSON : monitorapi.Intervals -> string.

Local Abbreviation adapterTest :=
  (disruption.adapterTest isPrintTable ReportDir fsError filepath_Join
     formatRFC3339 fmt_v EventsIntervalsToJSON).

Lemma onlyFlakes_skipped (tc : junit.TestCase) :
  junit.Skipped tc <> EmptyString -> onlyFlakes tc = false.
Proof.
  intros H. unfold onlyFlakes.
  destruct (junit.Failures tc); [reflexivity|].
  destruct (junit.Errors tc); [|reflexivity].
  destruct (junit.Skipped tc); [now elim H | reflexivity].
Qed.

(** X20.  A test that [chaosMonkeyAdapter.Test] skips is reported as
    skipped and never as passed: [finalizeTest] leaves its test case with
    the text "skipping test" and the name in the skipped field, with the
    errors it had and with no failure besides those it had and the flake
    that the framework may hold; and the loop of runChaosmonkey lists the
    test once in any suite, since a skipped test case gets no passing
    entry. *)
Theorem skipped_test_listed_once
  (start now : time.Time) (testReport : junit.TestCase)
  (cases : list junit.TestCase) (f : disruption.Framework) (name stack : string)
  (w : disruption.World) :
  match adapterTest start now testReport cases f name disruption.Skips stack w with
  | Panic _ => False
  | Ok (tc', _, _) =>
    junit.Skipped tc' = ("skipping test " ++ name)%string
    /\ junit.Errors tc' = junit.Errors testReport
    /\ (junit.Failures tc' = junit.Failures testReport
        \/ exists message,
             disruption.hasFrameworkFlake (disruption.TestSummaries f)
             = (message, true)
             /\ junit.Failures tc'
                = junit.Failures testReport
                    ++ [junit.mkFailure message "Flake" message])
    /\ onlyFlakes tc' = false
    /\ forall before after,
         disruption.flakeLoop (before ++ tc' :: after)
         = map retypedEntry before ++ retypedEntry tc' :: map retypedEntry after
             ++ map passingEntry (filter onlyFlakes (before ++ after))
  end.
Proof.
  unfold disruption.adapterTest, disruption.finalizeTest.
  destruct (disruption.writeSummaries _ _ _ _ _ _ _ _ _ _) as [cases1 w1].
  assert (Hloop : forall tc' : junit.TestCase,
             onlyFlakes tc' = false ->
             forall before after,
               disruption.flakeLoop (before ++ tc' :: after)
               = map retypedEntry before ++ retypedEntry tc'
                   :: map retypedEntry after
                   ++ map passingEntry (filter onlyFlakes (before ++ after))).
  { intros tc' Hno before after.
    rewrite flakeLoop_eq, map_app, !filter_app. cbn [map filter].
    rewrite Hno, <- app_assoc. reflexivity. }
  destruct (disruption.hasFrameworkFlake (disruption.TestSummaries f))
    as [message [|]] eqn:Hflake.
  - assert (Hno : onlyFlakes
                    (disruption.setFailures
                       (disruption.setTime
                          (disruption.setSkipped testReport
                             ("skipping test " ++ name)%string)
                          (time.Seconds (time.Sub now start)))
                       (junit.Failures
                          (disruption.setTime
                             (disruption.setSkipped testReport
                                ("skipping test " ++ name)%string)
                             (time.Seconds (time.Sub now start)))
                        ++ [junit.mkFailure message "Flake" message])) = false)
      by (apply onlyFlakes_skipped; discriminate).
    repeat split; auto.
    right. exists message. auto.
  - assert (Hno : onlyFlakes
                    (disruption.setTime
                       (disruption.setSkipped testReport
                          ("skipping test " ++ name)%string)
                       (time.Seconds (time.Sub now start))) = false)
      by (apply onlyFlakes_skipped; discriminate).
    repeat split; auto.
Qed.

End AdapterFacts.

(** ** Run and the panic of its function *)

Section RunFacts.

Local Open Scope list_scope.

Variable isPrintTable : Z -> bool.
Variable ReportDir : string.
Variable fsError : string -> option string.
Variable filepath_Join : string -> string -> string.
Variable formatRFC3339 : time.Time -> string.
Variable fmt_v : disruption.PanicValue -> string.
Variable EventsIntervalsToJSON : monitorapi.Intervals -> string.

Local Abbreviation runDisruption :=
  (disruption.runDisruption isPrintTable ReportDir fsError filepath_Join
     formatRFC3339 fmt_v EventsIntervalsToJSON).
Local Abbreviation adapterTest :=
  (disruption.adapterTest isPrintTable ReportDir fsError filepath_Join
     formatRFC3339 fmt_v EventsIntervalsToJSON).

Lemma writeSummaries_markFailed (now : time.Time) (tcName : string)
  (summaries : list disruption.TestSummary) (cases : list junit.TestCase)
  (w : disruption.World) :
  disruption.writeSummaries ReportDir fsError filepath_Join formatRFC3339
    EventsIntervalsToJSON now tcName summaries cases (disruption.markFailed w)
  = (fst (disruption.writeSummaries ReportDir fsError filepath_Join
            formatRFC3339 EventsIntervalsToJSON now tcName summaries cases w),
     disruption.markFailed
       (snd (disruption.writeSummaries ReportDir fsError filepath_Join
               formatRFC3339 EventsIntervalsToJSON now tcName summaries cases w))).
Proof. now rewrite !writeSummaries_eq. Qed.

(** X21.  What [fn] panics with never reaches the report of [Run]: the
    deferred [g.GinkgoRecover()] recovers it before [finalizeTest] runs, so
    the test case and the suite are those of a run in which [fn] returns,
    ginkgo alone having the failure.  The test case that [Run] makes for the
    test thus ends with no error, no skip and no failure but the flake that
    the framework may hold, while the same panic in a test that
    [chaosMonkeyAdapter.Test] runs is recorded in its test case. *)
Theorem Run_does_not_report_the_panic
  (start now : time.Time) (testname : string) (cases : list junit.TestCase)
  (fw : disruption.Framework) (r : disruption.PanicValue) (stack : string)
  (w : disruption.World) :
  let test := disruption.runCase testname in
  reported (runDisruption start now test cases (Some fw) (Some r) stack w)
  = reported (runDisruption start now test cases (Some fw) None stack w)
  /\ match runDisruption start now test cases (Some fw) (Some r) stack w with
     | Panic _ => False
     | Ok (tc', _, w') =>
       junit.Errors tc' = [] /\ junit.Skipped tc' = EmptyString
       /\ (junit.Failures tc' = []
           \/ exists message,
                disruption.hasFrameworkFlake (disruption.TestSummaries fw)
                = (message, true)
                /\ junit.Failures tc' = [junit.mkFailure message "Flake" message])
       /\ disruption.ginkgoFailed w' = true
     end
  /\ match adapterTest start now test cases fw testname
             (disruption.Runs fw w (Some r)) stack w with
     | Panic _ => False
     | Ok (tc', _, _) =>
       junit.Failures tc' <> [] \/ junit.Errors tc' <> []
       \/ junit.Skipped tc' <> EmptyString
     end.
Proof.
  cbv zeta. unfold disruption.runDisruption, disruption.adapterTest,
    disruption.finalizeTest.
  rewrite writeSummaries_markFailed.
  destruct (disruption.writeSummaries _ _ _ _ _ _ _ _ _ _) as [cases1 w1].
  cbn [fst snd].
  destruct (disruption.hasFrameworkFlake (disruption.TestSummaries fw))
    as [message [|]] eqn:Hflake.
  - split; [reflexivity|]. split.
    + repeat split; auto. right. exists message. auto.
    + destruct r as [m fl l t | m fl l t | v]; simpl;
        destruct (disruption.ginkgoFailed w1); simpl;
        first [ left; discriminate | right; left; discriminate
              | right; right; destruct fl; discriminate ].
  - split; [reflexivity|]. split.
    + repeat split; auto.
    + destruct r as [m fl l t | m fl l t | v]; simpl;
        destruct (disruption.ginkgoFailed w1); simpl;
        first [ left; discriminate | right; left; discriminate
              | right; right; destruct fl; discriminate ].
Qed.

End RunFacts.
